(** * Konsole terminal core: a shallow embedding and its verified properties

    The development follows the C++ sources of the terminal core:
    [CharacterColor.h], [Screen.cpp], [HistoryFile.cpp], [ScreenWindow.cpp],
    [HTMLDecoder.cpp], [filterHotSpots/Filter.cpp] and
    [filterHotSpots/RegExpFilter.cpp].

    Conventions.
    - A C++ [int] or [qint64] is a [Z]; signed overflow is undefined behaviour
      in C++ and lies outside the model.  Unsigned 8-bit and 16-bit fields
      ([quint8], [QChar]) are [Z] with the truncation written out.
    - C++ [/] and [%] on [int] truncate toward zero: [Z.quot] and [Z.rem].
    - A [QVector] or [QList] is a [list]; [v[i]] is stdpp's lookup with an
      explicit default.  An index outside the container is a failed
      [Q_ASSERT] in the sources; the theorems that read rows state the
      bounds they need.
    - A [QString] is the list of its UTF-16 code units.
    - Member functions become functions on a record of the members; a
      [void] mutator returns the new record. *)

From Stdlib Require Import ZArith String Ascii Bool.
From stdpp Require Import base decidable option list numbers.

Local Open Scope Z_scope.

(** ** Qt value types *)

Definition QString := list Z.

(** A string literal: one code unit per ASCII character. *)
Definition lit (s : string) : QString :=
  List.map (fun a => Z.of_nat (nat_of_ascii a)) (list_ascii_of_string s).

(** The double-quote character, as a one-unit string. *)
Definition dquote : QString := [34].

Definition quint8 (z : Z) : Z := z mod 256.

(** [QChar(uint)]: the low 16 bits. *)
Definition QChar (z : Z) : Z := Z.land z 65535.

(** [v[i]] for an index held in an [int]. *)
Definition at_ {A} (d : A) (l : list A) (i : Z) : A :=
  if i <? 0 then d else default d (l !! Z.to_nat i).

(** [v[i] = x] for an index held in an [int]. *)
Definition set_at {A} (l : list A) (i : Z) (x : A) : list A :=
  if i <? 0 then l else <[Z.to_nat i := x]> l.

(** [for (i = from; count iterations; i++) s = body i s]. *)
Fixpoint for_up {St} (count : nat) (i : Z) (body : Z -> St -> St) (s : St) : St :=
  match count with
  | O => s
  | S count' => for_up count' (i + 1) body (body i s)
  end.

(** [for (i = from; count iterations; i--) s = body i s]. *)
Fixpoint for_down {St} (count : nat) (i : Z) (body : Z -> St -> St) (s : St) : St :=
  match count with
  | O => s
  | S count' => for_down count' (i - 1) body (body i s)
  end.

(** [std::clamp(v, lo, hi)] as the standard library computes it. *)
Definition std_clamp (v lo hi : Z) : Z :=
  if v <? lo then lo else if hi <? v then hi else v.

Inductive QColor :=
| QColorRgb (r g b : Z)
| QColorInvalid.

Inductive FontWeight := Bold | Normal | UseCurrentFormat.

Record ColorEntry := { color : QColor; fontWeight : FontWeight }.

(** ** CharacterColor.h *)

Module CharacterColor.

Definition BASE_COLORS : Z := 2 + 8.
Definition INTENSITIES : Z := 2.
Definition TABLE_COLORS : Z := INTENSITIES * BASE_COLORS.

Definition DEFAULT_FORE_COLOR : Z := 0.
Definition DEFAULT_BACK_COLOR : Z := 1.

Definition COLOR_SPACE_UNDEFINED : Z := 0.
Definition COLOR_SPACE_DEFAULT : Z := 1.
Definition COLOR_SPACE_SYSTEM : Z := 2.
Definition COLOR_SPACE_256 : Z := 3.
Definition COLOR_SPACE_RGB : Z := 4.

Record t := { _colorSpace : Z; _u : Z; _v : Z; _w : Z }.

#[global] Instance t_eq_dec : EqDecision t.
Proof. solve_decision. Defined.

(** [CharacterColor()] *)
Definition undefined : t :=
  {| _colorSpace := COLOR_SPACE_UNDEFINED; _u := 0; _v := 0; _w := 0 |}.

(** [CharacterColor(quint8 colorSpace, int co)] *)
Definition make (colorSpace co : Z) : t :=
  if colorSpace =? COLOR_SPACE_DEFAULT then
    {| _colorSpace := colorSpace; _u := quint8 (Z.land co 1); _v := 0; _w := 0 |}
  else if colorSpace =? COLOR_SPACE_SYSTEM then
    {| _colorSpace := colorSpace; _u := quint8 (Z.land co 7);
       _v := quint8 (Z.land (Z.shiftr co 3) 1); _w := 0 |}
  else if colorSpace =? COLOR_SPACE_256 then
    {| _colorSpace := colorSpace; _u := quint8 (Z.land co 255); _v := 0; _w := 0 |}
  else if colorSpace =? COLOR_SPACE_RGB then
    {| _colorSpace := colorSpace; _u := quint8 (Z.shiftr co 16);
       _v := quint8 (Z.shiftr co 8); _w := quint8 co |}
  else
    {| _colorSpace := COLOR_SPACE_UNDEFINED; _u := 0; _v := 0; _w := 0 |}.

Definition isValid (c : t) : bool := negb (_colorSpace c =? COLOR_SPACE_UNDEFINED).

(** [base[i].color] on the palette array. *)
Definition entry (base : list ColorEntry) (i : Z) : QColor :=
  color (at_ {| color := QColorInvalid; fontWeight := UseCurrentFormat |} base i).

(** One channel of the 6x6x6 cube, as [color256] writes it:
    [d ? 40 * d + 55 : 0]. *)
Definition channel (d : Z) : Z := if d =? 0 then 0 else 40 * d + 55.

Definition color256 (u : Z) (base : list ColorEntry) : QColor :=
  if u <? 8 then entry base (u + 2)
  else
    let u := quint8 (u - 8) in
    if u <? 8 then entry base (u + 2 + BASE_COLORS)
    else
      let u := quint8 (u - 8) in
      if u <? 216 then
        QColorRgb (channel (Z.rem (Z.quot u 36) 6))
                  (channel (Z.rem (Z.quot u 6) 6))
                  (channel (Z.rem (Z.quot u 1) 6))
      else
        let u := quint8 (u - 216) in
        let gray := u * 10 + 8 in
        QColorRgb gray gray gray.

(** [CharacterColor::color(const ColorEntry* base)] *)
Definition color (c : t) (base : list ColorEntry) : QColor :=
  if _colorSpace c =? COLOR_SPACE_DEFAULT then
    entry base (_u c + 0 + (if _v c =? 0 then 0 else BASE_COLORS))
  else if _colorSpace c =? COLOR_SPACE_SYSTEM then
    entry base (_u c + 2 + (if _v c =? 0 then 0 else BASE_COLORS))
  else if _colorSpace c =? COLOR_SPACE_256 then color256 (_u c) base
  else if _colorSpace c =? COLOR_SPACE_RGB then QColorRgb (_u c) (_v c) (_w c)
  else QColorInvalid.

Definition setIntensive (c : t) : t :=
  if (_colorSpace c =? COLOR_SPACE_SYSTEM) || (_colorSpace c =? COLOR_SPACE_DEFAULT)
  then {| _colorSpace := _colorSpace c; _u := _u c; _v := 1; _w := _w c |}
  else c.

(** The channel values of the xterm colour cube, as the specification lists
    them. *)
Definition cube_levels : list Z := [0; 95; 135; 175; 215; 255].

(** A system colour of the palette: ANSI colour [u], normal or intensive. *)
Definition system (u : Z) (intensive : bool) : t :=
  {| _colorSpace := COLOR_SPACE_SYSTEM; _u := u;
     _v := if intensive then 1 else 0; _w := 0 |}.

End CharacterColor.


(** ** Character cells *)

Module Character.

Record t := {
  character : Z;
  foregroundColor : CharacterColor.t;
  backgroundColor : CharacterColor.t;
  rendition : Z;
  isRealCharacter : bool
}.

(** Modelled from the spec: [Character.h] is not part of these sources; the
    specification says of a cell that "Equality is field-wise". *)
#[global] Instance t_eq_dec : EqDecision t.
Proof. solve_decision. Defined.

End Character.

(** ** Declarations outside these sources

    [Screen.cpp], [HTMLDecoder.cpp], [Filter.cpp] and [HistoryFile.cpp] use
    constants and helpers declared in headers that are not at hand
    ([Character.h], [CharacterFormat.h], [HistoryFile.h], the [setFaint]
    member of [CharacterColor], [QColor::name]).  They are parameters of the
    model: every theorem holds for all their values. *)
Class Declarations := {
  DEFAULT_RENDITION : Z;
  RE_BOLD : Z;
  RE_UNDERLINE : Z;
  RE_REVERSE : Z;
  RE_FAINT : Z;
  RE_EXTENDED_CHAR : Z;
  LINE_WRAPPED : Z;
  (** [CharacterColor::setFaint()] *)
  setFaint : CharacterColor.t -> CharacterColor.t;
  (** [Character()], the cell a growing [QVector<Character>] is filled with *)
  Character_default : Character.t;
  (** [Character::isSpace()] *)
  isSpace : Character.t -> bool;
  (** [Character::stringWidth(const QString&)] *)
  stringWidth : QString -> Z;
  (** [ExtendedCharTable::instance.lookupExtendedChar], null as [None] *)
  lookupExtendedChar : Z -> option QString;
  (** [QColor::name()] *)
  QColor_name : QColor -> QString;
  (** [MAP_THRESHOLD] of [HistoryFile.h] *)
  MAP_THRESHOLD : Z
}.

(** One concrete choice of these parameters, for evaluating the model on
    concrete inputs: the rendition bits of the usual [Character.h], ASCII
    widths, an empty extended-character table. *)
Definition sample_declarations : Declarations := {|
  DEFAULT_RENDITION := 0;
  RE_BOLD := 1;
  RE_UNDERLINE := 4;
  RE_REVERSE := 8;
  RE_FAINT := 128;
  RE_EXTENDED_CHAR := 64;
  LINE_WRAPPED := 1;
  setFaint := fun c =>
    if (CharacterColor._colorSpace c =? CharacterColor.COLOR_SPACE_SYSTEM)
       || (CharacterColor._colorSpace c =? CharacterColor.COLOR_SPACE_DEFAULT)
    then {| CharacterColor._colorSpace := CharacterColor._colorSpace c;
            CharacterColor._u := CharacterColor._u c;
            CharacterColor._v := 2;
            CharacterColor._w := CharacterColor._w c |}
    else c;
  Character_default :=
    {| Character.character := 32;
       Character.foregroundColor :=
         CharacterColor.make CharacterColor.COLOR_SPACE_DEFAULT CharacterColor.DEFAULT_FORE_COLOR;
       Character.backgroundColor :=
         CharacterColor.make CharacterColor.COLOR_SPACE_DEFAULT CharacterColor.DEFAULT_BACK_COLOR;
       Character.rendition := 0;
       Character.isRealCharacter := true |};
  isSpace := fun c =>
    if Z.land (Character.rendition c) 64 =? 0 then Character.character c =? 32 else false;
  stringWidth := fun s => Z.of_nat (length s);
  lookupExtendedChar := fun _ => None;
  QColor_name := fun c =>
    match c with
    | QColorRgb r g b => [35; r; g; b]
    | QColorInvalid => [35]
    end;
  MAP_THRESHOLD := -1000
|}.

(** The sample parameters with one cluster in the table of extended
    characters: key 0 holds [<] followed by the combining long solidus
    overlay U+0338, the cluster [Screen::displayCharacter] creates when that
    combining mark is written behind a [<]. *)
Definition cluster_declarations : Declarations := {|
  DEFAULT_RENDITION := DEFAULT_RENDITION (Declarations := sample_declarations);
  RE_BOLD := RE_BOLD (Declarations := sample_declarations);
  RE_UNDERLINE := RE_UNDERLINE (Declarations := sample_declarations);
  RE_REVERSE := RE_REVERSE (Declarations := sample_declarations);
  RE_FAINT := RE_FAINT (Declarations := sample_declarations);
  RE_EXTENDED_CHAR := RE_EXTENDED_CHAR (Declarations := sample_declarations);
  LINE_WRAPPED := LINE_WRAPPED (Declarations := sample_declarations);
  setFaint := setFaint (Declarations := sample_declarations);
  Character_default := Character_default (Declarations := sample_declarations);
  isSpace := isSpace (Declarations := sample_declarations);
  stringWidth := stringWidth (Declarations := sample_declarations);
  lookupExtendedChar := fun key => if key =? 0 then Some [60; 824] else None;
  QColor_name := QColor_name (Declarations := sample_declarations);
  MAP_THRESHOLD := MAP_THRESHOLD (Declarations := sample_declarations)
|}.

(** The cell of that cluster: [rendition] has [RE_EXTENDED_CHAR] set and
    [character] is the key of the cluster. *)
Definition cluster_cell : Character.t :=
  {| Character.character := 0;
     Character.foregroundColor :=
       CharacterColor.make CharacterColor.COLOR_SPACE_DEFAULT CharacterColor.DEFAULT_FORE_COLOR;
     Character.backgroundColor :=
       CharacterColor.make CharacterColor.COLOR_SPACE_DEFAULT CharacterColor.DEFAULT_BACK_COLOR;
     Character.rendition := 64;
     Character.isRealCharacter := true |}.

(** ** History store *)

Module HistoryScroll.

(** Modelled from the spec: the history classes ([HistoryScroll],
    [HistoryScrollNone], [HistoryScrollFile], [CompactHistoryScroll]) are
    not part of these sources.  The specification gives three stores behind
    one interface: "None - stores nothing; lines() == 0", "File-backed,
    unlimited", and "Compact, bounded - a ring buffer with a fixed maximum
    line count; overflow drops the oldest line". *)
Inductive HistoryType :=
| HistoryTypeNone
| HistoryTypeFile
| CompactHistoryType (maxLines : Z).

(** Modelled from the spec: a store is an "ordered sequence of
    variable-length lines" with a "per-line wrap flag"; the oldest line is
    first. *)
Record t := {
  type : HistoryType;
  content : list (list Character.t * bool)
}.

(** Modelled from the spec: only the store of type None refuses lines. *)
Definition hasScroll (h : t) : bool :=
  match type h with
  | HistoryTypeNone => false
  | _ => true
  end.

(** Modelled from the spec: "get total line count"; "lines() == 0" for the
    store of type None. *)
Definition getLines (h : t) : Z :=
  match type h with
  | HistoryTypeNone => 0
  | _ => Z.of_nat (length (content h))
  end.

(** Modelled from the spec: "get maximum line count (or unlimited)", with
    unlimited as [None]. *)
Definition getMaxLines (h : t) : option Z :=
  match type h with
  | HistoryTypeNone => Some 0
  | HistoryTypeFile => None
  | CompactHistoryType n => Some n
  end.

(** Modelled from the spec: "append a line"; "for the bounded
    implementation, if at capacity, the oldest line is dropped".  The
    sources append in two calls: [addCellsVector] stores the cells of a new
    line, [addLine] records its wrapped flag. *)
Definition addCellsVector (cells : list Character.t) (h : t) : t :=
  match type h with
  | HistoryTypeNone => h
  | HistoryTypeFile => {| type := type h; content := content h ++ [(cells, false)] |}
  | CompactHistoryType n =>
      let c := content h ++ [(cells, false)] in
      {| type := type h;
         content := if n <? Z.of_nat (length c) then drop 1 c else c |}
  end.

(** Modelled from the spec: the wrapped flag of the line appended last. *)
Definition addLine (previousWrapped : bool) (h : t) : t :=
  match type h with
  | HistoryTypeNone => h
  | _ =>
      match content h with
      | [] => h
      | c =>
          {| type := type h;
             content := take (length c - 1) c
                        ++ [(fst (List.last c ([], false)), previousWrapped)] |}
      end
  end.

(** Modelled from the spec: "append(cells, wrapped, attributes)" as one
    step, the form in which the specification states the contract. *)
Definition append (cells : list Character.t) (wrapped : bool) (h : t) : t :=
  match type h with
  | HistoryTypeNone => h
  | HistoryTypeFile => {| type := type h; content := content h ++ [(cells, wrapped)] |}
  | CompactHistoryType n =>
      let c := content h ++ [(cells, wrapped)] in
      {| type := type h;
         content := if n <? Z.of_nat (length c) then drop 1 c else c |}
  end.

(** The store still has room for a line. *)
Definition belowCapacity (h : t) : Prop :=
  match type h with
  | HistoryTypeNone => False
  | HistoryTypeFile => True
  | CompactHistoryType n => getLines h < n
  end.

(** The store is bounded, holds a line, and is full. *)
Definition atCapacity (h : t) : Prop :=
  match type h with
  | CompactHistoryType n => n <= getLines h /\ 0 < getLines h
  | _ => False
  end.

End HistoryScroll.

(** ** Screen.cpp *)

Module Screen.

Record QRect := { rect_x : Z; rect_y : Z; rect_width : Z; rect_height : Z }.

(** [Screen::SavedState] *)
Record SavedState := {
  cursorColumn : Z;
  cursorLine : Z;
  rendition : Z;
  foreground : CharacterColor.t;
  background : CharacterColor.t
}.

(** The members of [Screen] that the functions below read or write.
    [_urlLinesRemoved] stands for the [_escapeSequenceUrlExtractor]: the
    total of the line counts passed to its [historyLinesRemoved]. *)
Record Screen := {
  _lines : Z;
  _columns : Z;
  _screenLines : list (list Character.t);
  _scrolledLines : Z;
  _lastScrolledRegion : QRect;
  _droppedLines : Z;
  _lineProperties : list Z;
  _history : HistoryScroll.t;
  _cuX : Z;
  _cuY : Z;
  _currentForeground : CharacterColor.t;
  _currentBackground : CharacterColor.t;
  _currentRendition : Z;
  _topMargin : Z;
  _bottomMargin : Z;
  _selBegin : Z;
  _selTopLeft : Z;
  _selBottomRight : Z;
  _effectiveForeground : CharacterColor.t;
  _effectiveBackground : CharacterColor.t;
  _effectiveRendition : Z;
  _savedState : SavedState;
  _lastPos : Z;
  _urlLinesRemoved : Z
}.

(** The record rebuilt from its own members; an assignment to one member
    replaces that member here. *)
Definition members (s : Screen) : Screen :=
  {| _lines := _lines s; _columns := _columns s; _screenLines := _screenLines s;
     _scrolledLines := _scrolledLines s; _lastScrolledRegion := _lastScrolledRegion s;
     _droppedLines := _droppedLines s; _lineProperties := _lineProperties s;
     _history := _history s; _cuX := _cuX s; _cuY := _cuY s;
     _currentForeground := _currentForeground s;
     _currentBackground := _currentBackground s;
     _currentRendition := _currentRendition s;
     _topMargin := _topMargin s; _bottomMargin := _bottomMargin s;
     _selBegin := _selBegin s; _selTopLeft := _selTopLeft s;
     _selBottomRight := _selBottomRight s;
     _effectiveForeground := _effectiveForeground s;
     _effectiveBackground := _effectiveBackground s;
     _effectiveRendition := _effectiveRendition s;
     _savedState := _savedState s; _lastPos := _lastPos s;
     _urlLinesRemoved := _urlLinesRemoved s |}.

Ltac assign member v s :=
  let r := eval cbv beta delta [members] in (members s) in
  match r with
  | context C [member s] => let r' := context C [v] in exact r'
  end.

Definition set_screenLines (v : list (list Character.t)) (s : Screen) : Screen :=
  ltac:(assign _screenLines v s).
Definition set_scrolledLines (v : Z) (s : Screen) : Screen :=
  ltac:(assign _scrolledLines v s).
Definition set_lastScrolledRegion (v : QRect) (s : Screen) : Screen :=
  ltac:(assign _lastScrolledRegion v s).
Definition set_droppedLines (v : Z) (s : Screen) : Screen :=
  ltac:(assign _droppedLines v s).
Definition set_lineProperties (v : list Z) (s : Screen) : Screen :=
  ltac:(assign _lineProperties v s).
Definition set_history (v : HistoryScroll.t) (s : Screen) : Screen :=
  ltac:(assign _history v s).
Definition set_cuX (v : Z) (s : Screen) : Screen :=
  ltac:(assign _cuX v s).
Definition set_cuY (v : Z) (s : Screen) : Screen :=
  ltac:(assign _cuY v s).
Definition set_currentForeground (v : CharacterColor.t) (s : Screen) : Screen :=
  ltac:(assign _currentForeground v s).
Definition set_currentBackground (v : CharacterColor.t) (s : Screen) : Screen :=
  ltac:(assign _currentBackground v s).
Definition set_currentRendition (v : Z) (s : Screen) : Screen :=
  ltac:(assign _currentRendition v s).
Definition set_selBegin (v : Z) (s : Screen) : Screen :=
  ltac:(assign _selBegin v s).
Definition set_selTopLeft (v : Z) (s : Screen) : Screen :=
  ltac:(assign _selTopLeft v s).
Definition set_selBottomRight (v : Z) (s : Screen) : Screen :=
  ltac:(assign _selBottomRight v s).
Definition set_effectiveForeground (v : CharacterColor.t) (s : Screen) : Screen :=
  ltac:(assign _effectiveForeground v s).
Definition set_effectiveBackground (v : CharacterColor.t) (s : Screen) : Screen :=
  ltac:(assign _effectiveBackground v s).
Definition set_effectiveRendition (v : Z) (s : Screen) : Screen :=
  ltac:(assign _effectiveRendition v s).
Definition set_savedState (v : SavedState) (s : Screen) : Screen :=
  ltac:(assign _savedState v s).
Definition set_lastPos (v : Z) (s : Screen) : Screen :=
  ltac:(assign _lastPos v s).
Definition set_urlLinesRemoved (v : Z) (s : Screen) : Screen :=
  ltac:(assign _urlLinesRemoved v s).

Section Functions.
Context {D : Declarations}.

(** [#define loc(X,Y) ((Y)*_columns+(X))] *)
Definition loc (s : Screen) (X Y : Z) : Z := Y * _columns s + X.

(** [Screen::DefaultChar] *)
Definition DefaultChar : Character.t :=
  {| Character.character := 32;
     Character.foregroundColor :=
       CharacterColor.make CharacterColor.COLOR_SPACE_DEFAULT CharacterColor.DEFAULT_FORE_COLOR;
     Character.backgroundColor :=
       CharacterColor.make CharacterColor.COLOR_SPACE_DEFAULT CharacterColor.DEFAULT_BACK_COLOR;
     Character.rendition := DEFAULT_RENDITION;
     Character.isRealCharacter := false |}.

Definition clearSelection (s : Screen) : Screen :=
  let s := set_selBottomRight (-1) s in
  let s := set_selTopLeft (-1) s in
  set_selBegin (-1) s.

Definition updateEffectiveRendition (s : Screen) : Screen :=
  let s := set_effectiveRendition (_currentRendition s) s in
  let s :=
    if negb (Z.land (_currentRendition s) RE_REVERSE =? 0) then
      let s := set_effectiveForeground (_currentBackground s) s in
      set_effectiveBackground (_currentForeground s) s
    else
      let s := set_effectiveForeground (_currentForeground s) s in
      set_effectiveBackground (_currentBackground s) s in
  if negb (Z.land (_currentRendition s) RE_BOLD =? 0) then
    if Z.land (_currentRendition s) RE_FAINT =? 0 then
      set_effectiveForeground (CharacterColor.setIntensive (_effectiveForeground s)) s
    else s
  else
    if negb (Z.land (_currentRendition s) RE_FAINT =? 0) then
      set_effectiveForeground (setFaint (_effectiveForeground s)) s
    else s.

Definition saveCursor (s : Screen) : Screen :=
  set_savedState
    {| cursorColumn := _cuX s;
       cursorLine := _cuY s;
       rendition := _currentRendition s;
       foreground := _currentForeground s;
       background := _currentBackground s |} s.

Definition restoreCursor (s : Screen) : Screen :=
  let s := set_cuX (Z.min (cursorColumn (_savedState s)) (_columns s - 1)) s in
  let s := set_cuY (Z.min (cursorLine (_savedState s)) (_lines s - 1)) s in
  let s := set_currentRendition (rendition (_savedState s)) s in
  let s := set_currentForeground (foreground (_savedState s)) s in
  let s := set_currentBackground (background (_savedState s)) s in
  updateEffectiveRendition s.

Definition setRendition (rendition : Z) (s : Screen) : Screen :=
  let s := set_currentRendition (Z.lor (_currentRendition s) rendition) s in
  updateEffectiveRendition s.

Definition resetRendition (rendition : Z) (s : Screen) : Screen :=
  let s := set_currentRendition (Z.land (_currentRendition s) (Z.lnot rendition)) s in
  updateEffectiveRendition s.

(** [Screen::setForeColor] calls itself with the default colour when the
    colour it built is invalid; [fuel] bounds the depth of that recursion. *)
Fixpoint setForeColor_fuel (fuel : nat) (space color : Z) (s : Screen) : option Screen :=
  match fuel with
  | O => None
  | S fuel' =>
      let s := set_currentForeground (CharacterColor.make (quint8 space) color) s in
      if CharacterColor.isValid (_currentForeground s) then
        Some (updateEffectiveRendition s)
      else
        setForeColor_fuel fuel' CharacterColor.COLOR_SPACE_DEFAULT
                          CharacterColor.DEFAULT_FORE_COLOR s
  end.

Fixpoint setBackColor_fuel (fuel : nat) (space color : Z) (s : Screen) : option Screen :=
  match fuel with
  | O => None
  | S fuel' =>
      let s := set_currentBackground (CharacterColor.make (quint8 space) color) s in
      if CharacterColor.isValid (_currentBackground s) then
        Some (updateEffectiveRendition s)
      else
        setBackColor_fuel fuel' CharacterColor.COLOR_SPACE_DEFAULT
                          CharacterColor.DEFAULT_BACK_COLOR s
  end.

(** Two levels are enough: the default colour is valid
    ([setForeColor_fuel_enough] below). *)
Definition setForeColor (space color : Z) (s : Screen) : Screen :=
  default s (setForeColor_fuel 2 space color s).

Definition setBackColor (space color : Z) (s : Screen) : Screen :=
  default s (setBackColor_fuel 2 space color s).

Definition setDefaultRendition (s : Screen) : Screen :=
  let s := setForeColor CharacterColor.COLOR_SPACE_DEFAULT CharacterColor.DEFAULT_FORE_COLOR s in
  let s := setBackColor CharacterColor.COLOR_SPACE_DEFAULT CharacterColor.DEFAULT_BACK_COLOR s in
  let s := set_currentRendition DEFAULT_RENDITION s in
  updateEffectiveRendition s.

Definition getLines (s : Screen) : Z := _lines s.

Definition getColumns (s : Screen) : Z := _columns s.

Definition scrolledLines (s : Screen) : Z := _scrolledLines s.

Definition droppedLines (s : Screen) : Z := _droppedLines s.

Definition hasScroll (s : Screen) : bool := HistoryScroll.hasScroll (_history s).

Definition getHistLines (s : Screen) : Z := HistoryScroll.getLines (_history s).

Definition addHistLine (s : Screen) : Screen :=
  let oldHistLines := HistoryScroll.getLines (_history s) in
  let newHistLines := HistoryScroll.getLines (_history s) in
  let '(newHistLines, s) :=
    if hasScroll s then
      let s := set_history
                 (HistoryScroll.addCellsVector (at_ [] (_screenLines s) 0) (_history s)) s in
      let s := set_history
                 (HistoryScroll.addLine
                    (negb (Z.land (at_ 0 (_lineProperties s) 0) LINE_WRAPPED =? 0))
                    (_history s)) s in
      let newHistLines := HistoryScroll.getLines (_history s) in
      if newHistLines =? oldHistLines then
        let s := set_droppedLines (_droppedLines s + 1) s in
        (newHistLines, set_urlLinesRemoved (_urlLinesRemoved s + 1) s)
      else (newHistLines, s)
    else (newHistLines, s) in
  let beginIsTL := _selBegin s =? _selTopLeft s in
  let s :=
    if oldHistLines <? newHistLines then
      if negb (_selBegin s =? -1) then
        let s := set_selTopLeft (_selTopLeft s + _columns s) s in
        set_selBottomRight (_selBottomRight s + _columns s) s
      else s
    else s in
  if negb (_selBegin s =? -1) then
    let top_BR := loc s 0 (1 + newHistLines) in
    let s := if _selTopLeft s <? top_BR
             then set_selTopLeft (_selTopLeft s - _columns s) s else s in
    let s := if _selBottomRight s <? top_BR
             then set_selBottomRight (_selBottomRight s - _columns s) s else s in
    let s := if _selBottomRight s <? 0 then clearSelection s
             else if _selTopLeft s <? 0 then set_selTopLeft 0 s else s in
    if beginIsTL then set_selBegin (_selTopLeft s) s
    else set_selBegin (_selBottomRight s) s
  else s.

(** [_screenLines[d] = std::move(_screenLines[src])]: the moved-from row is
    left empty; a row moved onto itself keeps its cells. *)
Definition move_row (rows : list (list Character.t)) (d src : Z) : list (list Character.t) :=
  if d =? src then rows
  else set_at (set_at rows d (at_ [] rows src)) src [].

Definition moveImage (dest sourceBegin sourceEnd : Z) (s : Screen) : Screen :=
  let lines := Z.quot (sourceEnd - sourceBegin) (_columns s) in
  let destY := Z.quot dest (_columns s) in
  let srcY := Z.quot sourceBegin (_columns s) in
  let s :=
    if dest <? sourceBegin then
      for_up (Z.to_nat (lines + 1)) 0
        (fun i s =>
           let s := set_screenLines
                      (set_at (_screenLines s) (destY + i)
                              (at_ [] (_screenLines s) (srcY + i))) s in
           set_lineProperties
             (set_at (_lineProperties s) (destY + i)
                     (at_ 0 (_lineProperties s) (srcY + i))) s) s
    else
      for_down (Z.to_nat (lines + 1)) lines
        (fun i s =>
           let s := set_screenLines (move_row (_screenLines s) (destY + i) (srcY + i)) s in
           set_lineProperties
             (set_at (_lineProperties s) (destY + i)
                     (at_ 0 (_lineProperties s) (srcY + i))) s) s in
  let s :=
    if negb (_lastPos s =? -1) then
      let diff := dest - sourceBegin in
      let s := set_lastPos (_lastPos s + diff) s in
      if (_lastPos s <? 0) || (lines * _columns s <=? _lastPos s)
      then set_lastPos (-1) s else s
    else s in
  if negb (_selBegin s =? -1) then
    let beginIsTL := _selBegin s =? _selTopLeft s in
    let diff := dest - sourceBegin in
    let scr_TL := loc s 0 (HistoryScroll.getLines (_history s)) in
    let srca := sourceBegin + scr_TL in
    let srce := sourceEnd + scr_TL in
    let desta := srca + diff in
    let deste := srce + diff in
    let s :=
      if (srca <=? _selTopLeft s) && (_selTopLeft s <=? srce)
      then set_selTopLeft (_selTopLeft s + diff) s
      else if (desta <=? _selTopLeft s) && (_selTopLeft s <=? deste)
      then set_selBottomRight (-1) s
      else s in
    let s :=
      if (srca <=? _selBottomRight s) && (_selBottomRight s <=? srce)
      then set_selBottomRight (_selBottomRight s + diff) s
      else if (desta <=? _selBottomRight s) && (_selBottomRight s <=? deste)
      then set_selBottomRight (-1) s
      else s in
    let s := if _selBottomRight s <? 0 then clearSelection s
             else if _selTopLeft s <? 0 then set_selTopLeft 0 s else s in
    if beginIsTL then set_selBegin (_selTopLeft s) s
    else set_selBegin (_selBottomRight s) s
  else s.

(** [std::fill(line.begin() + first, line.begin() + last, v)] *)
Definition fill (first last : Z) (v : Character.t) (line : list Character.t)
  : list Character.t :=
  for_up (Z.to_nat (last - first)) first (fun i l => set_at l i v) line.

(** [line.resize(n)]: cut, or grown with [Character()]. *)
Definition resize_line (n : Z) (line : list Character.t) : list Character.t :=
  resize (Z.to_nat n) Character_default line.

Definition clearImage (loca loce : Z) (c : Z) (s : Screen) : Screen :=
  let scr_TL := loc s 0 (HistoryScroll.getLines (_history s)) in
  let s :=
    if (loca + scr_TL <? _selBottomRight s) && (_selTopLeft s <? loce + scr_TL)
    then clearSelection s else s in
  let topLine := Z.quot loca (_columns s) in
  let bottomLine := Z.quot loce (_columns s) in
  let clearCh :=
    {| Character.character := c;
       Character.foregroundColor := _currentForeground s;
       Character.backgroundColor := _currentBackground s;
       Character.rendition := DEFAULT_RENDITION;
       Character.isRealCharacter := false |} in
  let isDefaultCh := bool_decide (clearCh = DefaultChar) in
  for_up (Z.to_nat (bottomLine - topLine + 1)) topLine
    (fun y s =>
       let s := set_lineProperties (set_at (_lineProperties s) y 0) s in
       let endCol := if y =? bottomLine then Z.rem loce (_columns s) else _columns s - 1 in
       let startCol := if y =? topLine then Z.rem loca (_columns s) else 0 in
       let line := at_ [] (_screenLines s) y in
       let line :=
         if isDefaultCh && (endCol =? _columns s - 1) then resize_line startCol line
         else
           let line := if Z.of_nat (length line) <? endCol + 1
                       then resize_line (endCol + 1) line else line in
           if startCol <=? endCol then fill startCol (endCol + 1) clearCh line
           else line in
       set_screenLines (set_at (_screenLines s) y line) s) s.

(** [Screen::scrollUp(int from, int n)] *)
Definition scrollUpFrom (from n : Z) (s : Screen) : Screen :=
  if n <=? 0 then s
  else if _bottomMargin s <? from then s
  else
    let n := if _bottomMargin s <? from + n then _bottomMargin s + 1 - from else n in
    let s := set_scrolledLines (_scrolledLines s - n) s in
    let s := set_lastScrolledRegion
               {| rect_x := 0; rect_y := _topMargin s; rect_width := _columns s - 1;
                  rect_height := _bottomMargin s - _topMargin s |} s in
    let s := moveImage (loc s 0 from) (loc s 0 (from + n))
                       (loc s (_columns s) (_bottomMargin s)) s in
    clearImage (loc s 0 (_bottomMargin s - n + 1))
               (loc s (_columns s - 1) (_bottomMargin s)) 32 s.

(** [Screen::scrollUp(int n)] *)
Definition scrollUp (n : Z) (s : Screen) : Screen :=
  let n := if n <? 1 then 1 else n in
  let s := if _topMargin s =? 0 then addHistLine s else s in
  scrollUpFrom (_topMargin s) n s.

(** [Screen::scrollDown(int from, int n)] *)
Definition scrollDownFrom (from n : Z) (s : Screen) : Screen :=
  let s := set_scrolledLines (_scrolledLines s + n) s in
  if n <=? 0 then s
  else if _bottomMargin s <? from then s
  else
    let n := if _bottomMargin s <? from + n then _bottomMargin s - from else n in
    let s := moveImage (loc s 0 (from + n)) (loc s 0 from)
                       (loc s (_columns s - 1) (_bottomMargin s - n)) s in
    clearImage (loc s 0 from) (loc s (_columns s - 1) (from + n - 1)) 32 s.

(** [Screen::scrollDown(int n)] *)
Definition scrollDown (n : Z) (s : Screen) : Screen :=
  let n := if n <? 1 then 1 else n in
  scrollDownFrom (_topMargin s) n s.

Definition index (s : Screen) : Screen :=
  if _cuY s =? _bottomMargin s then scrollUp 1 s
  else if _cuY s <? _lines s - 1 then set_cuY (_cuY s + 1) s
  else s.

Definition reverseIndex (s : Screen) : Screen :=
  if _cuY s =? _topMargin s then scrollDownFrom (_topMargin s) 1 s
  else if 0 <? _cuY s then set_cuY (_cuY s - 1) s
  else s.

(** The cell read at column [x] of row [y]: a row shorter than the screen
    is padded with [DefaultChar] on read ([Screen::copyFromScreen]). *)
Definition cellAt (s : Screen) (x y : Z) : Character.t :=
  at_ DefaultChar (at_ [] (_screenLines s) y) x.

(** The effective attributes as the specification derives them from the
    current ones: "reverse swaps fore/back; bold-without-faint sets intensive
    on the effective foreground; faint-without-bold sets faint". *)
Definition spec_effective (rendition : Z) (fore back : CharacterColor.t)
  : Z * CharacterColor.t * CharacterColor.t :=
  let reverse := negb (Z.land rendition RE_REVERSE =? 0) in
  let bold := negb (Z.land rendition RE_BOLD =? 0) in
  let faint := negb (Z.land rendition RE_FAINT =? 0) in
  let f := if reverse then back else fore in
  let b := if reverse then fore else back in
  let f := if bold && negb faint then CharacterColor.setIntensive f
           else if faint && negb bold then setFaint f
           else f in
  (rendition, f, b).

(** The effective attributes of a screen agree with the derivation. *)
Definition effective_derived (s : Screen) : Prop :=
  (_effectiveRendition s, _effectiveForeground s, _effectiveBackground s)
  = spec_effective (_currentRendition s) (_currentForeground s) (_currentBackground s).

(** A cell showing the code unit [ch] in the default colours. *)
Definition plain (ch : Z) : Character.t :=
  {| Character.character := ch;
     Character.foregroundColor :=
       CharacterColor.make CharacterColor.COLOR_SPACE_DEFAULT CharacterColor.DEFAULT_FORE_COLOR;
     Character.backgroundColor :=
       CharacterColor.make CharacterColor.COLOR_SPACE_DEFAULT CharacterColor.DEFAULT_BACK_COLOR;
     Character.rendition := DEFAULT_RENDITION;
     Character.isRealCharacter := true |}.

(** A screen of 4 lines and 3 columns showing [abc], [de], an empty line
    and [xyz], the first line wrapped, with the cursor on the last line, the
    margins at the whole screen and an empty bounded history of 2 lines. *)
Definition sample_screen : Screen :=
  {| _lines := 4; _columns := 3;
     _screenLines := [List.map plain (lit "abc"); List.map plain (lit "de"); [];
                      List.map plain (lit "xyz"); []];
     _scrolledLines := 0;
     _lastScrolledRegion := {| rect_x := 0; rect_y := 0; rect_width := 0; rect_height := 0 |};
     _droppedLines := 0;
     _lineProperties := [LINE_WRAPPED; 0; 0; 0; 0];
     _history := {| HistoryScroll.type := HistoryScroll.CompactHistoryType 2;
                    HistoryScroll.content := [] |};
     _cuX := 0; _cuY := 3;
     _currentForeground :=
       CharacterColor.make CharacterColor.COLOR_SPACE_DEFAULT CharacterColor.DEFAULT_FORE_COLOR;
     _currentBackground :=
       CharacterColor.make CharacterColor.COLOR_SPACE_DEFAULT CharacterColor.DEFAULT_BACK_COLOR;
     _currentRendition := DEFAULT_RENDITION;
     _topMargin := 0; _bottomMargin := 3;
     _selBegin := -1; _selTopLeft := -1; _selBottomRight := -1;
     _effectiveForeground :=
       CharacterColor.make CharacterColor.COLOR_SPACE_DEFAULT CharacterColor.DEFAULT_FORE_COLOR;
     _effectiveBackground :=
       CharacterColor.make CharacterColor.COLOR_SPACE_DEFAULT CharacterColor.DEFAULT_BACK_COLOR;
     _effectiveRendition := DEFAULT_RENDITION;
     _savedState :=
       {| cursorColumn := 0; cursorLine := 0; rendition := DEFAULT_RENDITION;
          foreground :=
            CharacterColor.make CharacterColor.COLOR_SPACE_DEFAULT
                                CharacterColor.DEFAULT_FORE_COLOR;
          background :=
            CharacterColor.make CharacterColor.COLOR_SPACE_DEFAULT
                                CharacterColor.DEFAULT_BACK_COLOR |};
     _lastPos := -1;
     _urlLinesRemoved := 0 |}.

(** The three consecutive blocks of the body of [moveImage], named for the
    proofs ([moveImage_blocks] below shows that they compose to it): the
    copy of rows and line properties, the update of [_lastPos], and the
    update of the selection. *)
Definition moveImage_rows (dest sourceBegin sourceEnd : Z) (s : Screen) : Screen :=
  let lines := Z.quot (sourceEnd - sourceBegin) (_columns s) in
  let destY := Z.quot dest (_columns s) in
  let srcY := Z.quot sourceBegin (_columns s) in
  if dest <? sourceBegin then
    for_up (Z.to_nat (lines + 1)) 0
      (fun i s =>
         let s := set_screenLines
                    (set_at (_screenLines s) (destY + i)
                            (at_ [] (_screenLines s) (srcY + i))) s in
         set_lineProperties
           (set_at (_lineProperties s) (destY + i)
                   (at_ 0 (_lineProperties s) (srcY + i))) s) s
  else
    for_down (Z.to_nat (lines + 1)) lines
      (fun i s =>
         let s := set_screenLines (move_row (_screenLines s) (destY + i) (srcY + i)) s in
         set_lineProperties
           (set_at (_lineProperties s) (destY + i)
                   (at_ 0 (_lineProperties s) (srcY + i))) s) s.

Definition moveImage_lastPos (dest sourceBegin lines : Z) (s : Screen) : Screen :=
  if negb (_lastPos s =? -1) then
    let diff := dest - sourceBegin in
    let s := set_lastPos (_lastPos s + diff) s in
    if (_lastPos s <? 0) || (lines * _columns s <=? _lastPos s)
    then set_lastPos (-1) s else s
  else s.

Definition moveImage_selection (dest sourceBegin sourceEnd : Z) (s : Screen) : Screen :=
  if negb (_selBegin s =? -1) then
    let beginIsTL := _selBegin s =? _selTopLeft s in
    let diff := dest - sourceBegin in
    let scr_TL := loc s 0 (HistoryScroll.getLines (_history s)) in
    let srca := sourceBegin + scr_TL in
    let srce := sourceEnd + scr_TL in
    let desta := srca + diff in
    let deste := srce + diff in
    let s :=
      if (srca <=? _selTopLeft s) && (_selTopLeft s <=? srce)
      then set_selTopLeft (_selTopLeft s + diff) s
      else if (desta <=? _selTopLeft s) && (_selTopLeft s <=? deste)
      then set_selBottomRight (-1) s
      else s in
    let s :=
      if (srca <=? _selBottomRight s) && (_selBottomRight s <=? srce)
      then set_selBottomRight (_selBottomRight s + diff) s
      else if (desta <=? _selBottomRight s) && (_selBottomRight s <=? deste)
      then set_selBottomRight (-1) s
      else s in
    let s := if _selBottomRight s <? 0 then clearSelection s
             else if _selTopLeft s <? 0 then set_selTopLeft 0 s else s in
    if beginIsTL then set_selBegin (_selTopLeft s) s
    else set_selBegin (_selBottomRight s) s
  else s.

(** The blank cell in the current colours, with which [clearImage] fills. *)
Definition blank (s : Screen) : Character.t :=
  {| Character.character := 32;
     Character.foregroundColor := _currentForeground s;
     Character.backgroundColor := _currentBackground s;
     Character.rendition := DEFAULT_RENDITION;
     Character.isRealCharacter := false |}.

(** What the loop body of [clearImage] makes of a row that it clears from
    its first to its last column. *)
Definition cleared_row (columns : Z) (clearCh : Character.t) (line : list Character.t)
  : list Character.t :=
  if bool_decide (clearCh = DefaultChar) then resize_line 0 line
  else
    fill 0 columns clearCh
         (if Z.of_nat (length line) <? columns then resize_line columns line else line).

(** The clamped line count of [scrollDown(from, n)]. *)
Definition scrollDown_clamped (s : Screen) (from n : Z) : Z :=
  if _bottomMargin s <? from + n then _bottomMargin s - from else n.

(** The clamped line count of [scrollUp(from, n)]. *)
Definition scrollUp_clamped (s : Screen) (from n : Z) : Z :=
  if _bottomMargin s <? from + n then _bottomMargin s + 1 - from else n.

(** The geometry the scroll functions rely on: at least one column, the
    bottom margin on the screen, and one row more than the screen has lines
    (the overflow slot). *)
Definition wellFormed (s : Screen) : Prop :=
  0 < _columns s /\
  _bottomMargin s < _lines s /\
  Z.of_nat (length (_screenLines s)) = _lines s + 1.

End Functions.

(** The members that scrolling inside the image never writes. *)
Definition frame (s s' : Screen) : Prop :=
  _history s' = _history s /\ _lines s' = _lines s /\ _columns s' = _columns s /\
  _topMargin s' = _topMargin s /\ _bottomMargin s' = _bottomMargin s /\
  _cuX s' = _cuX s /\ _cuY s' = _cuY s /\
  _currentForeground s' = _currentForeground s /\
  _currentBackground s' = _currentBackground s /\
  _scrolledLines s' = _scrolledLines s /\
  _droppedLines s' = _droppedLines s.

(** The forward copy of [moveImage] on the rows alone. *)
Definition copy_rows_up (destY srcY : Z) (count : nat) (from : Z)
           (rows : list (list Character.t)) : list (list Character.t) :=
  for_up count from
    (fun i rows => set_at rows (destY + i) (at_ [] rows (srcY + i))) rows.

(** The backward copy of [moveImage] on the rows alone. *)
Definition copy_rows_down (destY srcY : Z) (count : nat) (from : Z)
           (rows : list (list Character.t)) : list (list Character.t) :=
  for_down count from
    (fun i rows => move_row rows (destY + i) (srcY + i)) rows.

(** The image (rows and line properties) is kept. *)
Definition same_image (s s' : Screen) : Prop :=
  _screenLines s' = _screenLines s /\ _lineProperties s' = _lineProperties s.

(** *** Cursor, margin, mode, tabulator, editing and selection commands *)

(** Constants of [Screen.h] and the one-argument constructor of
    [Character.h]; neither header is among these sources, so they are
    parameters of the model like the declarations above. *)
Class ScreenDeclarations := {
  MAX_SCREEN_ARGUMENT : Z;
  MODE_Origin : Z;
  MODE_NewLine : Z;
  (** [Character(' ')], the cell [insertChars] inserts *)
  Character_space : Character.t
}.

(** One concrete choice of these parameters, for evaluating the model on
    concrete inputs. *)
Definition sample_screen_declarations : ScreenDeclarations := {|
  MAX_SCREEN_ARGUMENT := 40960;
  MODE_Origin := 0;
  MODE_NewLine := 5;
  Character_space :=
    {| Character.character := 32;
       Character.foregroundColor :=
         CharacterColor.make CharacterColor.COLOR_SPACE_DEFAULT CharacterColor.DEFAULT_FORE_COLOR;
       Character.backgroundColor :=
         CharacterColor.make CharacterColor.COLOR_SPACE_DEFAULT CharacterColor.DEFAULT_BACK_COLOR;
       Character.rendition := 0;
       Character.isRealCharacter := true |}
|}.

Definition set_topMargin (v : Z) (s : Screen) : Screen :=
  ltac:(assign _topMargin v s).
Definition set_bottomMargin (v : Z) (s : Screen) : Screen :=
  ltac:(assign _bottomMargin v s).

(** The whole object: the members above ([base]) together with the members
    that only the mode, tabulator and block-selection code reads or
    writes. *)
Record State := {
  base : Screen;
  _currentModes : list Z;
  _savedModes : list Z;
  _tabStops : list bool;
  _blockSelectionMode : bool
}.

(** A member function that touches the members of [base] only. *)
Definition on_base (f : Screen -> Screen) (st : State) : State :=
  {| base := f (base st); _currentModes := _currentModes st;
     _savedModes := _savedModes st; _tabStops := _tabStops st;
     _blockSelectionMode := _blockSelectionMode st |}.

Definition set_currentModes (v : list Z) (st : State) : State :=
  {| base := base st; _currentModes := v; _savedModes := _savedModes st;
     _tabStops := _tabStops st; _blockSelectionMode := _blockSelectionMode st |}.

Definition set_savedModes (v : list Z) (st : State) : State :=
  {| base := base st; _currentModes := _currentModes st; _savedModes := v;
     _tabStops := _tabStops st; _blockSelectionMode := _blockSelectionMode st |}.

Definition set_tabStops (v : list bool) (st : State) : State :=
  {| base := base st; _currentModes := _currentModes st;
     _savedModes := _savedModes st; _tabStops := v;
     _blockSelectionMode := _blockSelectionMode st |}.

Definition set_blockSelectionMode (v : bool) (st : State) : State :=
  {| base := base st; _currentModes := _currentModes st;
     _savedModes := _savedModes st; _tabStops := _tabStops st;
     _blockSelectionMode := v |}.

(** [qBound(min, val, max)] as Qt computes it: [qMax(min, qMin(max, val))]. *)
Definition qBound (min val max : Z) : Z := Z.max min (Z.min max val).

(** [QVector::remove(i, n)] *)
Definition QVector_remove {A} (i n : Z) (l : list A) : list A :=
  take (Z.to_nat i) l ++ drop (Z.to_nat (i + n)) l.

(** [QVector::insert(i, n, v)] *)
Definition QVector_insert {A} (i n : Z) (v : A) (l : list A) : list A :=
  take (Z.to_nat i) l ++ replicate (Z.to_nat n) v ++ drop (Z.to_nat i) l.

Section Commands.
Context {D : Declarations} {SD : ScreenDeclarations}.

Definition cursorUp (n : Z) (s : Screen) : Screen :=
  let n := if n <? 1 then 1 else n in
  let stop := if _cuY s <? _topMargin s then 0 else _topMargin s in
  set_cuY (Z.max stop (_cuY s - n)) s.

Definition cursorDown (n : Z) (s : Screen) : Screen :=
  let n := if n <? 1 then 1 else n in
  let n := if MAX_SCREEN_ARGUMENT <? n then MAX_SCREEN_ARGUMENT else n in
  let stop := if _bottomMargin s <? _cuY s then _lines s - 1 else _bottomMargin s in
  set_cuY (Z.min stop (_cuY s + n)) s.

Definition cursorLeft (n : Z) (s : Screen) : Screen :=
  let n := if n <? 1 then 1 else n in
  set_cuX (Z.max 0 (_cuX s - n)) s.

Definition cursorNextLine (n : Z) (s : Screen) : Screen :=
  let n := if n <? 1 then 1 else n in
  let n := if MAX_SCREEN_ARGUMENT <? n then MAX_SCREEN_ARGUMENT else n in
  let s := set_cuX 0 s in
  set_cuY (Z.min (_cuY s + n) (_lines s - 1)) s.

Definition cursorPreviousLine (n : Z) (s : Screen) : Screen :=
  let n := if n <? 1 then 1 else n in
  let s := set_cuX 0 s in
  set_cuY (Z.max 0 (_cuY s - n)) s.

Definition cursorRight (n : Z) (s : Screen) : Screen :=
  let n := if n <? 1 then 1 else n in
  let n := if MAX_SCREEN_ARGUMENT <? n then MAX_SCREEN_ARGUMENT else n in
  set_cuX (Z.min (_columns s - 1) (_cuX s + n)) s.

(** [m] is an index of the mode array [modes]. *)
Definition inModes (modes : list Z) (m : Z) : bool :=
  (0 <=? m) && (m <? Z.of_nat (length modes)).

(** [_currentModes[m] != 0].  The source indexes the array unchecked: an
    index outside it is undefined there, and reads as [0] here.  Properties
    of commands that read a mode bound the index with [modesInRange]. *)
Definition getMode (m : Z) (st : State) : bool :=
  negb (at_ 0 (_currentModes st) m =? 0).

Definition setMargins (top bot : Z) (st : State) : State :=
  let top := if top <? 1 then 1 else top in
  let bot := if bot <? 1 then _lines (base st) else bot in
  let top := top - 1 in
  let bot := bot - 1 in
  if negb ((0 <=? top) && (top <? bot) && (bot <? _lines (base st))) then st
  else
    let st := on_base (set_topMargin top) st in
    let st := on_base (set_bottomMargin bot) st in
    let st := on_base (set_cuX 0) st in
    on_base (set_cuY (if getMode MODE_Origin st then top else 0)) st.

Definition toStartOfLine (s : Screen) : Screen := set_cuX 0 s.

Definition nextLine (s : Screen) : Screen :=
  let s := toStartOfLine s in
  index s.

Definition newLine (st : State) : State :=
  let st := if getMode MODE_NewLine st then on_base toStartOfLine st else st in
  on_base index st.

Definition eraseChars (n : Z) (s : Screen) : Screen :=
  let n := if n <? 1 then 1 else n in
  let n := if MAX_SCREEN_ARGUMENT <? n then MAX_SCREEN_ARGUMENT else n in
  let p := qBound 0 (_cuX s + n - 1) (_columns s - 1) in
  clearImage (loc s (_cuX s) (_cuY s)) (loc s p (_cuY s)) 32 s.

Definition deleteChars (n : Z) (s : Screen) : Screen :=
  let n := if n <? 1 then 1 else n in
  let count := Z.of_nat (length (at_ [] (_screenLines s) (_cuY s))) in
  if count <=? _cuX s then s
  else
    let n := if count <? _cuX s + n then count - _cuX s else n in
    let s := set_screenLines
               (set_at (_screenLines s) (_cuY s)
                       (QVector_remove (_cuX s) n (at_ [] (_screenLines s) (_cuY s)))) s in
    let spaceWithCurrentAttrs :=
      {| Character.character := 32;
         Character.foregroundColor := _effectiveForeground s;
         Character.backgroundColor := _effectiveBackground s;
         Character.rendition := _effectiveRendition s;
         Character.isRealCharacter := false |} in
    for_up (Z.to_nat n) 0
      (fun _ s =>
         set_screenLines
           (set_at (_screenLines s) (_cuY s)
                   (at_ [] (_screenLines s) (_cuY s) ++ [spaceWithCurrentAttrs])) s) s.

Definition insertChars (n : Z) (s : Screen) : Screen :=
  let n := if n <? 1 then 1 else n in
  let s :=
    if Z.of_nat (length (at_ [] (_screenLines s) (_cuY s))) <? _cuX s then
      set_screenLines
        (set_at (_screenLines s) (_cuY s)
                (resize_line (_cuX s) (at_ [] (_screenLines s) (_cuY s)))) s
    else s in
  let s := set_screenLines
             (set_at (_screenLines s) (_cuY s)
                     (QVector_insert (_cuX s) n Character_space
                                     (at_ [] (_screenLines s) (_cuY s)))) s in
  if _columns s <? Z.of_nat (length (at_ [] (_screenLines s) (_cuY s))) then
    set_screenLines
      (set_at (_screenLines s) (_cuY s)
              (resize_line (_columns s) (at_ [] (_screenLines s) (_cuY s)))) s
  else s.

(** [setMode], [resetMode], [saveMode] and [restoreMode] store through
    [_currentModes[m]] and [_savedModes[m]] unchecked: an index outside the
    arrays is undefined in the source, while [set_at] leaves the list as it
    is and [at_] reads [0].  The model follows the source for the indices
    inside the arrays only, see [modesInRange]. *)
Definition setMode (m : Z) (st : State) : State :=
  let st := set_currentModes (set_at (_currentModes st) m 1) st in
  if m =? MODE_Origin then
    let st := on_base (set_cuX 0) st in
    on_base (set_cuY (_topMargin (base st))) st
  else st.

Definition resetMode (m : Z) (st : State) : State :=
  let st := set_currentModes (set_at (_currentModes st) m 0) st in
  if m =? MODE_Origin then
    let st := on_base (set_cuX 0) st in
    on_base (set_cuY 0) st
  else st.

Definition saveMode (m : Z) (st : State) : State :=
  set_savedModes (set_at (_savedModes st) m (at_ 0 (_currentModes st) m)) st.

Definition restoreMode (m : Z) (st : State) : State :=
  set_currentModes (set_at (_currentModes st) m (at_ 0 (_savedModes st) m)) st.

Definition backspace (s : Screen) : Screen :=
  let s := set_cuX (Z.max 0 (_cuX s - 1)) s in
  if Z.of_nat (length (at_ [] (_screenLines s) (_cuY s))) <? _cuX s + 1 then
    set_screenLines
      (set_at (_screenLines s) (_cuY s)
              (resize_line (_cuX s + 1) (at_ [] (_screenLines s) (_cuY s)))) s
  else s.

(** The inner loop of [tab]:
    [while (_cuX < _columns - 1 && !_tabStops[_cuX]) cursorRight(1)];
    [None] when [fuel] iterations do not reach its end. *)
Fixpoint tab_skip (fuel : nat) (st : State) : option State :=
  match fuel with
  | O => None
  | S fuel' =>
      if (_cuX (base st) <? _columns (base st) - 1)
         && negb (at_ false (_tabStops st) (_cuX (base st)))
      then tab_skip fuel' (on_base (cursorRight 1) st)
      else Some st
  end.

(** The outer loop of [tab]: [while (n > 0 && _cuX < _columns - 1)]. *)
Fixpoint tab_loop (fuel : nat) (n : Z) (st : State) : option State :=
  match fuel with
  | O => None
  | S fuel' =>
      if (0 <? n) && (_cuX (base st) <? _columns (base st) - 1) then
        match tab_skip fuel' (on_base (cursorRight 1) st) with
        | Some st => tab_loop fuel' (n - 1) st
        | None => None
        end
      else Some st
  end.

Definition tab (fuel : nat) (n : Z) (st : State) : option State :=
  let n := if n <? 1 then 1 else n in
  tab_loop fuel n st.

(** The inner loop of [backtab]:
    [while (_cuX > 0 && !_tabStops[_cuX]) cursorLeft(1)]. *)
Fixpoint backtab_skip (fuel : nat) (st : State) : option State :=
  match fuel with
  | O => None
  | S fuel' =>
      if (0 <? _cuX (base st)) && negb (at_ false (_tabStops st) (_cuX (base st)))
      then backtab_skip fuel' (on_base (cursorLeft 1) st)
      else Some st
  end.

(** The outer loop of [backtab]: [while (n > 0 && _cuX > 0)]. *)
Fixpoint backtab_loop (fuel : nat) (n : Z) (st : State) : option State :=
  match fuel with
  | O => None
  | S fuel' =>
      if (0 <? n) && (0 <? _cuX (base st)) then
        match backtab_skip fuel' (on_base (cursorLeft 1) st) with
        | Some st => backtab_loop fuel' (n - 1) st
        | None => None
        end
      else Some st
  end.

Definition backtab (fuel : nat) (n : Z) (st : State) : option State :=
  let n := if n <? 1 then 1 else n in
  backtab_loop fuel n st.

(** [_tabStops.resize(_columns)], then one assignment per column; a
    [QBitArray] grows with cleared bits. *)
Definition initTabStops (st : State) : State :=
  let st := set_tabStops
              (resize (Z.to_nat (_columns (base st))) false (_tabStops st)) st in
  for_up (Z.to_nat (_columns (base st))) 0
    (fun i st =>
       set_tabStops (set_at (_tabStops st) i ((Z.rem i 8 =? 0) && negb (i =? 0))) st) st.

Definition setCursorX (x : Z) (s : Screen) : Screen :=
  let x := if x <? 1 then 1 else x in
  set_cuX (qBound 0 (x - 1) (_columns s - 1)) s.

Definition setCursorY (y : Z) (st : State) : State :=
  let y := if y <? 1 then 1 else y in
  let y := if MAX_SCREEN_ARGUMENT <? y then MAX_SCREEN_ARGUMENT else y in
  let y := y + (if getMode MODE_Origin st then _topMargin (base st) else 0) in
  on_base (fun s => set_cuY (qBound 0 (y - 1) (_lines s - 1)) s) st.

Definition setCursorYX (y x : Z) (st : State) : State :=
  let st := setCursorY y st in
  on_base (setCursorX x) st.

Definition clearToEndOfScreen (s : Screen) : Screen :=
  clearImage (loc s (_cuX s) (_cuY s)) (loc s (_columns s - 1) (_lines s - 1)) 32 s.

Definition clearToBeginOfScreen (s : Screen) : Screen :=
  clearImage (loc s 0 0) (loc s (_cuX s) (_cuY s)) 32 s.

Definition clearEntireScreen (s : Screen) : Screen :=
  clearImage (loc s 0 0) (loc s (_columns s - 1) (_lines s - 1)) 32 s.

(** [Screen::helpAlign]: the screen filled with the letter E. *)
Definition helpAlign (s : Screen) : Screen :=
  clearImage (loc s 0 0) (loc s (_columns s - 1) (_lines s - 1)) 69 s.

Definition clearToEndOfLine (s : Screen) : Screen :=
  clearImage (loc s (_cuX s) (_cuY s)) (loc s (_columns s - 1) (_cuY s)) 32 s.

Definition clearToBeginOfLine (s : Screen) : Screen :=
  clearImage (loc s 0 (_cuY s)) (loc s (_cuX s) (_cuY s)) 32 s.

Definition clearEntireLine (s : Screen) : Screen :=
  clearImage (loc s 0 (_cuY s)) (loc s (_columns s - 1) (_cuY s)) 32 s.

Definition setSelectionStart (x y : Z) (blockSelectionMode : bool) (st : State) : State :=
  let st := on_base (fun s => set_selBegin (loc s x y) s) st in
  let st := if x =? _columns (base st)
            then on_base (fun s => set_selBegin (_selBegin s - 1) s) st else st in
  let st := on_base (fun s => set_selBottomRight (_selBegin s) s) st in
  let st := on_base (fun s => set_selTopLeft (_selBegin s) s) st in
  set_blockSelectionMode blockSelectionMode st.

Definition setSelectionEnd (x y : Z) (st : State) : State :=
  if _selBegin (base st) =? -1 then st
  else
    let endPos := loc (base st) x y in
    let st :=
      if endPos <? _selBegin (base st) then
        let st := on_base (set_selTopLeft endPos) st in
        on_base (fun s => set_selBottomRight (_selBegin s) s) st
      else
        let endPos := if x =? _columns (base st) then endPos - 1 else endPos in
        let st := on_base (fun s => set_selTopLeft (_selBegin s) s) st in
        on_base (set_selBottomRight endPos) st in
    if _blockSelectionMode st then
      let s := base st in
      let topRow := Z.quot (_selTopLeft s) (_columns s) in
      let topColumn := Z.rem (_selTopLeft s) (_columns s) in
      let bottomRow := Z.quot (_selBottomRight s) (_columns s) in
      let bottomColumn := Z.rem (_selBottomRight s) (_columns s) in
      let st := on_base (fun s => set_selTopLeft
                                    (loc s (Z.min topColumn bottomColumn) topRow) s) st in
      on_base (fun s => set_selBottomRight
                          (loc s (Z.max topColumn bottomColumn) bottomRow) s) st
    else st.

Definition isSelected (x y : Z) (st : State) : bool :=
  let s := base st in
  let columnInSelection :=
    if _blockSelectionMode st then
      (Z.rem (_selTopLeft s) (_columns s) <=? x)
      && (x <=? Z.rem (_selBottomRight s) (_columns s))
    else true in
  let pos := loc s x y in
  (_selTopLeft s <=? pos) && (pos <=? _selBottomRight s) && columnInSelection.

(** One cursor, margin or mode command of the terminal. *)
Inductive Command :=
| CursorUp (n : Z)
| CursorDown (n : Z)
| CursorLeft (n : Z)
| CursorRight (n : Z)
| CursorNextLine (n : Z)
| CursorPreviousLine (n : Z)
| SetCursorX (x : Z)
| SetCursorY (y : Z)
| SetCursorYX (y x : Z)
| ToStartOfLine
| Backspace
| SetMargins (top bot : Z)
| SetMode (m : Z)
| ResetMode (m : Z)
| SaveMode (m : Z)
| RestoreMode (m : Z)
| SaveCursor
| RestoreCursor
| Index
| ReverseIndex
| NextLine
| NewLine.

Definition execute (st : State) (c : Command) : State :=
  match c with
  | CursorUp n => on_base (cursorUp n) st
  | CursorDown n => on_base (cursorDown n) st
  | CursorLeft n => on_base (cursorLeft n) st
  | CursorRight n => on_base (cursorRight n) st
  | CursorNextLine n => on_base (cursorNextLine n) st
  | CursorPreviousLine n => on_base (cursorPreviousLine n) st
  | SetCursorX x => on_base (setCursorX x) st
  | SetCursorY y => setCursorY y st
  | SetCursorYX y x => setCursorYX y x st
  | ToStartOfLine => on_base toStartOfLine st
  | Backspace => on_base backspace st
  | SetMargins top bot => setMargins top bot st
  | SetMode m => setMode m st
  | ResetMode m => resetMode m st
  | SaveMode m => saveMode m st
  | RestoreMode m => restoreMode m st
  | SaveCursor => on_base saveCursor st
  | RestoreCursor => on_base restoreCursor st
  | Index => on_base index st
  | ReverseIndex => on_base reverseIndex st
  | NextLine => on_base nextLine st
  | NewLine => newLine st
  end.

Definition executeAll (cs : list Command) (st : State) : State :=
  fold_left execute cs st.

(** Every mode index the command reads or writes lies inside the mode
    arrays of [st]: the indices for which [_currentModes[m]] and
    [_savedModes[m]] are defined in the source. *)
Definition modesInRange (st : State) (c : Command) : bool :=
  match c with
  | SetMode m | ResetMode m => inModes (_currentModes st) m
  | SaveMode m | RestoreMode m =>
      inModes (_currentModes st) m && inModes (_savedModes st) m
  | SetCursorY _ | SetCursorYX _ _ => inModes (_currentModes st) MODE_Origin
  | NewLine => inModes (_currentModes st) MODE_NewLine
  | _ => true
  end.

(** The commands that move the cursor relative to where it is. *)
Definition relative (c : Command) : bool :=
  match c with
  | CursorUp _ | CursorDown _ | CursorLeft _ | CursorRight _
  | ToStartOfLine | Backspace | Index | ReverseIndex | NextLine | NewLine => true
  | _ => false
  end.

(** The cursor is on the screen, the margins are in order and on the
    screen, and so is the saved cursor. *)
Definition cursorOnScreen (s : Screen) : Prop :=
  0 <= _cuX s < _columns s /\
  0 <= _cuY s < _lines s /\
  0 <= _topMargin s /\ _topMargin s <= _bottomMargin s /\ _bottomMargin s < _lines s /\
  0 <= cursorColumn (_savedState s) /\ 0 <= cursorLine (_savedState s).

(** The cursor is inside the scrolling region. *)
Definition cursorInRegion (s : Screen) : Prop :=
  _topMargin s <= _cuY s <= _bottomMargin s.

(** The members the cursor commands read. *)
Definition same_cursor (s s' : Screen) : Prop :=
  _lines s' = _lines s /\ _columns s' = _columns s /\
  _cuX s' = _cuX s /\ _cuY s' = _cuY s /\
  _topMargin s' = _topMargin s /\ _bottomMargin s' = _bottomMargin s /\
  _savedState s' = _savedState s.

(** A state around the sample screen: no mode set, the initial tab stops
    of three columns. *)
Definition sample_state : State :=
  {| base := sample_screen;
     _currentModes := [0; 0; 0; 0; 0; 0; 0];
     _savedModes := [0; 0; 0; 0; 0; 0; 0];
     _tabStops := [false; false; false];
     _blockSelectionMode := false |}.

End Commands.

End Screen.

(** ** HistoryFile.cpp *)

Module HistoryFile.

Definition INT_MAX : Z := 2147483647.
Definition INT_MIN : Z := -2147483648.

(** The temporary file behind the history: its bytes and the position of
    the next read or write. *)
Record QTemporaryFile := { bytes : list Z; pos : Z }.

(** [_fileMap] is null ([None]) or the mapped bytes of the file. *)
Record t := {
  _length : Z;
  _fileMap : option (list Z);
  _readWriteBalance : Z;
  _tmpFile : QTemporaryFile
}.

(** What the operating system answers to the calls of one [add] or [get]:
    whether [unmap], [seek], [flush] and [map] succeed, and the values
    [write] and [read] return (negative on failure, otherwise the number of
    bytes transferred). *)
Record Outcome := {
  unmap_ok : bool;
  seek_ok : bool;
  write_rc : Z;
  flush_ok : bool;
  map_ok : bool;
  read_rc : Z
}.

(** What the functions print on [stderr] or the warning channel. *)
Inductive Report :=
| perror (where_ : string)
| invalid_args (size loc : Z)
| kWarning (what : string).

(** [n] bytes of [data] stored at offset [at] of a file; a gap is
    zero-filled. *)
Definition stored (file : list Z) (at_pos : Z) (data : list Z) : list Z :=
  resize (Z.to_nat at_pos) 0 file ++ data
  ++ drop (Z.to_nat at_pos + length data) file.

Definition unmap (env : Outcome) (h : t) : t :=
  if unmap_ok env
  then {| _length := _length h; _fileMap := None;
          _readWriteBalance := _readWriteBalance h; _tmpFile := _tmpFile h |}
  else h.

Definition map (env : Outcome) (h : t) : t * list Report :=
  let h :=
    if flush_ok env then
      {| _length := _length h;
         _fileMap := if map_ok env
                     then Some (take (Z.to_nat (_length h)) (bytes (_tmpFile h)))
                     else None;
         _readWriteBalance := _readWriteBalance h; _tmpFile := _tmpFile h |}
    else h in
  match _fileMap h with
  | None =>
      ({| _length := _length h; _fileMap := _fileMap h;
          _readWriteBalance := 0; _tmpFile := _tmpFile h |},
       [kWarning "mmap'ing history failed."])
  | Some _ => (h, [])
  end.

(** [HistoryFile::add(const char* buffer, qint64 count)]; the result pairs
    the new state with what was reported. *)
Definition add (env : Outcome) (buffer : list Z) (count : Z) (h : t) : t * list Report :=
  let h := match _fileMap h with Some _ => unmap env h | None => h end in
  let h :=
    if _readWriteBalance h <? INT_MAX then
      {| _length := _length h; _fileMap := _fileMap h;
         _readWriteBalance := _readWriteBalance h + 1; _tmpFile := _tmpFile h |}
    else h in
  if negb (seek_ok env) then (h, [perror "HistoryFile::add.seek"])
  else
    let rc := write_rc env in
    if rc <? 0 then
      ({| _length := _length h; _fileMap := _fileMap h;
          _readWriteBalance := _readWriteBalance h;
          _tmpFile := {| bytes := bytes (_tmpFile h); pos := _length h |} |},
       [perror "HistoryFile::add.write"])
    else
      ({| _length := _length h + rc; _fileMap := _fileMap h;
          _readWriteBalance := _readWriteBalance h;
          _tmpFile :=
            {| bytes := stored (bytes (_tmpFile h)) (_length h)
                               (take (Z.to_nat rc) buffer);
               pos := _length h + rc |} |},
       []).

Section Functions.
Context {D : Declarations}.

(** [HistoryFile::get(char* buffer, qint64 size, qint64 loc)]; the result
    holds the new state, the caller's buffer and what was reported. *)
Definition get (env : Outcome) (buffer : list Z) (size loc : Z) (h : t)
  : t * list Z * list Report :=
  if (loc <? 0) || (size <? 0) || (_length h <? loc + size) then
    (h, buffer, [invalid_args size loc])
  else
    let h :=
      if INT_MIN <? _readWriteBalance h then
        {| _length := _length h; _fileMap := _fileMap h;
           _readWriteBalance := _readWriteBalance h - 1; _tmpFile := _tmpFile h |}
      else h in
    let '(h, warned) :=
      match _fileMap h with
      | None => if _readWriteBalance h <? MAP_THRESHOLD then map env h else (h, [])
      | Some _ => (h, [])
      end in
    match _fileMap h with
    | Some mapped =>
        (h,
         take (Z.to_nat size) (drop (Z.to_nat loc) mapped) ++ drop (Z.to_nat size) buffer,
         warned)
    | None =>
        if negb (seek_ok env) then (h, buffer, warned ++ [perror "HistoryFile::get.seek"])
        else
          let rc := read_rc env in
          if rc <? 0 then
            ({| _length := _length h; _fileMap := _fileMap h;
                _readWriteBalance := _readWriteBalance h;
                _tmpFile := {| bytes := bytes (_tmpFile h); pos := loc |} |},
             buffer, warned ++ [perror "HistoryFile::get.read"])
          else
            ({| _length := _length h; _fileMap := _fileMap h;
                _readWriteBalance := _readWriteBalance h;
                _tmpFile := {| bytes := bytes (_tmpFile h); pos := loc + rc |} |},
             take (Z.to_nat rc) (drop (Z.to_nat loc) (bytes (_tmpFile h)))
             ++ drop (Z.to_nat rc) buffer,
             warned)
    end.

End Functions.

Definition len (h : t) : Z := _length h.

End HistoryFile.

(** ** ScreenWindow.cpp *)

Module ScreenWindow.

Inductive RelativeScrollMode := ScrollLines | ScrollPages.

(** The members of a window; the screen it points to is passed to each
    function, since the screen changes under the window. *)
Record t := {
  _bufferNeedsUpdate : bool;
  _windowLines : Z;
  _currentLine : Z;
  _currentResultLine : Z;
  _trackOutput : bool;
  _scrollCount : Z
}.

Section Functions.
Context {D : Declarations}.

Definition setWindowLines (lines : Z) (w : t) : t :=
  {| _bufferNeedsUpdate := _bufferNeedsUpdate w; _windowLines := lines;
     _currentLine := _currentLine w; _currentResultLine := _currentResultLine w;
     _trackOutput := _trackOutput w; _scrollCount := _scrollCount w |}.

Definition windowLines (w : t) : Z := _windowLines w.

Definition lineCount (screen : Screen.Screen) : Z :=
  Screen.getHistLines screen + Screen.getLines screen.

Definition currentLine (screen : Screen.Screen) (w : t) : Z :=
  std_clamp (_currentLine w) 0 (Z.max 0 (lineCount screen - windowLines w)).

Definition scrollTo (screen : Screen.Screen) (line : Z) (w : t) : t :=
  let maxCurrentLineNumber := lineCount screen - windowLines w in
  let line := std_clamp line 0 maxCurrentLineNumber in
  let delta := line - _currentLine w in
  {| _bufferNeedsUpdate := true; _windowLines := _windowLines w;
     _currentLine := line; _currentResultLine := _currentResultLine w;
     _trackOutput := _trackOutput w; _scrollCount := _scrollCount w + delta |}.

Definition scrollBy (screen : Screen.Screen) (mode : RelativeScrollMode)
           (amount : Z) (fullPage : bool) (w : t) : t :=
  match mode with
  | ScrollLines => scrollTo screen (currentLine screen w + amount) w
  | ScrollPages =>
      if fullPage then scrollTo screen (currentLine screen w + amount * windowLines w) w
      else scrollTo screen (currentLine screen w + amount * Z.quot (windowLines w) 2) w
  end.

Definition atEndOfOutput (screen : Screen.Screen) (w : t) : bool :=
  currentLine screen w =? lineCount screen - windowLines w.

Definition notifyOutputChanged (screen : Screen.Screen) (w : t) : t :=
  let w :=
    if _trackOutput w then
      {| _bufferNeedsUpdate := _bufferNeedsUpdate w; _windowLines := _windowLines w;
         _currentLine :=
           Z.max 0 (Screen.getHistLines screen - (windowLines w - Screen.getLines screen));
         _currentResultLine := _currentResultLine w; _trackOutput := _trackOutput w;
         _scrollCount := _scrollCount w - Screen.scrolledLines screen |}
    else
      let current := Z.max 0 (_currentLine w - Screen.droppedLines screen) in
      {| _bufferNeedsUpdate := _bufferNeedsUpdate w; _windowLines := _windowLines w;
         _currentLine := Z.min current (Screen.getHistLines screen);
         _currentResultLine := _currentResultLine w; _trackOutput := _trackOutput w;
         _scrollCount := _scrollCount w |} in
  {| _bufferNeedsUpdate := true; _windowLines := _windowLines w;
     _currentLine := _currentLine w; _currentResultLine := _currentResultLine w;
     _trackOutput := _trackOutput w; _scrollCount := _scrollCount w |}.

(** One step of the life of a window and its screen: a call on the window,
    or any change of the screen behind it. *)
Inductive Operation :=
| OpScrollTo (line : Z)
| OpScrollBy (mode : RelativeScrollMode) (amount : Z) (fullPage : bool)
| OpSetWindowLines (lines : Z)
| OpSetTrackOutput (trackOutput : bool)
| OpNotifyOutputChanged
| OpScreen (mutation : Screen.Screen -> Screen.Screen).

Definition step (st : Screen.Screen * t) (op : Operation) : Screen.Screen * t :=
  let '(screen, w) := st in
  match op with
  | OpScrollTo line => (screen, scrollTo screen line w)
  | OpScrollBy mode amount fullPage => (screen, scrollBy screen mode amount fullPage w)
  | OpSetWindowLines lines => (screen, setWindowLines lines w)
  | OpSetTrackOutput b =>
      (screen,
       {| _bufferNeedsUpdate := _bufferNeedsUpdate w; _windowLines := _windowLines w;
          _currentLine := _currentLine w; _currentResultLine := _currentResultLine w;
          _trackOutput := b; _scrollCount := _scrollCount w |})
  | OpNotifyOutputChanged => (screen, notifyOutputChanged screen w)
  | OpScreen mutation => (mutation screen, w)
  end.

Definition run (ops : list Operation) (st : Screen.Screen * t) : Screen.Screen * t :=
  fold_left step ops st.

Definition endWindowLine (screen : Screen.Screen) (w : t) : Z :=
  Z.min (currentLine screen w + windowLines w - 1) (lineCount screen - 1).

Definition scrollCount (w : t) : Z := _scrollCount w.

Definition resetScrollCount (w : t) : t :=
  {| _bufferNeedsUpdate := _bufferNeedsUpdate w; _windowLines := _windowLines w;
     _currentLine := _currentLine w; _currentResultLine := _currentResultLine w;
     _trackOutput := _trackOutput w; _scrollCount := 0 |}.

Definition windowColumns (screen : Screen.Screen) : Z := Screen.getColumns screen.

(** [ScreenWindow::setSelectionByLineRange] changes the screen the window
    points to: it takes the whole state of the screen and returns it with
    the window. *)
Definition setSelectionByLineRange (start end_ : Z) (st : Screen.State) (w : t)
  : Screen.State * t :=
  let st := Screen.on_base Screen.clearSelection st in
  let st := Screen.setSelectionStart 0 start false st in
  let st := Screen.setSelectionEnd (windowColumns (Screen.base st)) end_ st in
  (st,
   {| _bufferNeedsUpdate := true; _windowLines := _windowLines w;
      _currentLine := _currentLine w; _currentResultLine := _currentResultLine w;
      _trackOutput := _trackOutput w; _scrollCount := _scrollCount w |}).

(** The operation that reports new output to the window. *)
Definition notifies (op : Operation) : bool :=
  match op with
  | OpNotifyOutputChanged => true
  | _ => false
  end.

End Functions.

End ScreenWindow.

(** ** HTMLDecoder.cpp *)

Module HTMLDecoder.

(** [_output] holds what has been written to the stream. *)
Record t := {
  _output : QString;
  _colorTable : option (list ColorEntry);
  _innerSpanOpen : bool;
  _lastRendition : Z;
  _lastForeColor : CharacterColor.t;
  _lastBackColor : CharacterColor.t
}.

Section Functions.
Context {D : Declarations}.

Definition openSpan (text : QString) (style : QString) : QString :=
  text ++ lit "<span style=" ++ dquote ++ style ++ dquote ++ lit ">".

Definition closeSpan (text : QString) : QString :=
  text ++ lit "</span>".

(** The first part of the loop body of [decodeLine]: when the appearance of
    the cell differs from the previous one, close the open span and open one
    with the new style. *)
Definition appearance (c : Character.t) (d : t) (text : QString) : t * QString :=
  if negb (Character.rendition c =? _lastRendition d)
     || negb (bool_decide (Character.foregroundColor c = _lastForeColor d))
     || negb (bool_decide (Character.backgroundColor c = _lastBackColor d))
  then
    let text := if _innerSpanOpen d then closeSpan text else text in
    let lastRendition := Character.rendition c in
    let lastForeColor := Character.foregroundColor c in
    let lastBackColor := Character.backgroundColor c in
    let style : QString := [] in
    let style :=
      match _colorTable d with
      | Some table =>
          let useBold := negb (Z.land lastRendition RE_BOLD =? 0) in
          let style := if useBold then style ++ lit "font-weight:bold;" else style in
          let style := if negb (Z.land lastRendition RE_UNDERLINE =? 0)
                       then style ++ lit "font-decoration:underline;" else style in
          let style := style ++ lit "color:"
                       ++ QColor_name (CharacterColor.color lastForeColor table)
                       ++ lit ";" in
          style ++ lit "background-color:"
          ++ QColor_name (CharacterColor.color lastBackColor table) ++ lit ";"
      | None => style
      end in
    ({| _output := _output d; _colorTable := _colorTable d; _innerSpanOpen := true;
        _lastRendition := lastRendition; _lastForeColor := lastForeColor;
        _lastBackColor := lastBackColor |},
     openSpan text style)
  else (d, text).

(** The rest of the loop body: count spaces, then output the character. *)
Definition outputCharacter (c : Character.t) (text : QString) (spaceCount : Z)
  : QString * Z :=
  let spaceCount := if isSpace c then spaceCount + 1 else 0 in
  let text :=
    if spaceCount <? 2 then
      if negb (Z.land (Character.rendition c) RE_EXTENDED_CHAR =? 0) then
        match lookupExtendedChar (Character.character c) with
        | Some chars => text ++ chars
        | None => text
        end
      else
        let ch := QChar (Character.character c) in
        if ch =? 60 then text ++ lit "&lt;"
        else if ch =? 62 then text ++ lit "&gt;"
        else if ch =? 38 then text ++ lit "&amp;"
        else text ++ [ch]
    else text ++ lit "&#160;" in
  (text, spaceCount).

(** The loop of [decodeLine] over [characters[0 .. count-1]]. *)
Definition decodeLoop (cells : list Character.t) (d : t) (text : QString) (spaceCount : Z)
  : t * QString * Z :=
  fold_left
    (fun acc c =>
       let '(d, text, spaceCount) := acc in
       let '(d, text) := appearance c d text in
       let '(text, spaceCount) := outputCharacter c text spaceCount in
       (d, text, spaceCount))
    cells (d, text, spaceCount).

Definition decodeLine (characters : list Character.t) (count : Z) (d : t) : t :=
  let text : QString := [] in
  let spaceCount := 0 in
  let '(d, text, _) :=
    decodeLoop (take (Z.to_nat count) characters) d text spaceCount in
  let '(d, text) :=
    if _innerSpanOpen d then
      ({| _output := _output d; _colorTable := _colorTable d; _innerSpanOpen := false;
          _lastRendition := _lastRendition d; _lastForeColor := _lastForeColor d;
          _lastBackColor := _lastBackColor d |},
       closeSpan text)
    else (d, text) in
  let text := text ++ lit "<br>" in
  {| _output := _output d ++ text; _colorTable := _colorTable d;
     _innerSpanOpen := _innerSpanOpen d; _lastRendition := _lastRendition d;
     _lastForeColor := _lastForeColor d; _lastBackColor := _lastBackColor d |}.

(** The text of one cell in the specification's words: "[<], [>], [&] are
    escaped"; an extended cell shows its grapheme cluster, which
    [decodeLine] appends as the table holds it, without escaping. *)
Definition spec_literal (c : Character.t) : QString :=
  if negb (Z.land (Character.rendition c) RE_EXTENDED_CHAR =? 0) then
    default [] (lookupExtendedChar (Character.character c))
  else
    let ch := QChar (Character.character c) in
    if ch =? 60 then lit "&lt;"
    else if ch =? 62 then lit "&gt;"
    else if ch =? 38 then lit "&amp;"
    else [ch].

(** "Consecutive spaces after the first are emitted as [&#160;]": a space
    cell that follows a space cell. *)
Definition spec_cell (afterSpace : bool) (c : Character.t) : QString :=
  if isSpace c && afterSpace then lit "&#160;" else spec_literal c.

(** The texts of the cells of a row, in the specification's words. *)
Fixpoint cell_texts (afterSpace : bool) (cells : list Character.t) : list QString :=
  match cells with
  | [] => []
  | c :: rest => spec_cell afterSpace c :: cell_texts (isSpace c) rest
  end.

(** Whether the cell that follows [cells] follows a space: the last of
    [cells] is a space, or [cells] is empty and [afterSpace] holds. *)
Definition ends_in_space (afterSpace : bool) (cells : list Character.t) : bool :=
  fold_left (fun _ c => isSpace c) cells afterSpace.

(** The span markup [appearance] puts before each cell of a row (empty
    where the appearance does not change). *)
Fixpoint markups (d : t) (cells : list Character.t) : list QString :=
  match cells with
  | [] => []
  | c :: rest => snd (appearance c d []) :: markups (fst (appearance c d [])) rest
  end.

(** The decoder after the cells of a row. *)
Definition after_cells (d : t) (cells : list Character.t) : t :=
  fold_left (fun d c => fst (appearance c d [])) cells d.

(** The text of a row: before each cell its markup, then the text of the
    cell; after the last cell the closing of an open span; "at end-of-line,
    emits [<br>]". *)
Definition spec_line (d : t) (cells : list Character.t) : QString :=
  concat (zip_with app (markups d cells) (cell_texts false cells))
  ++ (if _innerSpanOpen (after_cells d cells) then lit "</span>" else [])
  ++ lit "<br>".

(** The test of [decodeLine] for a change of appearance fails on the
    cell: it looks like the cell the decoder saw last. *)
Definition sameAppearance (c : Character.t) (d : t) : bool :=
  (Character.rendition c =? _lastRendition d)
  && bool_decide (Character.foregroundColor c = _lastForeColor d)
  && bool_decide (Character.backgroundColor c = _lastBackColor d).

(** Two cells with the same rendition and colours. *)
Definition alike (c c' : Character.t) : bool :=
  (Character.rendition c' =? Character.rendition c)
  && bool_decide (Character.foregroundColor c' = Character.foregroundColor c)
  && bool_decide (Character.backgroundColor c' = Character.backgroundColor c).

End Functions.

End HTMLDecoder.

(** ** filterHotSpots/Filter.cpp *)

Module Filter.

(** A hotspot with its line and column range (the accessors of [HotSpot])
    and, for the hotspots of a regular expression, the captured texts. *)
Record HotSpot := {
  startLine : Z;
  startColumn : Z;
  endLine : Z;
  endColumn : Z;
  capturedTexts : list QString
}.

(** [_hotspots] is a [QMultiHash<int, HotSpot*>]: the list of its
    (key, value) pairs, the pair inserted last first, which is the order in
    which [values(key)] returns the values of a key. *)
Record t := {
  _hotspots : list (Z * HotSpot);
  _hotspotList : list HotSpot;
  _linePositions : list Z;
  _buffer : QString
}.

(** [Filter::Filter()] *)
Definition create : t :=
  {| _hotspots := []; _hotspotList := []; _linePositions := []; _buffer := [] |}.

Definition reset (f : t) : t :=
  {| _hotspots := []; _hotspotList := [];
     _linePositions := _linePositions f; _buffer := _buffer f |}.

Definition setBuffer (buffer : QString) (linePositions : list Z) (f : t) : t :=
  {| _hotspots := _hotspots f; _hotspotList := _hotspotList f;
     _linePositions := linePositions; _buffer := buffer |}.

(** [QString::mid(position, n)] as Qt computes it. *)
Definition mid (s : QString) (position n : Z) : QString :=
  let size := Z.of_nat (length s) in
  if size <? position then []
  else if position <? 0 then
    if (n <? 0) || (size <=? n + position) then s
    else if n + position <=? 0 then []
    else take (Z.to_nat (n + position)) s
  else
    let n := if (n <? 0) || (size - position <? n) then size - position else n in
    take (Z.to_nat n) (drop (Z.to_nat position) s).

Section Functions.
Context {D : Declarations}.

(** The loop of [getLineColumn], from index [i] with [todo] lines to go. *)
Fixpoint getLineColumn_from (todo : nat) (i : Z) (f : t) (position : Z) : Z * Z :=
  match todo with
  | O => (-1, -1)
  | S todo' =>
      let count := Z.of_nat (length (_linePositions f)) in
      let nextLine :=
        if i =? count - 1 then Z.of_nat (length (_buffer f)) + 1
        else at_ 0 (_linePositions f) (i + 1) in
      if (at_ 0 (_linePositions f) i <=? position) && (position <? nextLine) then
        (i, stringWidth (mid (_buffer f) (at_ 0 (_linePositions f) i)
                             (position - at_ 0 (_linePositions f) i)))
      else getLineColumn_from todo' (i + 1) f position
  end.

Definition getLineColumn (f : t) (position : Z) : Z * Z :=
  getLineColumn_from (length (_linePositions f)) 0 f position.

End Functions.

Definition addHotSpot (spot : HotSpot) (f : t) : t :=
  let f := {| _hotspots := _hotspots f; _hotspotList := _hotspotList f ++ [spot];
              _linePositions := _linePositions f; _buffer := _buffer f |} in
  for_up (Z.to_nat (endLine spot - startLine spot + 1)) (startLine spot)
    (fun line f =>
       {| _hotspots := (line, spot) :: _hotspots f; _hotspotList := _hotspotList f;
          _linePositions := _linePositions f; _buffer := _buffer f |}) f.

Definition hotSpots (f : t) : list HotSpot := _hotspotList f.

(** [_hotspots.values(line)] *)
Definition values (line : Z) (hotspots : list (Z * HotSpot)) : list HotSpot :=
  List.map snd (List.filter (fun kv => fst kv =? line) hotspots).

(** The loop of [hotSpotAt] over the hotspots of the line. *)
Fixpoint hotSpotAt_loop (hotspots : list HotSpot) (line column : Z) : option HotSpot :=
  match hotspots with
  | [] => None
  | spot :: rest =>
      if (startLine spot =? line) && (column <? startColumn spot)
      then hotSpotAt_loop rest line column
      else if (endLine spot =? line) && (endColumn spot <? column)
      then hotSpotAt_loop rest line column
      else Some spot
  end.

Definition hotSpotAt (line column : Z) (f : t) : option HotSpot :=
  hotSpotAt_loop (values line (_hotspots f)) line column.

(** The states a filter can be in: built by the constructor and changed by
    [reset], [setBuffer] and [addHotSpot] only ([process] adds its hotspots
    through [addHotSpot]). *)
Inductive reachable : t -> Prop :=
| reachable_create : reachable create
| reachable_reset f : reachable f -> reachable (reset f)
| reachable_setBuffer buffer linePositions f :
    reachable f -> reachable (setBuffer buffer linePositions f)
| reachable_addHotSpot spot f : reachable f -> reachable (addHotSpot spot f).

(** Every entry of [_hotspots] files a hotspot under one of its lines. *)
Definition indexed (f : t) : Prop :=
  forall line spot, In (line, spot) (_hotspots f) ->
                    startLine spot <= line <= endLine spot /\ In spot (_hotspotList f).

(** The local [nextLine] of [getLineColumn] for line [i]: the start of the
    line after it, or one past the end of the buffer for the last line. *)
Definition nextLine (f : t) (i : Z) : Z :=
  if i =? Z.of_nat (length (_linePositions f)) - 1
  then Z.of_nat (length (_buffer f)) + 1
  else at_ 0 (_linePositions f) (i + 1).

(** The test of [getLineColumn] on line [i]:
    [_linePositions->value(i) <= position && position < nextLine]. *)
Definition lineHolds (f : t) (position i : Z) : bool :=
  (at_ 0 (_linePositions f) i <=? position) && (position <? nextLine f i).

(** The line positions are in increasing order. *)
Definition increasing (f : t) : Prop :=
  forall i j, 0 <= i -> i <= j -> j < Z.of_nat (length (_linePositions f)) ->
              at_ 0 (_linePositions f) i <= at_ 0 (_linePositions f) j.

End Filter.

(** ** filterHotSpots/RegExpFilter.cpp *)

Module RegExpFilter.

(** The result of [QRegExp::indexIn]: the position of the match (-1 when
    there is none), and what [matchedLength()] and [capturedTexts()] return
    after it. *)
Record Match := {
  position : Z;
  matchedLength : Z;
  capturedTexts : list QString
}.

(** A compiled pattern: its text and its search function
    [indexIn(text, offset)]. *)
Record QRegExp := {
  pattern : QString;
  indexIn : QString -> Z -> Match
}.

(** What Qt promises of [indexIn]: a match lies at or after the offset and
    inside the text. *)
Definition wellBehaved (re : QRegExp) : Prop :=
  forall text offset,
    0 <= offset ->
    let m := indexIn re text offset in
    position m = -1 \/
    (offset <= position m /\ 0 <= matchedLength m /\
     position m + matchedLength m <= Z.of_nat (length text)).

Definition isEmpty (s : QString) : bool :=
  match s with [] => true | _ => false end.

Section Functions.
Context {D : Declarations}.

Definition newHotSpot (startLine startColumn endLine endColumn : Z)
           (capturedTexts : list QString) : Filter.HotSpot :=
  {| Filter.startLine := startLine; Filter.startColumn := startColumn;
     Filter.endLine := endLine; Filter.endColumn := endColumn;
     Filter.capturedTexts := capturedTexts |}.

(** The hotspot [process] builds for a match. *)
Definition hotSpotOf (f : Filter.t) (m : Match) : Filter.HotSpot :=
  let '(startLine, startColumn) := Filter.getLineColumn f (position m) in
  let '(endLine, endColumn) := Filter.getLineColumn f (position m + matchedLength m) in
  newHotSpot startLine startColumn endLine endColumn (capturedTexts m).

(** The [while (pos >= 0)] loop of [process]; [None] when [fuel] iterations
    do not reach its end. *)
Fixpoint process_loop (fuel : nat) (re : QRegExp) (pos : Z) (f : Filter.t)
  : option Filter.t :=
  match fuel with
  | O => None
  | S fuel' =>
      if 0 <=? pos then
        let m := indexIn re (Filter._buffer f) pos in
        let pos := position m in
        if 0 <=? pos then
          let spot := hotSpotOf f m in
          let f := Filter.addHotSpot spot f in
          let pos := pos + matchedLength m in
          let pos := if matchedLength m =? 0 then -1 else pos in
          process_loop fuel' re pos f
        else process_loop fuel' re pos f
      else Some f
  end.

Definition process (fuel : nat) (re : QRegExp) (f : Filter.t) : option Filter.t :=
  let pos := 0 in
  if isEmpty (pattern re) || isEmpty (pattern re) then Some f
  else process_loop fuel re pos f.

(** The scan of [process] from offset [pos]: the matches of positive length
    it visits, each search starting where the previous match ended, and the
    match of length zero that stops it, if one does.  The scan ends when
    nothing matches or with the first match of length zero. *)
Inductive scan (re : QRegExp) (text : QString) : Z -> list Match -> option Match -> Prop :=
| scan_end pos :
    position (indexIn re text pos) < 0 -> scan re text pos [] None
| scan_empty pos :
    0 <= position (indexIn re text pos) ->
    matchedLength (indexIn re text pos) = 0 ->
    scan re text pos [] (Some (indexIn re text pos))
| scan_match pos ms last :
    0 <= position (indexIn re text pos) ->
    matchedLength (indexIn re text pos) <> 0 ->
    scan re text
         (position (indexIn re text pos) + matchedLength (indexIn re text pos)) ms last ->
    scan re text pos (indexIn re text pos :: ms) last.

(** The matches of the text in the specification's words: all successive
    matches, "empty-length matches are skipped". *)
Fixpoint spec_matches (fuel : nat) (re : QRegExp) (text : QString) (pos : Z)
  : list Match :=
  match fuel with
  | O => []
  | S fuel' =>
      let m := indexIn re text pos in
      if position m <? 0 then []
      else if matchedLength m =? 0 then spec_matches fuel' re text (position m + 1)
      else m :: spec_matches fuel' re text (position m + matchedLength m)
  end.

End Functions.

(** The length of the run of code unit [ch] at the start of [s]. *)
Fixpoint run_length (ch : Z) (s : QString) : nat :=
  match s with
  | x :: rest => if x =? ch then S (run_length ch rest) else O
  | [] => O
  end.

(** The compiled pattern [b*]: at every offset inside the text it matches
    the run of the letter b that starts there, which may be empty. *)
Definition regexp_b_star : QRegExp :=
  {| pattern := lit "b*";
     indexIn := fun text offset =>
       if (offset <? 0) || (Z.of_nat (length text) <? offset) then
         {| position := -1; matchedLength := -1; capturedTexts := [] |}
       else
         let run := run_length 98 (drop (Z.to_nat offset) text) in
         {| position := offset; matchedLength := Z.of_nat run;
            capturedTexts := [take run (drop (Z.to_nat offset) text)] |} |}.

(** A filter over the one-line buffer [abb]. *)
Definition sample_filter : Filter.t :=
  Filter.setBuffer (lit "abb") [0] Filter.create.

(** A hotspot from line 0, column 5 to line 2, column 1. *)
Definition sample_hotspot : Filter.HotSpot :=
  {| Filter.startLine := 0; Filter.startColumn := 5;
     Filter.endLine := 2; Filter.endColumn := 1;
     Filter.capturedTexts := [] |}.

End RegExpFilter.

(* ================================================================== *)
(** * Verified properties *)
(* ================================================================== *)

Section CharacterColorProofs.
Import CharacterColor.

Lemma quint8_small z : 0 <= z < 256 -> quint8 z = z.
Proof. intros H. unfold quint8. apply Z.mod_small. lia. Qed.

Lemma channel_level d :
  0 <= d <= 5 -> channel d = at_ 0 cube_levels d.
Proof.
  intros H.
  assert (d = 0 \/ d = 1 \/ d = 2 \/ d = 3 \/ d = 4 \/ d = 5) as Hd by lia.
  destruct Hd as [->|[->|[->|[->|[->| ->]]]]]; reflexivity.
Qed.

Lemma make_256 u :
  0 <= u <= 255 ->
  make COLOR_SPACE_256 u = {| _colorSpace := COLOR_SPACE_256; _u := u; _v := 0; _w := 0 |}.
Proof.
  intros H. unfold make. simpl.
  replace (Z.land u 255) with u.
  - rewrite quint8_small by lia. reflexivity.
  - change 255 with (Z.ones 8). rewrite Z.land_ones by lia.
    symmetry. apply Z.mod_small. change (2 ^ 8) with 256. lia.
Qed.

Lemma color_256 u base :
  0 <= u <= 255 -> color (make COLOR_SPACE_256 u) base = color256 u base.
Proof. intros H. rewrite make_256 by lia. reflexivity. Qed.

Lemma color256_cube u base :
  16 <= u <= 231 ->
  color256 u base =
    QColorRgb (channel ((u - 16) / 36)) (channel ((u - 16) / 6 mod 6))
              (channel ((u - 16) mod 6)).
Proof.
  intros H. unfold color256.
  destruct (Z.ltb_spec u 8); [lia|].
  rewrite (quint8_small (u - 8)) by lia.
  destruct (Z.ltb_spec (u - 8) 8); [lia|].
  rewrite (quint8_small (u - 8 - 8)) by lia.
  replace (u - 8 - 8) with (u - 16) by lia.
  destruct (Z.ltb_spec (u - 16) 216); [|lia].
  rewrite Z.quot_1_r.
  rewrite !Z.rem_mod_nonneg, !Z.quot_div_nonneg by
    (try lia; rewrite ?Z.quot_div_nonneg by lia; apply Z.div_pos; lia).
  f_equal. f_equal. apply Z.mod_small.
  split; [apply Z.div_pos; lia | apply Z.div_lt_upper_bound; lia].
Qed.

(** C6: an Indexed-256 colour [u] resolves to the palette's normal system
    colour [u] for 0..7, to its intensive system colour [u - 8] for 8..15, to
    the 6x6x6 cube entry given by the base-6 digits of [u - 16] for 16..231
    (each channel one of 0, 95, 135, 175, 215, 255; digit 0 gives 0 and a
    digit d > 0 gives 40 * d + 55), and to the gray 8 + 10 * (u - 232) for
    232..255, a ramp from 8 to 238. *)
Theorem color256_resolution (base : list ColorEntry) (u : Z) :
  0 <= u <= 255 ->
  let c := make COLOR_SPACE_256 u in
  (u <= 7 -> color c base = color (system u false) base) /\
  (8 <= u <= 15 -> color c base = color (system (u - 8) true) base) /\
  (16 <= u <= 231 ->
     exists r g b,
       0 <= r <= 5 /\ 0 <= g <= 5 /\ 0 <= b <= 5 /\
       u - 16 = 36 * r + 6 * g + b /\
       color c base =
         QColorRgb (at_ 0 cube_levels r) (at_ 0 cube_levels g) (at_ 0 cube_levels b) /\
       at_ 0 cube_levels r = (if r =? 0 then 0 else 40 * r + 55) /\
       at_ 0 cube_levels g = (if g =? 0 then 0 else 40 * g + 55) /\
       at_ 0 cube_levels b = (if b =? 0 then 0 else 40 * b + 55)) /\
  (232 <= u ->
     color c base = QColorRgb (8 + 10 * (u - 232)) (8 + 10 * (u - 232)) (8 + 10 * (u - 232)) /\
     8 <= 8 + 10 * (u - 232) <= 238).
Proof.
  intros Hu c. subst c. rewrite color_256 by lia.
  split; [|split; [|split]].
  - intros H. unfold color256, color, system. simpl.
    destruct (Z.ltb_spec u 8); [|lia]. f_equal. lia.
  - intros H. unfold color256, color, system. simpl.
    destruct (Z.ltb_spec u 8); [lia|].
    rewrite (quint8_small (u - 8)) by lia.
    destruct (Z.ltb_spec (u - 8) 8); [|lia]. reflexivity.
  - intros H.
    exists ((u - 16) / 36), ((u - 16) / 6 mod 6), ((u - 16) mod 6).
    assert (0 <= (u - 16) / 36 <= 5) as Hr.
    { split; [apply Z.div_pos; lia|].
      apply Z.lt_succ_r. apply Z.div_lt_upper_bound; lia. }
    assert (0 <= (u - 16) / 6 mod 6 <= 5) as Hg.
    { pose proof (Z.mod_pos_bound ((u - 16) / 6) 6). lia. }
    assert (0 <= (u - 16) mod 6 <= 5) as Hb.
    { pose proof (Z.mod_pos_bound (u - 16) 6). lia. }
    split; [exact Hr|]. split; [exact Hg|]. split; [exact Hb|].
    split.
    { pose proof (Z.div_mod (u - 16) 6 ltac:(lia)) as E1.
      pose proof (Z.div_mod ((u - 16) / 6) 6 ltac:(lia)) as E2.
      rewrite Z.div_div in E2 by lia. change (6 * 6) with 36 in E2. lia. }
    split.
    { rewrite color256_cube by lia. rewrite !channel_level by lia. reflexivity. }
    rewrite <- !channel_level by lia. unfold channel. repeat split.
  - intros H. unfold color256.
    destruct (Z.ltb_spec u 8); [lia|].
    rewrite (quint8_small (u - 8)) by lia.
    destruct (Z.ltb_spec (u - 8) 8); [lia|].
    rewrite (quint8_small (u - 8 - 8)) by lia.
    destruct (Z.ltb_spec (u - 8 - 8) 216); [lia|].
    rewrite (quint8_small (u - 8 - 8 - 216)) by lia.
    split; [f_equal; lia | lia].
Qed.

(** The resolution of C6 at index 110 (cube digits 2, 3, 4). *)
Lemma color256_resolution_witness :
  0 <= 110 <= 255 /\
  exists r g b,
    0 <= r <= 5 /\ 0 <= g <= 5 /\ 0 <= b <= 5 /\
    110 - 16 = 36 * r + 6 * g + b /\
    CharacterColor.color (make COLOR_SPACE_256 110) [] =
      QColorRgb (at_ 0 cube_levels r) (at_ 0 cube_levels g) (at_ 0 cube_levels b) /\
    at_ 0 cube_levels r = (if r =? 0 then 0 else 40 * r + 55) /\
    at_ 0 cube_levels g = (if g =? 0 then 0 else 40 * g + 55) /\
    at_ 0 cube_levels b = (if b =? 0 then 0 else 40 * b + 55).
Proof.
  split; [lia|].
  apply (color256_resolution [] 110); lia.
Defined.

End CharacterColorProofs.

Section ScreenProofs.
Context {D : Declarations}.
Import Screen.

(** Unfolds the member assignments, so that reading a member of an updated
    screen computes. *)
Ltac read_members :=
  cbn [set_screenLines set_scrolledLines set_lastScrolledRegion set_droppedLines
       set_lineProperties set_history set_cuX set_cuY set_currentForeground
       set_currentBackground set_currentRendition set_selBegin set_selTopLeft
       set_selBottomRight set_effectiveForeground set_effectiveBackground
       set_effectiveRendition set_savedState set_lastPos set_urlLinesRemoved
       _lines _columns _screenLines _scrolledLines _lastScrolledRegion _droppedLines
       _lineProperties _history _cuX _cuY _currentForeground _currentBackground
       _currentRendition _topMargin _bottomMargin _selBegin _selTopLeft
       _selBottomRight _effectiveForeground _effectiveBackground _effectiveRendition
       _savedState _lastPos _urlLinesRemoved
       cursorColumn cursorLine rendition foreground background] in *.

(** *** Effective rendition *)

(** [updateEffectiveRendition] writes the effective read_members only. *)
Lemma updateEffectiveRendition_current s :
  _cuX (updateEffectiveRendition s) = _cuX s /\
  _cuY (updateEffectiveRendition s) = _cuY s /\
  _currentRendition (updateEffectiveRendition s) = _currentRendition s /\
  _currentForeground (updateEffectiveRendition s) = _currentForeground s /\
  _currentBackground (updateEffectiveRendition s) = _currentBackground s.
Proof.
  unfold updateEffectiveRendition. cbv zeta. read_members.
  destruct (Z.land (_currentRendition s) RE_REVERSE =? 0); cbn [negb]; read_members;
    (destruct (Z.land (_currentRendition s) RE_BOLD =? 0); cbn [negb]; read_members;
     (destruct (Z.land (_currentRendition s) RE_FAINT =? 0); cbn [negb]; read_members;
      repeat split)).
Qed.

Lemma updateEffectiveRendition_derived s :
  effective_derived (updateEffectiveRendition s).
Proof.
  unfold effective_derived.
  destruct (updateEffectiveRendition_current s) as (_ & _ & -> & -> & ->).
  unfold updateEffectiveRendition, spec_effective. cbv zeta. read_members.
  destruct (Z.land (_currentRendition s) RE_REVERSE =? 0); cbn [negb]; read_members;
    (destruct (Z.land (_currentRendition s) RE_BOLD =? 0); cbn [negb]; read_members;
     (destruct (Z.land (_currentRendition s) RE_FAINT =? 0); cbn [negb]; read_members;
      reflexivity)).
Qed.

Lemma default_colors_valid :
  CharacterColor.isValid
    (CharacterColor.make (quint8 CharacterColor.COLOR_SPACE_DEFAULT)
                         CharacterColor.DEFAULT_FORE_COLOR) = true /\
  CharacterColor.isValid
    (CharacterColor.make (quint8 CharacterColor.COLOR_SPACE_DEFAULT)
                         CharacterColor.DEFAULT_BACK_COLOR) = true.
Proof. split; reflexivity. Qed.

(** The recursion of [setForeColor] ends within two calls, whatever the
    arguments. *)
Lemma setForeColor_fuel_enough n space color s :
  setForeColor_fuel (S (S n)) space color s = Some (setForeColor space color s).
Proof.
  unfold setForeColor. cbn [setForeColor_fuel]. read_members.
  destruct (CharacterColor.isValid (CharacterColor.make (quint8 space) color));
    [reflexivity|].
  rewrite (proj1 default_colors_valid). reflexivity.
Qed.

Lemma setBackColor_fuel_enough n space color s :
  setBackColor_fuel (S (S n)) space color s = Some (setBackColor space color s).
Proof.
  unfold setBackColor. cbn [setBackColor_fuel]. read_members.
  destruct (CharacterColor.isValid (CharacterColor.make (quint8 space) color));
    [reflexivity|].
  rewrite (proj2 default_colors_valid). reflexivity.
Qed.

Lemma setForeColor_derived space color s :
  effective_derived (setForeColor space color s).
Proof.
  unfold setForeColor. cbn [setForeColor_fuel]. read_members.
  destruct (CharacterColor.isValid (CharacterColor.make (quint8 space) color)).
  - apply updateEffectiveRendition_derived.
  - rewrite (proj1 default_colors_valid). apply updateEffectiveRendition_derived.
Qed.

Lemma setBackColor_derived space color s :
  effective_derived (setBackColor space color s).
Proof.
  unfold setBackColor. cbn [setBackColor_fuel]. read_members.
  destruct (CharacterColor.isValid (CharacterColor.make (quint8 space) color)).
  - apply updateEffectiveRendition_derived.
  - rewrite (proj2 default_colors_valid). apply updateEffectiveRendition_derived.
Qed.

(** C5: after each of setRendition, resetRendition, setDefaultRendition,
    setForeColor, setBackColor and restoreCursor, the effective rendition is
    the current one, the effective colours are the current ones (swapped when
    the reverse flag is set), and the effective foreground is made intensive
    under bold without faint and faint under faint without bold. *)
Theorem effective_attributes_derived (s : Screen) :
  (forall r, effective_derived (setRendition r s)) /\
  (forall r, effective_derived (resetRendition r s)) /\
  effective_derived (setDefaultRendition s) /\
  (forall space color, effective_derived (setForeColor space color s)) /\
  (forall space color, effective_derived (setBackColor space color s)) /\
  effective_derived (restoreCursor s).
Proof.
  split; [|split; [|split; [|split; [|split]]]].
  - intros r. apply updateEffectiveRendition_derived.
  - intros r. apply updateEffectiveRendition_derived.
  - apply updateEffectiveRendition_derived.
  - intros. apply setForeColor_derived.
  - intros. apply setBackColor_derived.
  - apply updateEffectiveRendition_derived.
Qed.

(** *** Cursor save and restore *)

(** C4: saveCursor followed at once by restoreCursor leaves the current
    rendition, foreground and background as they were, and puts the cursor at
    (min cuX (columns - 1), min cuY (lines - 1)); when the cursor was inside
    the screen the pair is the identity on these five read_members. *)
Theorem saveCursor_restoreCursor (s : Screen) :
  let s' := restoreCursor (saveCursor s) in
  _currentRendition s' = _currentRendition s /\
  _currentForeground s' = _currentForeground s /\
  _currentBackground s' = _currentBackground s /\
  _cuX s' = Z.min (_cuX s) (_columns s - 1) /\
  _cuY s' = Z.min (_cuY s) (_lines s - 1) /\
  (_cuX s < _columns s /\ _cuY s < _lines s ->
   (_cuX s', _cuY s', _currentRendition s', _currentForeground s', _currentBackground s')
   = (_cuX s, _cuY s, _currentRendition s, _currentForeground s, _currentBackground s)).
Proof.
  intros s'. subst s'. unfold restoreCursor, saveCursor.
  match goal with |- context [updateEffectiveRendition ?x] =>
    destruct (updateEffectiveRendition_current x) as (-> & -> & -> & -> & ->)
  end.
  read_members.
  repeat (split; [reflexivity|]).
  intros [Hx Hy]. rewrite !Z.min_l by lia. reflexivity.
Qed.

(** *** Loops *)

Lemma for_up_invariant {St} (P : St -> Prop) body n i (s : St) :
  (forall j s, P s -> P (body j s)) -> P s -> P (for_up n i body s).
Proof.
  intros Hbody. revert i s.
  induction n as [|n IH]; intros i s Hs; cbn; [exact Hs|].
  apply IH. apply Hbody. exact Hs.
Qed.

Lemma for_up_invariant_range {St} (P : St -> Prop) body n i (s : St) :
  (forall j s, i <= j < i + Z.of_nat n -> P s -> P (body j s)) ->
  P s -> P (for_up n i body s).
Proof.
  revert i s.
  induction n as [|n IH]; intros i s Hbody Hs; cbn; [exact Hs|].
  apply IH.
  - intros j s' Hj. apply Hbody. lia.
  - apply Hbody; [lia|exact Hs].
Qed.

Lemma for_up_project {St R} (proj : St -> R) body rbody n :
  (forall j s, proj (body j s) = rbody j (proj s)) ->
  forall i (s : St), proj (for_up n i body s) = for_up n i rbody (proj s).
Proof.
  intros Hbody.
  induction n as [|n IH]; intros i s; cbn [for_up]; [reflexivity|].
  rewrite IH, Hbody. reflexivity.
Qed.

Lemma for_up_project_inv {St R} (I : St -> Prop) (proj : St -> R) body rbody n :
  (forall j s, I s -> I (body j s)) ->
  (forall j s, I s -> proj (body j s) = rbody j (proj s)) ->
  forall i (s : St), I s -> proj (for_up n i body s) = for_up n i rbody (proj s).
Proof.
  intros Hinv Hbody.
  induction n as [|n IH]; intros i s Hs; cbn [for_up]; [reflexivity|].
  rewrite IH by (apply Hinv; exact Hs). rewrite Hbody by exact Hs. reflexivity.
Qed.

Lemma for_down_project {St R} (proj : St -> R) body rbody n :
  (forall j s, proj (body j s) = rbody j (proj s)) ->
  forall i (s : St), proj (for_down n i body s) = for_down n i rbody (proj s).
Proof.
  intros Hbody.
  induction n as [|n IH]; intros i s; cbn [for_down]; [reflexivity|].
  rewrite IH, Hbody. reflexivity.
Qed.

Lemma for_down_invariant {St} (P : St -> Prop) body n i (s : St) :
  (forall j s, P s -> P (body j s)) -> P s -> P (for_down n i body s).
Proof.
  intros Hbody. revert i s.
  induction n as [|n IH]; intros i s Hs; cbn; [exact Hs|].
  apply IH. apply Hbody. exact Hs.
Qed.

(** *** Retirement into history *)

Lemma frame_refl s : frame s s.
Proof. repeat split. Qed.

Lemma frame_trans s1 s2 s3 : frame s1 s2 -> frame s2 s3 -> frame s1 s3.
Proof.
  unfold frame. intros H1 H2.
  destruct H1 as (?&?&?&?&?&?&?&?&?&?&?), H2 as (?&?&?&?&?&?&?&?&?&?&?).
  repeat split; congruence.
Qed.

Lemma clearSelection_frame s : frame s (clearSelection s).
Proof. unfold frame, clearSelection. read_members. repeat split. Qed.

Lemma moveImage_blocks dest sourceBegin sourceEnd s :
  moveImage dest sourceBegin sourceEnd s
  = moveImage_selection dest sourceBegin sourceEnd
      (moveImage_lastPos dest sourceBegin
         (Z.quot (sourceEnd - sourceBegin) (_columns s))
         (moveImage_rows dest sourceBegin sourceEnd s)).
Proof. reflexivity. Qed.

Lemma moveImage_rows_frame dest sourceBegin sourceEnd s :
  frame s (moveImage_rows dest sourceBegin sourceEnd s).
Proof.
  unfold moveImage_rows. cbv zeta. destruct (dest <? sourceBegin).
  - apply (for_up_invariant (frame s)); [|apply frame_refl].
    intros j s' Hs'. eapply frame_trans; [exact Hs'|].
    unfold frame; read_members; repeat split.
  - apply (for_down_invariant (frame s)); [|apply frame_refl].
    intros j s' Hs'. eapply frame_trans; [exact Hs'|].
    unfold frame; read_members; repeat split.
Qed.

Lemma moveImage_lastPos_frame dest sourceBegin lines s :
  frame s (moveImage_lastPos dest sourceBegin lines s) /\
  same_image s (moveImage_lastPos dest sourceBegin lines s).
Proof.
  unfold moveImage_lastPos. cbv zeta.
  destruct (negb (_lastPos s =? -1)); [|split; [apply frame_refl|split; reflexivity]].
  match goal with |- context [if ?b then _ else _] => destruct b end;
    unfold frame, same_image; read_members; repeat split.
Qed.

Lemma moveImage_selection_frame dest sourceBegin sourceEnd s :
  frame s (moveImage_selection dest sourceBegin sourceEnd s) /\
  same_image s (moveImage_selection dest sourceBegin sourceEnd s).
Proof.
  unfold moveImage_selection. cbv zeta.
  destruct (negb (_selBegin s =? -1)); [|split; [apply frame_refl|split; reflexivity]].
  repeat match goal with
         | |- context [if ?b then _ else _] => destruct b; read_members
         end;
    unfold frame, same_image, clearSelection; read_members; repeat split.
Qed.

Lemma moveImage_frame dest sourceBegin sourceEnd s :
  frame s (moveImage dest sourceBegin sourceEnd s).
Proof.
  rewrite moveImage_blocks.
  eapply frame_trans; [apply moveImage_rows_frame|].
  eapply frame_trans; [apply moveImage_lastPos_frame|].
  apply moveImage_selection_frame.
Qed.

Lemma clearImage_frame loca loce c s :
  frame s (clearImage loca loce c s).
Proof.
  unfold clearImage. cbv zeta.
  apply (for_up_invariant (frame s)).
  - intros j s' Hs'. eapply frame_trans; [exact Hs'|].
    unfold frame; read_members; repeat split.
  - destruct (_ && _); [apply clearSelection_frame | apply frame_refl].
Qed.

Lemma scrollUpFrom_history from n s :
  _history (scrollUpFrom from n s) = _history s /\
  _topMargin (scrollUpFrom from n s) = _topMargin s.
Proof.
  unfold scrollUpFrom.
  destruct (n <=? 0); [split; reflexivity|].
  destruct (_bottomMargin s <? from); [split; reflexivity|].
  cbv zeta.
  match goal with |- context [clearImage ?a ?b ?c ?x] =>
    destruct (clearImage_frame a b c x) as (-> & _ & _ & -> & _)
  end.
  match goal with |- context [moveImage ?a ?b ?c ?x] =>
    destruct (moveImage_frame a b c x) as (-> & _ & _ & -> & _)
  end.
  read_members. split; reflexivity.
Qed.

Lemma addLine_last ty (l : list (list Character.t * bool)) cells wrapped :
  ty <> HistoryScroll.HistoryTypeNone ->
  HistoryScroll.addLine wrapped
    {| HistoryScroll.type := ty; HistoryScroll.content := l ++ [(cells, false)] |}
  = {| HistoryScroll.type := ty; HistoryScroll.content := l ++ [(cells, wrapped)] |}.
Proof.
  intros Hty. unfold HistoryScroll.addLine.
  cbn [HistoryScroll.type HistoryScroll.content].
  assert (forall X (a b : X), match ty with
                              | HistoryScroll.HistoryTypeNone => a
                              | _ => b
                              end = b) as Hm.
  { intros X a b. destruct ty; [contradiction|reflexivity|reflexivity]. }
  rewrite Hm.
  destruct (l ++ [(cells, false)]) eqn:E.
  - destruct l; discriminate.
  - rewrite <- E. rewrite List.last_last, length_app.
    cbn [length fst].
    replace (length l + 1 - 1)%nat with (length l) by lia.
    rewrite take_app_length. reflexivity.
Qed.

(** The two calls by which the sources append a line amount to the
    specification's one-step append. *)
Lemma addLine_addCellsVector cells wrapped h :
  HistoryScroll.addLine wrapped (HistoryScroll.addCellsVector cells h)
  = HistoryScroll.append cells wrapped h.
Proof.
  destruct h as [ty c].
  unfold HistoryScroll.addCellsVector, HistoryScroll.append.
  cbn [HistoryScroll.type HistoryScroll.content].
  destruct ty as [| |n].
  - reflexivity.
  - apply addLine_last. discriminate.
  - rewrite !length_app. cbn [length].
    destruct (n <? Z.of_nat (length c + 1)).
    + destruct c as [|x c]; [reflexivity|].
      change (drop 1 ((x :: c) ++ [(cells, false)])) with (c ++ [(cells, false)]).
      change (drop 1 ((x :: c) ++ [(cells, wrapped)])) with (c ++ [(cells, wrapped)]).
      apply addLine_last. discriminate.
    + apply addLine_last. discriminate.
Qed.

Lemma addHistLine_history s :
  _topMargin (addHistLine s) = _topMargin s /\
  _history (addHistLine s) =
    if hasScroll s
    then HistoryScroll.append (at_ [] (_screenLines s) 0)
           (negb (Z.land (at_ 0 (_lineProperties s) 0) LINE_WRAPPED =? 0)) (_history s)
    else _history s.
Proof.
  unfold addHistLine. cbv zeta.
  destruct (hasScroll s); read_members.
  - rewrite addLine_addCellsVector.
    set (h' := HistoryScroll.append _ _ _).
    destruct (HistoryScroll.getLines h' =? HistoryScroll.getLines (_history s));
      read_members;
      repeat match goal with
             | |- context [if ?b then _ else _] => destruct b; read_members
             end;
      unfold clearSelection; read_members; split; reflexivity.
  - repeat match goal with
           | |- context [if ?b then _ else _] => destruct b; read_members
           end;
      unfold clearSelection; read_members; split; reflexivity.
Qed.

Lemma append_getLines cells wrapped h :
  (HistoryScroll.belowCapacity h ->
   HistoryScroll.getLines (HistoryScroll.append cells wrapped h)
   = HistoryScroll.getLines h + 1 /\
   HistoryScroll.content (HistoryScroll.append cells wrapped h)
   = HistoryScroll.content h ++ [(cells, wrapped)]) /\
  (HistoryScroll.atCapacity h ->
   HistoryScroll.getLines (HistoryScroll.append cells wrapped h)
   = HistoryScroll.getLines h /\
   HistoryScroll.content (HistoryScroll.append cells wrapped h)
   = drop 1 (HistoryScroll.content h) ++ [(cells, wrapped)]).
Proof.
  destruct h as [ty c].
  unfold HistoryScroll.belowCapacity, HistoryScroll.atCapacity, HistoryScroll.append,
    HistoryScroll.getLines.
  cbn [HistoryScroll.type HistoryScroll.content].
  destruct ty as [| |n].
  - split; intros [].
  - split; [|intros []]. intros _.
    cbn [HistoryScroll.type HistoryScroll.content].
    rewrite length_app. cbn [length]. split; [lia|reflexivity].
  - rewrite length_app. cbn [length]. split.
    + intros H. destruct (Z.ltb_spec n (Z.of_nat (length c + 1))); [lia|].
      cbn [HistoryScroll.type HistoryScroll.content].
      rewrite length_app. cbn [length]. split; [lia|reflexivity].
    + intros [H1 H2]. destruct (Z.ltb_spec n (Z.of_nat (length c + 1))); [|lia].
      cbn [HistoryScroll.type HistoryScroll.content].
      destruct c as [|x c]; [cbn in H2; lia|].
      change (drop 1 ((x :: c) ++ [(cells, wrapped)])) with (c ++ [(cells, wrapped)]).
      change (drop 1 (x :: c)) with c.
      rewrite length_app. cbn [length]. split; [lia|reflexivity].
Qed.

(** C1: on a screen whose history accepts lines, index with the cursor at
    the bottom margin is scrollUp(1), and it retires the top line of the
    scroll region into history exactly when topMargin is 0: then the history
    receives that line (one line more below capacity; at capacity the oldest
    line goes and the count stays), and with any other topMargin the history
    is left as it was. *)
Theorem index_retires_iff_topMargin_zero (s : Screen) :
  hasScroll s = true ->
  _cuY s = _bottomMargin s ->
  let row := at_ [] (_screenLines s) (_topMargin s) in
  let wrapped := negb (Z.land (at_ 0 (_lineProperties s) (_topMargin s)) LINE_WRAPPED =? 0) in
  let h := _history s in
  let h' := _history (index s) in
  index s = scrollUp 1 s /\
  (_topMargin s = 0 ->
     h' = HistoryScroll.append row wrapped h /\
     (HistoryScroll.belowCapacity h ->
        HistoryScroll.getLines h' = HistoryScroll.getLines h + 1 /\
        HistoryScroll.content h' = HistoryScroll.content h ++ [(row, wrapped)]) /\
     (HistoryScroll.atCapacity h ->
        HistoryScroll.getLines h' = HistoryScroll.getLines h /\
        HistoryScroll.content h' = drop 1 (HistoryScroll.content h) ++ [(row, wrapped)])) /\
  (_topMargin s <> 0 -> h' = h).
Proof.
  intros Hscroll Hcu row wrapped h h'.
  assert (index s = scrollUp 1 s) as Hidx.
  { unfold index. rewrite Hcu, Z.eqb_refl. reflexivity. }
  split; [exact Hidx|].
  subst h'. rewrite Hidx. unfold scrollUp. cbv zeta. cbn [Z.ltb Z.compare].
  split.
  - intros Htop. subst row wrapped h. rewrite Htop. cbn [Z.eqb].
    rewrite (proj1 (scrollUpFrom_history _ _ _)).
    destruct (addHistLine_history s) as [_ Hh]. rewrite Hh, Hscroll.
    split; [reflexivity|]. apply append_getLines.
  - intros Htop. destruct (Z.eqb_spec (_topMargin s) 0); [contradiction|].
    apply scrollUpFrom_history.
Qed.

(** *** Rows under scrolling *)

Lemma length_set_at {A} (l : list A) i x : length (set_at l i x) = length l.
Proof. unfold set_at. destruct (i <? 0); [reflexivity|apply length_insert]. Qed.

Lemma at_set_at {A} (d : A) (l : list A) i j x :
  0 <= i < Z.of_nat (length l) ->
  at_ d (set_at l i x) j = if j =? i then x else at_ d l j.
Proof.
  intros Hi. unfold at_, set_at.
  destruct (Z.ltb_spec i 0); [lia|].
  destruct (Z.eqb_spec j i) as [->|Hne].
  - destruct (Z.ltb_spec i 0); [lia|].
    rewrite list_lookup_insert_eq by lia. reflexivity.
  - destruct (Z.ltb_spec j 0); [reflexivity|].
    rewrite list_lookup_insert_ne by lia. reflexivity.
Qed.

Lemma copy_rows_up_length destY srcY count : forall from rows,
  length (copy_rows_up destY srcY count from rows) = length rows.
Proof.
  unfold copy_rows_up.
  induction count as [|count IH]; intros from rows; cbn [for_up]; [reflexivity|].
  rewrite IH. apply length_set_at.
Qed.

(** Copying upward never reads a row it has already written: row [y] of
    the result is row [y + (srcY - destY)] of the start inside the copied
    block and row [y] elsewhere. *)
Lemma copy_rows_up_at destY srcY count : forall from (rows : list (list Character.t)) y,
  destY < srcY ->
  0 <= destY + from ->
  srcY + from + Z.of_nat count <= Z.of_nat (length rows) ->
  at_ [] (copy_rows_up destY srcY count from rows) y
  = if (destY + from <=? y) && (y <? destY + from + Z.of_nat count)
    then at_ [] rows (y + (srcY - destY))
    else at_ [] rows y.
Proof.
  unfold copy_rows_up.
  induction count as [|count IH]; intros from rows y Hlt Hdest Hsrc; cbn [for_up].
  - destruct (Z.leb_spec (destY + from) y);
      destruct (Z.ltb_spec y (destY + from + Z.of_nat 0)); try reflexivity; lia.
  - rewrite IH by (rewrite ?length_set_at; lia).
    rewrite !at_set_at by lia.
    repeat match goal with
           | |- context [?a <=? ?b] => destruct (Z.leb_spec a b)
           | |- context [?a <? ?b] => destruct (Z.ltb_spec a b)
           | |- context [?a =? ?b] => destruct (Z.eqb_spec a b)
           end;
      cbn [andb]; try lia; try reflexivity; f_equal; lia.
Qed.

(** Scrolling the image up: [moveImage] with dest before sourceBegin copies
    rows forward, and what follows the copy leaves the rows alone. *)
Lemma moveImage_up_screenLines dest sourceBegin sourceEnd s :
  dest < sourceBegin ->
  _screenLines (moveImage dest sourceBegin sourceEnd s)
  = copy_rows_up (Z.quot dest (_columns s)) (Z.quot sourceBegin (_columns s))
      (Z.to_nat (Z.quot (sourceEnd - sourceBegin) (_columns s) + 1)) 0 (_screenLines s).
Proof.
  intros Hlt. rewrite moveImage_blocks.
  rewrite (proj1 (proj2 (moveImage_selection_frame _ _ _ _))).
  rewrite (proj1 (proj2 (moveImage_lastPos_frame _ _ _ _))).
  unfold moveImage_rows. cbv zeta.
  destruct (Z.ltb_spec dest sourceBegin); [|lia].
  unfold copy_rows_up.
  apply (for_up_project _screenLines). intros j s'. read_members. reflexivity.
Qed.

Lemma move_row_length (rows : list (list Character.t)) d src :
  length (move_row rows d src) = length rows.
Proof.
  unfold move_row. destruct (d =? src); [reflexivity|].
  rewrite !length_set_at. reflexivity.
Qed.

Lemma at_move_row (rows : list (list Character.t)) d src z :
  d <> src ->
  0 <= d < Z.of_nat (length rows) ->
  0 <= src < Z.of_nat (length rows) ->
  at_ [] (move_row rows d src) z
  = if z =? src then [] else if z =? d then at_ [] rows src else at_ [] rows z.
Proof.
  intros Hne Hd Hsrc. unfold move_row.
  destruct (Z.eqb_spec d src); [contradiction|].
  rewrite !at_set_at by (rewrite ?length_set_at; lia). reflexivity.
Qed.

Lemma copy_rows_down_length destY srcY count : forall from rows,
  length (copy_rows_down destY srcY count from rows) = length rows.
Proof.
  unfold copy_rows_down.
  induction count as [|count IH]; intros from rows; cbn [for_down]; [reflexivity|].
  rewrite IH. apply move_row_length.
Qed.

(** Copying downward starts with the last row, so it too never reads a row
    it has already written: a row of the target block holds the row
    [destY - srcY] lines above it, a source row outside the target block is
    left empty, and the other rows stay. *)
Lemma copy_rows_down_at destY srcY count :
  forall from (rows : list (list Character.t)) y,
    srcY < destY ->
    0 <= srcY + (from - Z.of_nat count + 1) ->
    destY + from < Z.of_nat (length rows) ->
    at_ [] (copy_rows_down destY srcY count from rows) y
    = if (destY + (from - Z.of_nat count + 1) <=? y) && (y <=? destY + from)
      then at_ [] rows (y - (destY - srcY))
      else if (srcY + (from - Z.of_nat count + 1) <=? y) && (y <=? srcY + from)
           then []
           else at_ [] rows y.
Proof.
  unfold copy_rows_down.
  induction count as [|count IH]; intros from rows y Hlt Hsrc Hdest; cbn [for_down].
  - repeat match goal with
           | |- context [?a <=? ?b] => destruct (Z.leb_spec a b)
           end; cbn [andb]; try reflexivity; lia.
  - rewrite IH by (rewrite ?move_row_length; lia).
    rewrite !at_move_row by lia.
    repeat match goal with
           | |- context [?a <=? ?b] => destruct (Z.leb_spec a b)
           | |- context [?a =? ?b] => destruct (Z.eqb_spec a b)
           end;
      cbn [andb]; try lia; try reflexivity; f_equal; lia.
Qed.

(** Scrolling the image down: [moveImage] with dest at or behind
    sourceBegin moves rows backward. *)
Lemma moveImage_down_screenLines dest sourceBegin sourceEnd s :
  sourceBegin <= dest ->
  _screenLines (moveImage dest sourceBegin sourceEnd s)
  = copy_rows_down (Z.quot dest (_columns s)) (Z.quot sourceBegin (_columns s))
      (Z.to_nat (Z.quot (sourceEnd - sourceBegin) (_columns s) + 1))
      (Z.quot (sourceEnd - sourceBegin) (_columns s)) (_screenLines s).
Proof.
  intros Hle. rewrite moveImage_blocks.
  rewrite (proj1 (proj2 (moveImage_selection_frame _ _ _ _))).
  rewrite (proj1 (proj2 (moveImage_lastPos_frame _ _ _ _))).
  unfold moveImage_rows. cbv zeta.
  destruct (Z.ltb_spec dest sourceBegin); [lia|].
  unfold copy_rows_down.
  apply (for_down_project _screenLines). intros j s'. read_members. reflexivity.
Qed.

(** A loop that rewrites one row per index leaves each row of its range
    rewritten once and the other rows as they were. *)
Lemma for_up_rows (g : list Character.t -> list Character.t) n :
  forall i (rows : list (list Character.t)) y,
    0 <= i ->
    i + Z.of_nat n <= Z.of_nat (length rows) ->
    at_ [] (for_up n i (fun y rows => set_at rows y (g (at_ [] rows y))) rows) y
    = if (i <=? y) && (y <? i + Z.of_nat n) then g (at_ [] rows y) else at_ [] rows y.
Proof.
  induction n as [|n IH]; intros i rows y Hi Hlen; cbn [for_up].
  - destruct (Z.leb_spec i y); destruct (Z.ltb_spec y (i + Z.of_nat 0));
      try reflexivity; lia.
  - rewrite IH by (rewrite ?length_set_at; lia).
    rewrite !at_set_at by lia.
    repeat match goal with
           | |- context [?a <=? ?b] => destruct (Z.leb_spec a b)
           | |- context [?a <? ?b] => destruct (Z.ltb_spec a b)
           | |- context [?a =? ?b] => destruct (Z.eqb_spec a b)
           end;
      cbn [andb]; try lia; try reflexivity; subst; reflexivity.
Qed.

Lemma fill_length v n : forall first (line : list Character.t),
  length (for_up n first (fun i l => set_at l i v) line) = length line.
Proof.
  induction n as [|n IH]; intros first line; cbn [for_up]; [reflexivity|].
  rewrite IH. apply length_set_at.
Qed.

Lemma fill_at d v first last (line : list Character.t) x :
  0 <= first ->
  last <= Z.of_nat (length line) ->
  at_ d (fill first last v line) x
  = if (first <=? x) && (x <? last) then v else at_ d line x.
Proof.
  unfold fill. intros Hfirst Hlast.
  destruct (Z.le_gt_cases last first) as [Hle|Hgt].
  { replace (Z.to_nat (last - first)) with O by lia. cbn [for_up].
    destruct (Z.leb_spec first x); destruct (Z.ltb_spec x last); try reflexivity; lia. }
  assert (forall n f (l : list Character.t),
             0 <= f -> f + Z.of_nat n <= Z.of_nat (length l) ->
             at_ d (for_up n f (fun i l => set_at l i v) l) x
             = if (f <=? x) && (x <? f + Z.of_nat n) then v else at_ d l x) as Hloop.
  { induction n as [|n IH]; intros f l Hf Hl; cbn [for_up].
    - destruct (Z.leb_spec f x); destruct (Z.ltb_spec x (f + Z.of_nat 0));
        try reflexivity; lia.
    - rewrite IH by (rewrite ?length_set_at; lia).
      rewrite at_set_at by lia.
      repeat match goal with
             | |- context [?a <=? ?b] => destruct (Z.leb_spec a b)
             | |- context [?a <? ?b] => destruct (Z.ltb_spec a b)
             | |- context [?a =? ?b] => destruct (Z.eqb_spec a b)
             end;
        cbn [andb]; try lia; reflexivity. }
  rewrite Hloop by lia.
  replace (first + Z.of_nat (Z.to_nat (last - first))) with last by lia.
  reflexivity.
Qed.

(** A row cleared from its first to its last column reads as the clearing
    cell in every column of the screen. *)
Lemma cleared_row_at columns clearCh line x :
  0 <= x < columns ->
  at_ DefaultChar (cleared_row columns clearCh line) x = clearCh.
Proof.
  intros Hx. unfold cleared_row.
  destruct (bool_decide (clearCh = DefaultChar)) eqn:Hdefault.
  - apply bool_decide_eq_true in Hdefault. unfold resize_line.
    rewrite resize_0. unfold at_. destruct (x <? 0); symmetry; exact Hdefault.
  - rewrite fill_at.
    + destruct (Z.leb_spec 0 x); [|lia]. destruct (Z.ltb_spec x columns); [|lia].
      reflexivity.
    + lia.
    + destruct (Z.ltb_spec (Z.of_nat (length line)) columns); [|lia].
      unfold resize_line. rewrite length_resize. lia.
Qed.

Lemma loc_row_start s y : 0 < _columns s -> Z.quot (loc s 0 y) (_columns s) = y.
Proof. intros H. unfold loc. rewrite Z.add_0_r. apply Z.quot_mul. lia. Qed.

Lemma loc_row_end s y :
  0 < _columns s -> 0 <= y ->
  Z.quot (loc s (_columns s - 1) y) (_columns s) = y /\
  Z.rem (loc s (_columns s - 1) y) (_columns s) = _columns s - 1.
Proof.
  intros Hc Hy. unfold loc.
  assert (0 <= y * _columns s) by nia.
  rewrite Z.quot_div_nonneg, Z.rem_mod_nonneg by lia.
  split; symmetry.
  - apply (Z.div_unique _ _ y (_columns s - 1)); lia.
  - apply (Z.mod_unique _ _ y (_columns s - 1)); lia.
Qed.

(** [clearImage] over whole rows [top .. bottom]: each of them becomes the
    cleared row, the others stay. *)
Lemma clearImage_rows top bottom s :
  0 < _columns s ->
  0 <= top -> top <= bottom ->
  bottom < Z.of_nat (length (_screenLines s)) ->
  forall y,
    at_ [] (_screenLines
              (clearImage (loc s 0 top) (loc s (_columns s - 1) bottom) 32 s)) y
    = if (top <=? y) && (y <=? bottom)
      then cleared_row (_columns s) (blank s) (at_ [] (_screenLines s) y)
      else at_ [] (_screenLines s) y.
Proof.
  intros Hc Htop Hbottom Hlen y. unfold clearImage. cbv zeta.
  match goal with
  | |- context [for_up _ _ _ ?start] => set (s0 := start)
  end.
  assert (_columns s0 = _columns s /\ _screenLines s0 = _screenLines s /\
          blank s0 = blank s) as (Hc0 & Hrows0 & Hblank0).
  { subst s0. destruct (_ && _); unfold clearSelection, blank; read_members; repeat split. }
  rewrite Hc0.
  rewrite loc_row_start by exact Hc.
  destruct (loc_row_end s bottom Hc ltac:(lia)) as [-> Hrem].
  rewrite (for_up_project_inv
             (fun s' => _columns s' = _columns s) _screenLines _
             (fun y rows =>
                set_at rows y (cleared_row (_columns s) (blank s) (at_ [] rows y)))).
  - rewrite for_up_rows by (rewrite ?Hrows0; lia).
    rewrite Hrows0.
    replace (top + Z.of_nat (Z.to_nat (bottom - top + 1))) with (bottom + 1) by lia.
    destruct (Z.leb_spec top y); destruct (Z.ltb_spec y (bottom + 1));
      destruct (Z.leb_spec y bottom); try reflexivity; lia.
  - intros j s' Hs'. read_members. exact Hs'.
  - intros j s' Hs'. read_members. rewrite Hs', Hrem.
    f_equal. unfold cleared_row.
    replace (if j =? bottom then _columns s - 1 else _columns s - 1)
      with (_columns s - 1) by (destruct (j =? bottom); reflexivity).
    replace (if j =? top then Z.rem (loc s 0 top) (_columns s) else 0) with 0.
    2:{ destruct (j =? top); [|reflexivity]. unfold loc.
        rewrite Z.add_0_r. symmetry. apply Z.rem_mul. lia. }
    rewrite Z.eqb_refl, andb_true_r.
    fold (blank s0). rewrite Hblank0.
    destruct (bool_decide (blank s = DefaultChar)); [reflexivity|].
    replace (_columns s - 1 + 1) with (_columns s) by lia.
    destruct (Z.leb_spec 0 (_columns s - 1)); [reflexivity|lia].
  - exact Hc0.
Qed.

(** *** The scrolled-lines counter *)

Lemma scrollUpFrom_scrolledLines from n s :
  0 < n -> from <= _bottomMargin s ->
  _scrolledLines (scrollUpFrom from n s)
  = _scrolledLines s
    - (if _bottomMargin s <? from + n then _bottomMargin s + 1 - from else n).
Proof.
  intros Hn Hfrom. unfold scrollUpFrom.
  destruct (Z.leb_spec n 0); [lia|].
  destruct (Z.ltb_spec (_bottomMargin s) from); [lia|].
  cbv zeta.
  match goal with |- context [clearImage ?a ?b ?c ?x] =>
    destruct (clearImage_frame a b c x) as (_&_&_&_&_&_&_&_&_& -> &_)
  end.
  match goal with |- context [moveImage ?a ?b ?c ?x] =>
    destruct (moveImage_frame a b c x) as (_&_&_&_&_&_&_&_&_& -> &_)
  end.
  read_members. reflexivity.
Qed.

Lemma scrollDownFrom_scrolledLines from n s :
  _scrolledLines (scrollDownFrom from n s) = _scrolledLines s + n.
Proof.
  unfold scrollDownFrom. cbv zeta.
  destruct (n <=? 0); [reflexivity|].
  match goal with |- context [_bottomMargin ?x <? from] =>
    destruct (_bottomMargin x <? from); [reflexivity|]
  end.
  match goal with |- context [clearImage ?a ?b ?c ?x] =>
    destruct (clearImage_frame a b c x) as (_&_&_&_&_&_&_&_&_& -> &_)
  end.
  match goal with |- context [moveImage ?a ?b ?c ?x] =>
    destruct (moveImage_frame a b c x) as (_&_&_&_&_&_&_&_&_& -> &_)
  end.
  read_members. reflexivity.
Qed.

(** scrollUp(from, n) on a well-formed screen does what C2 says of it: it
    clamps n to the height of [from .. bottomMargin], lowers scrolledLines by
    the clamped n, moves the rows below the vacated ones up by that many
    lines, fills the vacated rows at the bottom of the region with blank
    cells in the current colours, and leaves every row outside
    [from .. bottomMargin] as it was. *)
Theorem scrollUpFrom_scrolls_region (s : Screen) (from n : Z) :
  wellFormed s ->
  0 <= from <= _bottomMargin s ->
  0 < n ->
  let k := scrollUp_clamped s from n in
  let s' := scrollUpFrom from n s in
  1 <= k <= _bottomMargin s + 1 - from /\
  _scrolledLines s' = _scrolledLines s - k /\
  (forall y, from <= y <= _bottomMargin s - k ->
             at_ [] (_screenLines s') y = at_ [] (_screenLines s) (y + k)) /\
  (forall y x, _bottomMargin s - k < y <= _bottomMargin s ->
               0 <= x < _columns s ->
               cellAt s' x y = blank s) /\
  (forall y, y < from \/ _bottomMargin s < y ->
             at_ [] (_screenLines s') y = at_ [] (_screenLines s) y).
Proof.
  intros (Hc & Hbm & Hlen) Hfrom Hn k s'.
  assert (1 <= k <= _bottomMargin s + 1 - from) as Hk.
  { subst k. unfold scrollUp_clamped.
    destruct (Z.ltb_spec (_bottomMargin s) (from + n)); lia. }
  split; [exact Hk|].
  split.
  { subst s' k. unfold scrollUp_clamped. apply scrollUpFrom_scrolledLines; lia. }
  assert (forall y,
             at_ [] (_screenLines s') y
             = if (_bottomMargin s - k + 1 <=? y) && (y <=? _bottomMargin s)
               then cleared_row (_columns s) (blank s)
                      (at_ [] (copy_rows_up from (from + k)
                                  (Z.to_nat (_bottomMargin s + 1 - (from + k) + 1)) 0
                                  (_screenLines s)) y)
               else at_ [] (copy_rows_up from (from + k)
                              (Z.to_nat (_bottomMargin s + 1 - (from + k) + 1)) 0
                              (_screenLines s)) y) as Hrows.
  { intros y. subst s'. unfold scrollUpFrom.
    destruct (Z.leb_spec n 0); [lia|].
    destruct (Z.ltb_spec (_bottomMargin s) from); [lia|].
    cbv zeta. fold (scrollUp_clamped s from n). fold k.
    match goal with
    | |- context [moveImage _ _ _ ?x] => set (s1 := x)
    end.
    match goal with
    | |- context [moveImage ?a ?b ?c s1] => set (sM := moveImage a b c s1)
    end.
    assert (_columns s1 = _columns s /\ _bottomMargin s1 = _bottomMargin s /\
            _screenLines s1 = _screenLines s /\ blank s1 = blank s)
      as (Hc1 & Hbm1 & Hrows1 & Hblank1).
    { subst s1. unfold blank. read_members. repeat split. }
    destruct (moveImage_frame (loc s1 0 from) (loc s1 0 (from + k))
                (loc s1 (_columns s1) (_bottomMargin s1)) s1)
      as (_ & _ & HcM & _ & HbmM & _ & _ & HfgM & HbgM & _).
    fold sM in HcM, HbmM, HfgM, HbgM.
    assert (_screenLines sM
            = copy_rows_up from (from + k)
                (Z.to_nat (_bottomMargin s + 1 - (from + k) + 1)) 0 (_screenLines s))
      as HrowsM.
    { subst sM. rewrite moveImage_up_screenLines.
      - rewrite (loc_row_start s1 from), (loc_row_start s1 (from + k))
          by (rewrite Hc1; exact Hc).
        rewrite Hrows1. f_equal. f_equal. f_equal.
        unfold loc. rewrite Hc1, Hbm1.
        replace (_bottomMargin s * _columns s + _columns s - ((from + k) * _columns s + 0))
          with ((_bottomMargin s + 1 - (from + k)) * _columns s) by ring.
        apply Z.quot_mul. lia.
      - unfold loc. rewrite Hc1. nia. }
    assert (blank sM = blank s) as HblankM.
    { unfold blank. rewrite HfgM, HbgM. subst s1. read_members. reflexivity. }
    rewrite clearImage_rows.
    - rewrite HcM, HbmM, Hc1, Hbm1, HblankM, HrowsM. reflexivity.
    - lia.
    - lia.
    - lia.
    - rewrite HrowsM, copy_rows_up_length. lia. }
  assert (forall y,
             at_ [] (copy_rows_up from (from + k)
                       (Z.to_nat (_bottomMargin s + 1 - (from + k) + 1)) 0
                       (_screenLines s)) y
             = if (from <=? y) && (y <=? _bottomMargin s + 1 - k)
               then at_ [] (_screenLines s) (y + k)
               else at_ [] (_screenLines s) y) as Hmoved.
  { intros y. rewrite copy_rows_up_at by lia.
    replace (from + k - from) with k by lia.
    destruct (Z.leb_spec (from + 0) y); destruct (Z.leb_spec from y); try lia;
      cbn [andb]; [|reflexivity].
    destruct (Z.ltb_spec y
                (from + 0 + Z.of_nat (Z.to_nat (_bottomMargin s + 1 - (from + k) + 1))));
      destruct (Z.leb_spec y (_bottomMargin s + 1 - k)); try reflexivity; lia. }
  split; [|split].
  - intros y Hy. rewrite Hrows, Hmoved.
    destruct (Z.leb_spec (_bottomMargin s - k + 1) y); [lia|]. cbn [andb].
    destruct (Z.leb_spec from y); [|lia].
    destruct (Z.leb_spec y (_bottomMargin s + 1 - k)); [reflexivity|lia].
  - intros y x Hy Hx. unfold cellAt. rewrite Hrows.
    destruct (Z.leb_spec (_bottomMargin s - k + 1) y); [|lia].
    destruct (Z.leb_spec y (_bottomMargin s)); [|lia]. cbn [andb].
    apply cleared_row_at. exact Hx.
  - intros y Hy. rewrite Hrows, Hmoved.
    destruct (Z.leb_spec (_bottomMargin s - k + 1) y);
      destruct (Z.leb_spec y (_bottomMargin s));
      destruct (Z.leb_spec from y);
      destruct (Z.leb_spec y (_bottomMargin s + 1 - k));
      cbn [andb]; try reflexivity; lia.
Qed.

(** scrollDown(from, n) on a well-formed screen, with from above the bottom
    margin: it clamps n to bottomMargin - from, moves the rows of the region
    down by the clamped n, fills the vacated rows at the top of the region
    with blank cells in the current colours and leaves the rows outside
    [from .. bottomMargin] as they were; scrolledLines grows by n as
    given. *)
Theorem scrollDownFrom_scrolls_region (s : Screen) (from n : Z) :
  wellFormed s ->
  0 <= from < _bottomMargin s ->
  0 < n ->
  let k := scrollDown_clamped s from n in
  let s' := scrollDownFrom from n s in
  1 <= k <= _bottomMargin s - from /\
  _scrolledLines s' = _scrolledLines s + n /\
  (forall y, from + k <= y <= _bottomMargin s ->
             at_ [] (_screenLines s') y = at_ [] (_screenLines s) (y - k)) /\
  (forall y x, from <= y < from + k ->
               0 <= x < _columns s ->
               cellAt s' x y = blank s) /\
  (forall y, y < from \/ _bottomMargin s < y ->
             at_ [] (_screenLines s') y = at_ [] (_screenLines s) y).
Proof.
  intros (Hc & Hbm & Hlen) Hfrom Hn k s'.
  assert (1 <= k <= _bottomMargin s - from) as Hk.
  { subst k. unfold scrollDown_clamped.
    destruct (Z.ltb_spec (_bottomMargin s) (from + n)); lia. }
  split; [exact Hk|].
  split; [apply scrollDownFrom_scrolledLines|].
  assert (forall y,
             at_ [] (_screenLines s') y
             = if (from <=? y) && (y <=? from + k - 1)
               then cleared_row (_columns s) (blank s)
                      (at_ [] (copy_rows_down (from + k) from
                                  (Z.to_nat (_bottomMargin s - k - from + 1))
                                  (_bottomMargin s - k - from)
                                  (_screenLines s)) y)
               else at_ [] (copy_rows_down (from + k) from
                              (Z.to_nat (_bottomMargin s - k - from + 1))
                              (_bottomMargin s - k - from)
                              (_screenLines s)) y) as Hrows.
  { intros y. subst s'. unfold scrollDownFrom. cbv zeta.
    destruct (Z.leb_spec n 0); [lia|].
    set (s1 := set_scrolledLines (_scrolledLines s + n) s).
    assert (_columns s1 = _columns s /\ _bottomMargin s1 = _bottomMargin s /\
            _screenLines s1 = _screenLines s)
      as (Hc1 & Hbm1 & Hrows1).
    { subst s1. read_members. repeat split. }
    rewrite !Hbm1.
    destruct (Z.ltb_spec (_bottomMargin s) from); [lia|].
    fold (scrollDown_clamped s from n). fold k.
    match goal with
    | |- context [moveImage ?a ?b ?c s1] =>
        pose proof (moveImage_frame a b c s1) as HF;
        pose proof (moveImage_down_screenLines a b c s1) as HrowsM;
        set (sM := moveImage a b c s1) in *
    end.
    destruct HF as (_ & _ & HcM & _ & HbmM & _ & _ & HfgM & HbgM & _).
    assert (Z.quot (loc s1 (_columns s1 - 1) (_bottomMargin s - k) - loc s1 0 from)
                   (_columns s1)
            = _bottomMargin s - k - from) as Hlines.
    { replace (loc s1 (_columns s1 - 1) (_bottomMargin s - k) - loc s1 0 from)
        with (loc s1 (_columns s1 - 1) (_bottomMargin s - k - from))
        by (unfold loc; ring).
      apply loc_row_end; lia. }
    rewrite (loc_row_start s1 from), (loc_row_start s1 (from + k)), Hlines, Hrows1
      in HrowsM by (rewrite Hc1; exact Hc).
    specialize (HrowsM ltac:(unfold loc; rewrite Hc1; nia)).
    assert (blank sM = blank s) as HblankM.
    { unfold blank. rewrite HfgM, HbgM. subst s1. read_members. reflexivity. }
    rewrite clearImage_rows.
    - rewrite HcM, Hc1, HblankM, HrowsM. reflexivity.
    - lia.
    - lia.
    - lia.
    - rewrite HrowsM, copy_rows_down_length. lia. }
  assert (forall y,
             at_ [] (copy_rows_down (from + k) from
                       (Z.to_nat (_bottomMargin s - k - from + 1))
                       (_bottomMargin s - k - from)
                       (_screenLines s)) y
             = if (from + k <=? y) && (y <=? _bottomMargin s)
               then at_ [] (_screenLines s) (y - k)
               else if (from <=? y) && (y <=? _bottomMargin s - k)
                    then []
                    else at_ [] (_screenLines s) y) as Hmoved.
  { intros y. rewrite copy_rows_down_at by lia.
    replace (from + k - from) with k by lia.
    replace (_bottomMargin s - k - from
             - Z.of_nat (Z.to_nat (_bottomMargin s - k - from + 1)) + 1) with 0 by lia.
    replace (from + k + 0) with (from + k) by lia.
    replace (from + k + (_bottomMargin s - k - from)) with (_bottomMargin s) by lia.
    replace (from + 0) with from by lia.
    replace (from + (_bottomMargin s - k - from)) with (_bottomMargin s - k) by lia.
    reflexivity. }
  split; [|split].
  - intros y Hy. rewrite Hrows, Hmoved.
    destruct (Z.leb_spec from y); [|lia].
    destruct (Z.leb_spec y (from + k - 1)); [lia|]. cbn [andb].
    destruct (Z.leb_spec (from + k) y); [|lia].
    destruct (Z.leb_spec y (_bottomMargin s)); [reflexivity|lia].
  - intros y x Hy Hx. unfold cellAt. rewrite Hrows.
    destruct (Z.leb_spec from y); [|lia].
    destruct (Z.leb_spec y (from + k - 1)); [|lia]. cbn [andb].
    apply cleared_row_at. exact Hx.
  - intros y Hy. rewrite Hrows, Hmoved.
    repeat match goal with
           | |- context [?a <=? ?b] => destruct (Z.leb_spec a b)
           end; cbn [andb]; try reflexivity; lia.
Qed.

(** C2, where the sources depart from it: when n has to be clamped,
    scrollDown(from, n) clamps it to bottomMargin - from for the rows it
    moves and clears, but has already added the unclamped n to
    scrolledLines; scrollUp(from, n) subtracts its clamped n,
    bottomMargin + 1 - from. *)
Theorem scrollDownFrom_counts_unclamped (s : Screen) (from n : Z) :
  0 < n ->
  from <= _bottomMargin s ->
  _bottomMargin s < from + n ->
  _scrolledLines (scrollDownFrom from n s) = _scrolledLines s + n /\
  _bottomMargin s - from < n /\
  _scrolledLines (scrollUpFrom from n s) = _scrolledLines s - (_bottomMargin s + 1 - from).
Proof.
  intros Hn Hfrom Hclamp.
  split; [apply scrollDownFrom_scrolledLines|].
  split; [lia|].
  rewrite scrollUpFrom_scrolledLines by lia.
  destruct (Z.ltb_spec (_bottomMargin s) (from + n)); [reflexivity|lia].
Qed.

End ScreenProofs.

(** C1 on the sample screen: index at the bottom margin retires the line
    [abc] with its wrapped flag into the empty history. *)
Lemma index_retires_iff_topMargin_zero_witness :
  Screen.hasScroll (Screen.sample_screen (D := sample_declarations)) = true /\
  Screen._cuY (Screen.sample_screen (D := sample_declarations))
  = Screen._bottomMargin (Screen.sample_screen (D := sample_declarations)) /\
  HistoryScroll.content
    (Screen._history
       (Screen.index (D := sample_declarations) (Screen.sample_screen (D := sample_declarations))))
  = [(List.map (Screen.plain (D := sample_declarations)) (lit "abc"), true)].
Proof.
  split; [reflexivity|]. split; [reflexivity|].
  destruct (index_retires_iff_topMargin_zero (D := sample_declarations)
              (Screen.sample_screen (D := sample_declarations)) eq_refl eq_refl) as (_ & Hzero & _).
  destruct (Hzero eq_refl) as (_ & Hbelow & _).
  destruct (Hbelow ltac:(vm_compute; reflexivity)) as (_ & Hcontent).
  exact Hcontent.
Defined.

(** scrollUp(0, 1) on the sample screen: [de] moves to the first row, and
    the last row of the region reads blank. *)
Lemma scrollUpFrom_scrolls_region_witness :
  Screen.wellFormed (Screen.sample_screen (D := sample_declarations)) /\
  Screen._scrolledLines
    (Screen.scrollUpFrom (D := sample_declarations) 0 1
       (Screen.sample_screen (D := sample_declarations))) = -1 /\
  at_ [] (Screen._screenLines
            (Screen.scrollUpFrom (D := sample_declarations) 0 1
               (Screen.sample_screen (D := sample_declarations)))) 0
  = List.map (Screen.plain (D := sample_declarations)) (lit "de") /\
  Screen.cellAt (D := sample_declarations)
    (Screen.scrollUpFrom (D := sample_declarations) 0 1
       (Screen.sample_screen (D := sample_declarations))) 2 3
  = Screen.blank (D := sample_declarations)
      (Screen.sample_screen (D := sample_declarations)).
Proof.
  assert (Screen.wellFormed (Screen.sample_screen (D := sample_declarations))) as Hwf.
  { repeat split. }
  split; [exact Hwf|].
  destruct (scrollUpFrom_scrolls_region (D := sample_declarations)
              (Screen.sample_screen (D := sample_declarations)) 0 1 Hwf)
    as (_ & Hcount & Hmoved & Hblank & _).
  - vm_compute. split; discriminate.
  - lia.
  - split; [exact Hcount|]. split.
    + apply (Hmoved 0). vm_compute. split; discriminate.
    + apply (Hblank 3 2); vm_compute; split; (discriminate || reflexivity).
Defined.

(** scrollDown(0, 10) on the sample screen: clamped to 3 lines, [abc] ends
    on the last row of the region and the first row reads blank. *)
Lemma scrollDownFrom_scrolls_region_witness :
  Screen.wellFormed (Screen.sample_screen (D := sample_declarations)) /\
  at_ [] (Screen._screenLines
            (Screen.scrollDownFrom (D := sample_declarations) 0 10
               (Screen.sample_screen (D := sample_declarations)))) 3
  = List.map (Screen.plain (D := sample_declarations)) (lit "abc") /\
  Screen.cellAt (D := sample_declarations)
    (Screen.scrollDownFrom (D := sample_declarations) 0 10
       (Screen.sample_screen (D := sample_declarations))) 1 0
  = Screen.blank (D := sample_declarations)
      (Screen.sample_screen (D := sample_declarations)).
Proof.
  assert (Screen.wellFormed (Screen.sample_screen (D := sample_declarations))) as Hwf.
  { repeat split. }
  split; [exact Hwf|].
  destruct (scrollDownFrom_scrolls_region (D := sample_declarations)
              (Screen.sample_screen (D := sample_declarations)) 0 10 Hwf)
    as (_ & _ & Hmoved & Hblank & _).
  - vm_compute. split; [discriminate|reflexivity].
  - lia.
  - split.
    + apply (Hmoved 3). vm_compute. split; discriminate.
    + apply (Hblank 0 1); vm_compute; split; (discriminate || reflexivity).
Defined.

(** C2 on the sample screen: scrollDown(0, 10) with the bottom margin at
    line 3 moves and clears by 3 lines and counts 10. *)
Lemma scrollDownFrom_counts_unclamped_witness :
  0 < 10 /\
  0 <= Screen._bottomMargin (Screen.sample_screen (D := sample_declarations)) /\
  Screen._bottomMargin (Screen.sample_screen (D := sample_declarations)) < 0 + 10 /\
  Screen._scrolledLines
    (Screen.scrollDownFrom (D := sample_declarations) 0 10 (Screen.sample_screen (D := sample_declarations))) = 10 /\
  Screen._scrolledLines
    (Screen.scrollUpFrom (D := sample_declarations) 0 10 (Screen.sample_screen (D := sample_declarations))) = -4.
Proof.
  split; [lia|]. split; [vm_compute; discriminate|]. split; [vm_compute; reflexivity|].
  destruct (scrollDownFrom_counts_unclamped (D := sample_declarations)
              (Screen.sample_screen (D := sample_declarations)) 0 10) as (Hdown & _ & Hup).
  - lia.
  - vm_compute. discriminate.
  - vm_compute. reflexivity.
  - split; [exact Hdown|exact Hup].
Defined.

Section HistoryFileProofs.
Context {D : Declarations}.

Lemma add_seek_failure env buffer count h :
  HistoryFile.seek_ok env = false ->
  HistoryFile.len (fst (HistoryFile.add env buffer count h)) = HistoryFile.len h /\
  HistoryFile.bytes (HistoryFile._tmpFile (fst (HistoryFile.add env buffer count h)))
  = HistoryFile.bytes (HistoryFile._tmpFile h) /\
  snd (HistoryFile.add env buffer count h) = [HistoryFile.perror "HistoryFile::add.seek"].
Proof.
  intros Hseek. unfold HistoryFile.add, HistoryFile.unmap, HistoryFile.len.
  rewrite Hseek. cbn [negb].
  destruct (HistoryFile._fileMap h); [destruct (HistoryFile.unmap_ok env)|];
    cbn [HistoryFile._readWriteBalance];
    match goal with |- context [if ?b then _ else _] => destruct b end;
    repeat split.
Qed.

Lemma add_write_failure env buffer count h :
  HistoryFile.seek_ok env = true ->
  HistoryFile.write_rc env < 0 ->
  HistoryFile.len (fst (HistoryFile.add env buffer count h)) = HistoryFile.len h /\
  HistoryFile.bytes (HistoryFile._tmpFile (fst (HistoryFile.add env buffer count h)))
  = HistoryFile.bytes (HistoryFile._tmpFile h) /\
  snd (HistoryFile.add env buffer count h) = [HistoryFile.perror "HistoryFile::add.write"].
Proof.
  intros Hseek Hrc. unfold HistoryFile.add, HistoryFile.unmap, HistoryFile.len.
  rewrite Hseek. cbn [negb].
  destruct (Z.ltb_spec (HistoryFile.write_rc env) 0); [|lia].
  destruct (HistoryFile._fileMap h); [destruct (HistoryFile.unmap_ok env)|];
    cbn [HistoryFile._readWriteBalance];
    match goal with |- context [if ?b then _ else _] => destruct b end;
    repeat split.
Qed.

(** C7: with loc < 0, size < 0 or loc + size > len(), get reports the
    invalid arguments and returns: the history file (its length, its bytes
    and every other member) and the caller's buffer are as before, and the
    call returns normally.  When the seek or the write of add fails, add
    reports it and returns with the stored length and the bytes of the file
    as before. *)
Theorem historyFile_failures_keep_state (env : HistoryFile.Outcome) (h : HistoryFile.t) :
  (forall buffer size loc,
      loc < 0 \/ size < 0 \/ loc + size > HistoryFile.len h ->
      HistoryFile.get env buffer size loc h
      = (h, buffer, [HistoryFile.invalid_args size loc])) /\
  (forall buffer count,
      HistoryFile.seek_ok env = false \/ HistoryFile.write_rc env < 0 ->
      let result := HistoryFile.add env buffer count h in
      HistoryFile.len (fst result) = HistoryFile.len h /\
      HistoryFile.bytes (HistoryFile._tmpFile (fst result))
      = HistoryFile.bytes (HistoryFile._tmpFile h) /\
      exists where_, snd result = [HistoryFile.perror where_]).
Proof.
  split.
  - intros buffer size loc Hbad. unfold HistoryFile.get, HistoryFile.len in *.
    destruct (Z.ltb_spec loc 0); [reflexivity|].
    destruct (Z.ltb_spec size 0); [reflexivity|].
    destruct (Z.ltb_spec (HistoryFile._length h) (loc + size)); [reflexivity|].
    lia.
  - intros buffer count Hfail result. subst result.
    destruct (HistoryFile.seek_ok env) eqn:Hseek.
    + destruct Hfail as [Hfail|Hfail]; [discriminate|].
      destruct (add_write_failure env buffer count h Hseek Hfail) as (H1 & H2 & H3).
      split; [exact H1|]. split; [exact H2|]. eexists. exact H3.
    + destruct (add_seek_failure env buffer count h Hseek) as (H1 & H2 & H3).
      split; [exact H1|]. split; [exact H2|]. eexists. exact H3.
Qed.

End HistoryFileProofs.

Section ScreenWindowProofs.
Context {D : Declarations}.
Import ScreenWindow.

Lemma std_clamp_bounds v lo hi : lo <= hi -> lo <= std_clamp v lo hi <= hi.
Proof.
  intros H. unfold std_clamp.
  destruct (Z.ltb_spec v lo); [lia|].
  destruct (Z.ltb_spec hi v); lia.
Qed.

(** C8: whatever calls (scrollTo, scrollBy, setWindowLines, setTrackOutput,
    notifyOutputChanged) and whatever changes of the screen came before,
    currentLine() lies between 0 and max(0, lineCount - windowLines). *)
Theorem currentLine_in_range (ops : list Operation) (screen : Screen.Screen) (w : t) :
  let screen' := fst (run ops (screen, w)) in
  let w' := snd (run ops (screen, w)) in
  0 <= currentLine screen' w' <= Z.max 0 (lineCount screen' - windowLines w').
Proof.
  intros screen' w'. unfold currentLine.
  apply std_clamp_bounds. lia.
Qed.

End ScreenWindowProofs.

Section HTMLDecoderProofs.
Context {D : Declarations}.
Import HTMLDecoder.

Lemma appearance_text c d text :
  appearance c d text = (fst (appearance c d []), text ++ snd (appearance c d [])).
Proof.
  unfold appearance.
  destruct (negb _ || negb _ || negb _); [|cbn; rewrite app_nil_r; reflexivity].
  cbv zeta. cbn [fst snd]. f_equal.
  unfold openSpan, closeSpan.
  destruct (_innerSpanOpen d); rewrite <- ?app_assoc; reflexivity.
Qed.

Lemma outputCharacter_text c text spaceCount :
  0 <= spaceCount ->
  outputCharacter c text spaceCount
  = (text ++ spec_cell (0 <? spaceCount) c, if isSpace c then spaceCount + 1 else 0).
Proof.
  intros Hsc. unfold outputCharacter, spec_cell, spec_literal. cbv zeta.
  f_equal.
  destruct (isSpace c); cbn [andb].
  - destruct (Z.ltb_spec 0 spaceCount); destruct (Z.ltb_spec (spaceCount + 1) 2);
      try lia; [reflexivity|].
    destruct (negb _); [destruct (lookupExtendedChar _); cbn; rewrite ?app_nil_r; reflexivity|].
    repeat match goal with |- context [if ?b then _ else _] => destruct b end; reflexivity.
  - cbn [Z.ltb Z.compare].
    destruct (negb _); [destruct (lookupExtendedChar _); cbn; rewrite ?app_nil_r; reflexivity|].
    repeat match goal with |- context [if ?b then _ else _] => destruct b end; reflexivity.
Qed.

Lemma decodeLoop_text cells : forall d text spaceCount,
  0 <= spaceCount ->
  exists spaceCount',
    decodeLoop cells d text spaceCount
    = (after_cells d cells,
       text ++ concat (zip_with app (markups d cells) (cell_texts (0 <? spaceCount) cells)),
       spaceCount').
Proof.
  induction cells as [|c cells IH]; intros d text spaceCount Hsc.
  - exists spaceCount. cbn. rewrite app_nil_r. reflexivity.
  - unfold decodeLoop. cbn [fold_left].
    rewrite appearance_text.
    rewrite outputCharacter_text by exact Hsc.
    fold (decodeLoop cells (fst (appearance c d []))
            ((text ++ snd (appearance c d [])) ++ spec_cell (0 <? spaceCount) c)
            (if isSpace c then spaceCount + 1 else 0)).
    destruct (IH (fst (appearance c d []))
                ((text ++ snd (appearance c d [])) ++ spec_cell (0 <? spaceCount) c)
                (if isSpace c then spaceCount + 1 else 0)) as [sc' Hloop].
    { destruct (isSpace c); lia. }
    exists sc'. rewrite Hloop.
    replace (0 <? (if isSpace c then spaceCount + 1 else 0)) with (isSpace c).
    2:{ destruct (isSpace c); [symmetry; apply Z.ltb_lt; lia | reflexivity]. }
    cbn [markups cell_texts zip_with concat after_cells fold_left].
    rewrite <- !app_assoc. reflexivity.
Qed.

Lemma after_cells_output cells : forall d, _output (after_cells d cells) = _output d.
Proof.
  induction cells as [|c cells IH]; intros d; [reflexivity|].
  unfold after_cells. cbn [fold_left]. fold (after_cells (fst (appearance c d [])) cells).
  rewrite IH. unfold appearance.
  destruct (negb _ || negb _ || negb _); reflexivity.
Qed.

Lemma cell_texts_app cells1 : forall afterSpace cells2,
  cell_texts afterSpace (cells1 ++ cells2)
  = cell_texts afterSpace cells1
    ++ cell_texts (ends_in_space afterSpace cells1) cells2.
Proof.
  induction cells1 as [|c cells1 IH]; intros afterSpace cells2; [reflexivity|].
  cbn [app cell_texts]. rewrite IH. reflexivity.
Qed.

Lemma cell_texts_spaces run : forall post,
  Forall (fun x => isSpace x = true) run ->
  cell_texts true (run ++ post)
  = replicate (length run) (lit "&#160;") ++ cell_texts true post.
Proof.
  induction run as [|x run IH]; intros post Hrun; [reflexivity|].
  inversion Hrun as [|? ? Hx Hrest]; subst.
  cbn [app cell_texts length replicate]. rewrite Hx, IH by exact Hrest.
  unfold spec_cell. rewrite Hx. reflexivity.
Qed.

(** A run of spaces that starts the row or follows a cell that is no
    space: its first space is written by [spec_literal], the others as
    [&#160;]. *)
Lemma cell_texts_run pre c run post :
  ends_in_space false pre = false ->
  isSpace c = true ->
  Forall (fun x => isSpace x = true) run ->
  cell_texts false (pre ++ c :: run ++ post)
  = cell_texts false pre
    ++ spec_literal c :: replicate (length run) (lit "&#160;")
    ++ cell_texts true post.
Proof.
  intros Hpre Hc Hrun. rewrite cell_texts_app, Hpre. f_equal.
  cbn [cell_texts]. unfold spec_cell at 1. rewrite Hc. cbn [andb]. f_equal.
  apply cell_texts_spaces. exact Hrun.
Qed.

Lemma markups_app cells1 : forall d cells2,
  markups d (cells1 ++ cells2)
  = markups d cells1 ++ markups (after_cells d cells1) cells2.
Proof.
  induction cells1 as [|c cells1 IH]; intros d cells2; [reflexivity|].
  cbn [app markups]. rewrite IH. reflexivity.
Qed.

Lemma length_markups cells : forall d, length (markups d cells) = length cells.
Proof.
  induction cells as [|c cells IH]; intros d; [reflexivity|].
  cbn [markups length]. rewrite IH. reflexivity.
Qed.

Lemma length_cell_texts cells : forall afterSpace,
  length (cell_texts afterSpace cells) = length cells.
Proof.
  induction cells as [|c cells IH]; intros afterSpace; [reflexivity|].
  cbn [cell_texts length]. rewrite IH. reflexivity.
Qed.

(** What [decodeLine] writes for a row. *)
Lemma decodeLine_output (d : t) (characters : list Character.t) (count : Z) :
  _output (decodeLine characters count d)
  = _output d ++ spec_line d (take (Z.to_nat count) characters).
Proof.
  unfold decodeLine. cbv zeta.
  set (row := take (Z.to_nat count) characters).
  destruct (decodeLoop_text row d [] 0 ltac:(lia)) as [sc' ->].
  cbn [Z.ltb Z.compare app]. unfold spec_line, closeSpan.
  destruct (_innerSpanOpen (after_cells d row)) eqn:Hopen;
    cbn [_output]; rewrite after_cells_output, <- ?app_assoc; reflexivity.
Qed.

(** The text of a plain cell holds neither [<] nor [>]. *)
Lemma spec_cell_plain afterSpace c :
  Z.land (Character.rendition c) RE_EXTENDED_CHAR = 0 ->
  ~ In 60 (spec_cell afterSpace c) /\ ~ In 62 (spec_cell afterSpace c).
Proof.
  intros Hext. unfold spec_cell, spec_literal. rewrite Hext.
  cbn [Z.eqb negb]. cbv zeta.
  destruct (isSpace c && afterSpace).
  { split; intros Hin; vm_compute in Hin; intuition discriminate. }
  destruct (Z.eqb_spec (QChar (Character.character c)) 60).
  { split; intros Hin; vm_compute in Hin; intuition discriminate. }
  destruct (Z.eqb_spec (QChar (Character.character c)) 62).
  { split; intros Hin; vm_compute in Hin; intuition discriminate. }
  destruct (Z.eqb_spec (QChar (Character.character c)) 38).
  { split; intros Hin; vm_compute in Hin; intuition discriminate. }
  split; intros [Hin|[]]; congruence.
Qed.

(** The text of an extended cell is its cluster as the table holds it. *)
Lemma spec_cell_extended afterSpace c cluster :
  Z.land (Character.rendition c) RE_EXTENDED_CHAR <> 0 ->
  isSpace c && afterSpace = false ->
  lookupExtendedChar (Character.character c) = Some cluster ->
  spec_cell afterSpace c = cluster.
Proof.
  intros Hext Hsp Hcluster. unfold spec_cell, spec_literal.
  rewrite Hsp, Hcluster.
  destruct (Z.eqb_spec (Z.land (Character.rendition c) RE_EXTENDED_CHAR) 0);
    [contradiction|reflexivity].
Qed.

(** C9: the text decodeLine writes for a row is, cell by cell, the span
    markup of an appearance change followed by the text of the cell, and it
    ends with [<br>].  The first space of a run of spaces (at the start of
    the row or behind a cell that is no space) is written as it is and every
    further space of the run as [&#160;].  For a cell without
    [RE_EXTENDED_CHAR], [<], [>] and [&] are written [&lt;], [&gt;] and
    [&amp;], and the text of the cell holds neither [<] nor [>].  A cell
    with [RE_EXTENDED_CHAR] is not escaped: its cluster is written as the
    table of extended characters holds it, so that a [<], [>] or [&] in the
    cluster reaches the text of the row as it is. *)
Theorem decodeLine_writes_extended_cells_unescaped
        (d : t) (characters : list Character.t) (count : Z) :
  let row := take (Z.to_nat count) characters in
  let written := _output (decodeLine characters count d) in
  written = _output d ++ spec_line d row /\
  (exists text, written = _output d ++ text ++ lit "<br>") /\
  (forall afterSpace c,
      isSpace c = false ->
      Z.land (Character.rendition c) RE_EXTENDED_CHAR = 0 ->
      (QChar (Character.character c) = 60 -> spec_cell afterSpace c = lit "&lt;") /\
      (QChar (Character.character c) = 62 -> spec_cell afterSpace c = lit "&gt;") /\
      (QChar (Character.character c) = 38 -> spec_cell afterSpace c = lit "&amp;")) /\
  (forall pre c run post,
      ends_in_space false pre = false ->
      isSpace c = true ->
      Forall (fun x => isSpace x = true) run ->
      cell_texts false (pre ++ c :: run ++ post)
      = cell_texts false pre
        ++ spec_literal c :: replicate (length run) (lit "&#160;")
        ++ cell_texts true post) /\
  (forall c,
      Z.land (Character.rendition c) RE_EXTENDED_CHAR = 0 ->
      QChar (Character.character c) <> 60 ->
      QChar (Character.character c) <> 62 ->
      QChar (Character.character c) <> 38 ->
      spec_literal c = [QChar (Character.character c)]) /\
  (forall afterSpace c,
      Z.land (Character.rendition c) RE_EXTENDED_CHAR = 0 ->
      ~ In 60 (spec_cell afterSpace c) /\ ~ In 62 (spec_cell afterSpace c)) /\
  (forall pre c post cluster,
      row = pre ++ c :: post ->
      Z.land (Character.rendition c) RE_EXTENDED_CHAR <> 0 ->
      isSpace c && ends_in_space false pre = false ->
      lookupExtendedChar (Character.character c) = Some cluster ->
      exists after,
        written
        = _output d
          ++ concat (zip_with app (markups d pre) (cell_texts false pre))
          ++ snd (appearance c (after_cells d pre) [])
          ++ cluster
          ++ after).
Proof.
  intros row written.
  assert (written = _output d ++ spec_line d row) as Hw
      by apply decodeLine_output.
  split; [exact Hw|]. split.
  { rewrite Hw. unfold spec_line.
    match goal with
    | |- exists text, _ ++ ?a ++ ?b ++ _ = _ => exists (a ++ b)
    end.
    rewrite <- app_assoc. reflexivity. }
  split.
  { intros afterSpace c Hsp Hext. unfold spec_cell, spec_literal.
    rewrite Hsp, Hext. cbn [andb Z.eqb negb]. cbv zeta.
    split; [|split]; intros ->; reflexivity. }
  split; [intros; apply cell_texts_run; assumption|].
  split.
  { intros c Hext H60 H62 H38. unfold spec_literal.
    rewrite Hext. cbn [Z.eqb negb]. cbv zeta.
    destruct (Z.eqb_spec (QChar (Character.character c)) 60); [contradiction|].
    destruct (Z.eqb_spec (QChar (Character.character c)) 62); [contradiction|].
    destruct (Z.eqb_spec (QChar (Character.character c)) 38); [contradiction|].
    reflexivity. }
  split; [intros afterSpace c Hext; apply spec_cell_plain; exact Hext|].
  intros pre c post cluster Hrow Hext Hsp Hcluster.
  rewrite Hw, Hrow. unfold spec_line.
  rewrite markups_app, cell_texts_app.
  rewrite zip_with_app by (rewrite length_markups, length_cell_texts; reflexivity).
  rewrite concat_app. cbn [markups cell_texts zip_with concat].
  rewrite (spec_cell_extended _ c cluster Hext Hsp Hcluster).
  eexists. rewrite <- !app_assoc. reflexivity.
Qed.

End HTMLDecoderProofs.

(** A row of one cell that holds the cluster of [<] and U+0338: the [<]
    reaches the text of the row as it is. *)
Lemma decodeLine_writes_extended_cells_unescaped_witness :
  HTMLDecoder._output
    (HTMLDecoder.decodeLine (D := cluster_declarations) [cluster_cell] 1
       {| HTMLDecoder._output := []; HTMLDecoder._colorTable := None;
          HTMLDecoder._innerSpanOpen := false; HTMLDecoder._lastRendition := 0;
          HTMLDecoder._lastForeColor := CharacterColor.undefined;
          HTMLDecoder._lastBackColor := CharacterColor.undefined |})
  = lit "<span style=" ++ dquote ++ dquote ++ lit ">"
    ++ [60; 824] ++ lit "</span><br>" /\
  exists after,
    HTMLDecoder._output
      (HTMLDecoder.decodeLine (D := cluster_declarations) [cluster_cell] 1
         {| HTMLDecoder._output := []; HTMLDecoder._colorTable := None;
            HTMLDecoder._innerSpanOpen := false; HTMLDecoder._lastRendition := 0;
            HTMLDecoder._lastForeColor := CharacterColor.undefined;
            HTMLDecoder._lastBackColor := CharacterColor.undefined |})
    = lit "<span style=" ++ dquote ++ dquote ++ lit ">" ++ [60; 824] ++ after.
Proof.
  destruct (decodeLine_writes_extended_cells_unescaped (D := cluster_declarations)
              {| HTMLDecoder._output := []; HTMLDecoder._colorTable := None;
                 HTMLDecoder._innerSpanOpen := false; HTMLDecoder._lastRendition := 0;
                 HTMLDecoder._lastForeColor := CharacterColor.undefined;
                 HTMLDecoder._lastBackColor := CharacterColor.undefined |}
              [cluster_cell] 1)
    as (Hwritten & _ & _ & _ & _ & _ & Hraw).
  split.
  - exact (eq_trans Hwritten eq_refl).
  - destruct (Hraw [] cluster_cell [] [60; 824]) as [after Hcluster];
      [reflexivity|vm_compute; discriminate|reflexivity|reflexivity|].
    exists after. exact (eq_trans Hcluster eq_refl).
Defined.

Section FilterProofs.
Context {D : Declarations}.
Import Filter.

(** *** The hotspot index *)

Lemma addHotSpot_members spot f :
  _hotspotList (addHotSpot spot f) = _hotspotList f ++ [spot] /\
  _linePositions (addHotSpot spot f) = _linePositions f /\
  _buffer (addHotSpot spot f) = _buffer f.
Proof.
  unfold addHotSpot. cbv zeta.
  apply (for_up_invariant
           (fun g => _hotspotList g = _hotspotList f ++ [spot] /\
                     _linePositions g = _linePositions f /\
                     _buffer g = _buffer f)).
  - intros j g Hg. exact Hg.
  - repeat split.
Qed.

Lemma addHotSpot_indexed spot f : indexed f -> indexed (addHotSpot spot f).
Proof.
  intros Hf. unfold addHotSpot. cbv zeta.
  apply (for_up_invariant_range
           (fun g => _hotspotList g = _hotspotList f ++ [spot] /\ indexed g)).
  - intros j g Hj [Hlist Hg]. split; [exact Hlist|].
    intros line h [Heq|Hin].
    + inversion Heq; subst. split; [lia|]. cbn. rewrite Hlist.
      apply in_or_app. right. left. reflexivity.
    + exact (Hg line h Hin).
  - split; [reflexivity|].
    intros line h Hin. destruct (Hf line h Hin) as [Hrange Hl].
    split; [exact Hrange|]. cbn. apply in_or_app. left. exact Hl.
Qed.

Lemma reachable_indexed f : reachable f -> indexed f.
Proof.
  induction 1 as [|f _ _|buffer linePositions f _ IH|spot f _ IH].
  - intros line spot [].
  - intros line spot [].
  - exact IH.
  - apply addHotSpot_indexed. exact IH.
Qed.

Lemma values_In line h hotspots :
  In h (values line hotspots) <-> In (line, h) hotspots.
Proof.
  unfold values. rewrite in_map_iff. split.
  - intros [[k v] [Hv Hin]]. cbn in Hv. subst v.
    apply filter_In in Hin. destruct Hin as [Hin Hk]. cbn in Hk.
    apply Z.eqb_eq in Hk. subst k. exact Hin.
  - intros Hin. exists (line, h). split; [reflexivity|].
    apply filter_In. split; [exact Hin|]. cbn. apply Z.eqb_refl.
Qed.

Lemma hotSpotAt_loop_Some hotspots line column h :
  hotSpotAt_loop hotspots line column = Some h ->
  In h hotspots /\
  (startLine h = line -> startColumn h <= column) /\
  (endLine h = line -> column <= endColumn h).
Proof.
  induction hotspots as [|spot rest IH]; [discriminate|].
  cbn [hotSpotAt_loop]. intros H.
  destruct ((startLine spot =? line) && (column <? startColumn spot)) eqn:E1.
  { destruct (IH H) as (Hin & Hs & He). split; [right; exact Hin|]. split; assumption. }
  destruct ((endLine spot =? line) && (endColumn spot <? column)) eqn:E2.
  { destruct (IH H) as (Hin & Hs & He). split; [right; exact Hin|]. split; assumption. }
  injection H as <-.
  split; [left; reflexivity|].
  apply andb_false_iff in E1, E2. split.
  - intros Hl. destruct E1 as [E1|E1].
    + apply Z.eqb_neq in E1. contradiction.
    + apply Z.ltb_ge in E1. exact E1.
  - intros Hl. destruct E2 as [E2|E2].
    + apply Z.eqb_neq in E2. contradiction.
    + apply Z.ltb_ge in E2. exact E2.
Qed.

(** A hotspot that passes the test of the loop stops it, at itself or at a
    hotspot before it. *)
Lemma hotSpotAt_loop_found hotspots line column h :
  In h hotspots ->
  startLine h <> line \/ startColumn h <= column ->
  endLine h <> line \/ column <= endColumn h ->
  exists h', hotSpotAt_loop hotspots line column = Some h'.
Proof.
  intros Hin Hs He.
  induction hotspots as [|spot rest IH]; [destruct Hin|].
  cbn [hotSpotAt_loop].
  destruct ((startLine spot =? line) && (column <? startColumn spot)) eqn:E1;
    [|destruct ((endLine spot =? line) && (endColumn spot <? column)) eqn:E2;
      [|eexists; reflexivity]].
  - destruct Hin as [->|Hin]; [|exact (IH Hin)].
    apply andb_true_iff in E1. destruct E1 as [E1 E1'].
    apply Z.eqb_eq in E1. apply Z.ltb_lt in E1'. lia.
  - destruct Hin as [->|Hin]; [|exact (IH Hin)].
    apply andb_true_iff in E2. destruct E2 as [E2 E2'].
    apply Z.eqb_eq in E2. apply Z.ltb_lt in E2'. lia.
Qed.

Lemma values_cons line k (v : HotSpot) hotspots :
  values line ((k, v) :: hotspots)
  = if k =? line then v :: values line hotspots else values line hotspots.
Proof.
  unfold values. cbn [List.filter fst].
  destruct (k =? line); reflexivity.
Qed.

(** [addHotSpot] files the hotspot under each of its lines, in front of the
    hotspots filed there before. *)
Lemma for_up_values spot line n : forall i f,
  values line
    (_hotspots
       (for_up n i
          (fun line f =>
             {| _hotspots := (line, spot) :: _hotspots f; _hotspotList := _hotspotList f;
                _linePositions := _linePositions f; _buffer := _buffer f |}) f))
  = (if (i <=? line) && (line <? i + Z.of_nat n) then [spot] else [])
    ++ values line (_hotspots f).
Proof.
  induction n as [|n IH]; intros i f.
  - cbn [for_up]. destruct (Z.leb_spec i line); destruct (Z.ltb_spec line (i + Z.of_nat 0));
      try reflexivity; lia.
  - cbn [for_up]. rewrite IH. cbn [_hotspots].
    rewrite values_cons.
    destruct (Z.eqb_spec i line) as [->|Hne].
    + destruct (Z.leb_spec (line + 1) line); [lia|].
      destruct (Z.leb_spec line line); [|lia].
      destruct (Z.ltb_spec line (line + Z.of_nat (S n))); [|lia].
      reflexivity.
    + destruct (Z.leb_spec (i + 1) line); destruct (Z.leb_spec i line);
        destruct (Z.ltb_spec line (i + 1 + Z.of_nat n));
        destruct (Z.ltb_spec line (i + Z.of_nat (S n)));
        try reflexivity; lia.
Qed.

Lemma addHotSpot_values spot line f :
  values line (_hotspots (addHotSpot spot f))
  = (if (startLine spot <=? line) && (line <=? endLine spot) then [spot] else [])
    ++ values line (_hotspots f).
Proof.
  unfold addHotSpot. cbv zeta. rewrite for_up_values. cbn [_hotspots].
  f_equal.
  destruct (Z.leb_spec (startLine spot) line); [|reflexivity].
  cbn [andb].
  destruct (Z.ltb_spec line
              (startLine spot + Z.of_nat (Z.to_nat (endLine spot - startLine spot + 1))));
    destruct (Z.leb_spec line (endLine spot)); try reflexivity; lia.
Qed.

(** Every hotspot of the list is filed under each of its lines. *)
Lemma reachable_filed f :
  reachable f ->
  forall h line, In h (hotSpots f) -> startLine h <= line <= endLine h ->
                 In h (values line (_hotspots f)).
Proof.
  unfold hotSpots.
  induction 1 as [|f _ _|buffer linePositions f _ IH|spot f _ IH]; intros h line Hin Hline.
  - destruct Hin.
  - destruct Hin.
  - exact (IH h line Hin Hline).
  - rewrite addHotSpot_values. apply in_or_app.
    rewrite (proj1 (addHotSpot_members spot f)) in Hin.
    apply in_app_or in Hin. destruct Hin as [Hin|[<-|[]]].
    + right. exact (IH h line Hin Hline).
    + left. destruct (Z.leb_spec (startLine spot) line); [|lia].
      destruct (Z.leb_spec line (endLine spot)); [|lia]. left. reflexivity.
Qed.

(** C10: on a filter in any state it can reach, hotSpotAt(line, column)
    returns only a hotspot h of the filter with startLine <= line <= endLine,
    with column >= startColumn when line is its first line and column <=
    endColumn when line is its last line; on a line strictly between the
    first and the last line of a hotspot every column passes its test, so
    hotSpotAt finds a hotspot there, and finds this one right after it has
    been added. *)
Theorem hotSpotAt_is_a_band (f : Filter.t) :
  reachable f ->
  (forall line column h,
      hotSpotAt line column f = Some h ->
      In h (hotSpots f) /\
      startLine h <= line <= endLine h /\
      (line = startLine h -> startColumn h <= column) /\
      (line = endLine h -> column <= endColumn h)) /\
  (forall h line column,
      In h (hotSpots f) ->
      startLine h < line < endLine h ->
      hotSpotAt_loop [h] line column = Some h /\
      exists h', hotSpotAt line column f = Some h') /\
  (forall h line column,
      startLine h < line < endLine h ->
      hotSpotAt line column (addHotSpot h f) = Some h).
Proof.
  intros Hreach. split; [|split].
  - intros line column h Hat. unfold hotSpotAt in Hat.
    apply hotSpotAt_loop_Some in Hat. destruct Hat as (Hin & Hs & He).
    apply values_In in Hin.
    destruct (reachable_indexed f Hreach line h Hin) as [Hrange Hlist].
    split; [exact Hlist|]. split; [exact Hrange|].
    split; intros Heq; [apply Hs|apply He]; congruence.
  - intros h line column Hin Hline. split.
    + cbn [hotSpotAt_loop].
      destruct (Z.eqb_spec (startLine h) line); [lia|].
      destruct (Z.eqb_spec (endLine h) line); [lia|]. reflexivity.
    + unfold hotSpotAt.
      apply (hotSpotAt_loop_found _ line column h).
      * apply (reachable_filed f Hreach); [exact Hin|lia].
      * left. lia.
      * left. lia.
  - intros h line column Hline. unfold hotSpotAt.
    rewrite addHotSpot_values.
    destruct (Z.leb_spec (startLine h) line); [|lia].
    destruct (Z.leb_spec line (endLine h)); [|lia].
    cbn [andb app hotSpotAt_loop].
    destruct (Z.eqb_spec (startLine h) line); [lia|].
    destruct (Z.eqb_spec (endLine h) line); [lia|]. reflexivity.
Qed.

End FilterProofs.

(** C10 on a hotspot from (0, 5) to (2, 1): column 99 of line 1 is inside
    it. *)
Lemma hotSpotAt_is_a_band_witness :
  Filter.reachable Filter.create /\
  Filter.hotSpotAt 1 99 (Filter.addHotSpot RegExpFilter.sample_hotspot Filter.create)
  = Some RegExpFilter.sample_hotspot.
Proof.
  split; [apply Filter.reachable_create|].
  destruct (hotSpotAt_is_a_band Filter.create Filter.reachable_create) as (_ & _ & Hband).
  apply Hband. vm_compute. split; reflexivity.
Defined.

Section RegExpFilterProofs.
Context {D : Declarations}.
Import RegExpFilter.

Lemma getLineColumn_from_ext todo : forall i f g position,
  Filter._buffer f = Filter._buffer g ->
  Filter._linePositions f = Filter._linePositions g ->
  Filter.getLineColumn_from todo i f position = Filter.getLineColumn_from todo i g position.
Proof.
  induction todo as [|todo IH]; intros i f g position Hb Hl; [reflexivity|].
  cbn [Filter.getLineColumn_from]. rewrite Hb, Hl.
  rewrite (IH (i + 1) f g position Hb Hl). reflexivity.
Qed.

Lemma hotSpotOf_addHotSpot spot f m :
  hotSpotOf (Filter.addHotSpot spot f) m = hotSpotOf f m.
Proof.
  destruct (addHotSpot_members spot f) as (_ & Hl & Hb).
  unfold hotSpotOf, Filter.getLineColumn. rewrite Hl.
  rewrite !(getLineColumn_from_ext _ _ (Filter.addHotSpot spot f) f) by assumption.
  reflexivity.
Qed.

Lemma process_loop_stopped fuel re pos f :
  pos < 0 -> process_loop (S fuel) re pos f = Some f.
Proof.
  intros Hpos. cbn [process_loop].
  destruct (Z.leb_spec 0 pos); [lia|reflexivity].
Qed.

(** The loop of [process] ends, and adds the hotspots of its scan in
    order. *)
Lemma process_loop_scans re :
  wellBehaved re ->
  forall fuel pos f,
    0 <= pos ->
    (2 <= fuel)%nat ->
    Z.of_nat (length (Filter._buffer f)) - pos + 2 <= Z.of_nat fuel ->
    exists ms last f',
      process_loop fuel re pos f = Some f' /\
      scan re (Filter._buffer f) pos ms last /\
      Forall (fun m => 0 < matchedLength m) ms /\
      Filter.hotSpots f'
      = Filter.hotSpots f ++ List.map (hotSpotOf f) ms
        ++ List.map (hotSpotOf f) (option_list last) /\
      Filter._buffer f' = Filter._buffer f /\
      Filter._linePositions f' = Filter._linePositions f /\
      (Filter.reachable f -> Filter.reachable f').
Proof.
  intros Hre fuel.
  induction fuel as [|fuel IH]; intros pos f Hpos Hfuel Hbound; [lia|].
  cbn [process_loop].
  destruct (Z.leb_spec 0 pos); [|lia].
  pose proof (Hre (Filter._buffer f) pos Hpos) as Hm. cbv zeta in Hm.
  set (m := indexIn re (Filter._buffer f) pos) in *.
  destruct Hm as [Hnone|(Hat & Hlen & Hend)].
  - (* nothing matches *)
    rewrite Hnone. cbn [Z.leb Z.compare].
    exists [], None, f.
    split; [destruct fuel; [lia|apply process_loop_stopped; lia]|].
    split; [apply scan_end; fold m; lia|].
    split; [constructor|].
    split; [cbn; rewrite app_nil_r; reflexivity|].
    repeat split. tauto.
  - destruct (Z.leb_spec 0 (position m)); [|lia].
    destruct (Z.eqb_spec (matchedLength m) 0) as [Hzero|Hpositive].
    + (* a match of length zero stops the scan *)
      exists [], (Some m), (Filter.addHotSpot (hotSpotOf f m) f).
      split; [destruct fuel; [lia|apply process_loop_stopped; lia]|].
      split; [apply scan_empty; fold m; [lia|exact Hzero]|].
      split; [constructor|].
      destruct (addHotSpot_members (hotSpotOf f m) f) as (Hlist & Hl & Hb).
      split; [exact Hlist|].
      split; [exact Hb|]. split; [exact Hl|].
      intros Hr. apply Filter.reachable_addHotSpot. exact Hr.
    + (* a match of positive length: the scan goes on behind it *)
      destruct (addHotSpot_members (hotSpotOf f m) f) as (Hlist & Hl & Hb).
      destruct (IH (position m + matchedLength m) (Filter.addHotSpot (hotSpotOf f m) f))
        as (ms & last & f' & Hrun & Hscan & Hall & Hspots & Hb' & Hl' & Hr');
        [lia|lia|rewrite Hb; lia|].
      exists (m :: ms), last, f'.
      split; [exact Hrun|].
      split; [apply scan_match; fold m; [lia|exact Hpositive|]; rewrite <- Hb; exact Hscan|].
      split; [constructor; [lia|exact Hall]|].
      split.
      { rewrite Hspots. unfold Filter.hotSpots. rewrite Hlist.
        rewrite <- app_assoc. cbn [List.map app]. f_equal. f_equal.
        f_equal; apply map_ext; intros; apply hotSpotOf_addHotSpot. }
      split; [congruence|]. split; [congruence|].
      intros Hr. apply Hr'. apply Filter.reachable_addHotSpot. exact Hr.
Qed.

Lemma process_reachable fuel re f f' :
  wellBehaved re ->
  (length (Filter._buffer f) + 2 <= fuel)%nat ->
  Filter.reachable f ->
  process fuel re f = Some f' ->
  Filter.reachable f'.
Proof.
  intros Hre Hfuel Hr. unfold process. cbv zeta.
  destruct (isEmpty (pattern re) || isEmpty (pattern re)).
  - intros [= <-]. exact Hr.
  - destruct (process_loop_scans re Hre fuel 0 f) as (ms & last & g & Hrun & _ & _ & _ & _ & _ & Hg);
      [lia|lia|lia|].
    rewrite Hrun. intros [= <-]. exact (Hg Hr).
Qed.

(** The match that stops a scan has length zero. *)
Lemma scan_last_empty re text pos ms last :
  scan re text pos ms last ->
  forall m, last = Some m -> 0 <= position m /\ matchedLength m = 0.
Proof.
  induction 1 as [pos Hnone|pos Hat Hzero|pos ms last Hat Hlen Hscan IH];
    intros m Hlast.
  - discriminate Hlast.
  - injection Hlast as <-. split; assumption.
  - exact (IH m Hlast).
Qed.

(** The hotspot of a match of length zero begins and ends at the same
    place. *)
Lemma hotSpotOf_empty f m :
  matchedLength m = 0 ->
  Filter.endLine (hotSpotOf f m) = Filter.startLine (hotSpotOf f m) /\
  Filter.endColumn (hotSpotOf f m) = Filter.startColumn (hotSpotOf f m).
Proof.
  intros Hzero. unfold hotSpotOf. rewrite Hzero, Z.add_0_r.
  destruct (Filter.getLineColumn f (position m)) as [line column].
  split; reflexivity.
Qed.

(** C3: process ends (given fuel for one pass over the text) and leaves the
    buffer as it was; for an empty pattern it adds nothing; otherwise the
    hotspots it adds are, in order and with the line and column range
    getLineColumn derives from the line positions (stringWidth of the
    prefix), exactly those of the matches of positive length that its scan
    visits, followed by the hotspot of the first match of length zero, if
    the scan meets one.  That match is not skipped: it gets a hotspot that
    begins and ends at the same place, and the scan stops there, so that no
    match behind it gets a hotspot. *)
Theorem process_adds_hotspot_for_empty_match
        (re : QRegExp) (f : Filter.t) (fuel : nat) :
  wellBehaved re ->
  (length (Filter._buffer f) + 2 <= fuel)%nat ->
  exists f',
    process fuel re f = Some f' /\
    Filter._buffer f' = Filter._buffer f /\
    (isEmpty (pattern re) = true -> f' = f) /\
    (isEmpty (pattern re) = false ->
     exists ms last,
       scan re (Filter._buffer f) 0 ms last /\
       Forall (fun m => 0 < matchedLength m) ms /\
       Filter.hotSpots f'
       = Filter.hotSpots f ++ List.map (hotSpotOf f) ms
         ++ List.map (hotSpotOf f) (option_list last) /\
       (forall m, last = Some m ->
                  0 <= position m /\ matchedLength m = 0 /\
                  In (hotSpotOf f m) (Filter.hotSpots f') /\
                  Filter.endLine (hotSpotOf f m) = Filter.startLine (hotSpotOf f m) /\
                  Filter.endColumn (hotSpotOf f m) = Filter.startColumn (hotSpotOf f m))).
Proof.
  intros Hre Hfuel. unfold process. cbv zeta.
  destruct (isEmpty (pattern re)) eqn:Hempty; cbn [orb].
  - exists f. split; [reflexivity|]. split; [reflexivity|].
    split; [reflexivity|discriminate].
  - destruct (process_loop_scans re Hre fuel 0 f)
      as (ms & last & f' & Hrun & Hscan & Hall & Hspots & Hb & _); [lia|lia|lia|].
    exists f'. split; [exact Hrun|]. split; [exact Hb|].
    split; [discriminate|]. intros _.
    exists ms, last.
    split; [exact Hscan|]. split; [exact Hall|]. split; [exact Hspots|].
    intros m Hlast.
    destruct (scan_last_empty _ _ _ _ _ Hscan m Hlast) as [Hat Hzero].
    split; [exact Hat|]. split; [exact Hzero|].
    split; [|exact (hotSpotOf_empty f m Hzero)].
    rewrite Hspots, Hlast. cbn [option_list List.map].
    apply in_or_app. right. apply in_or_app. right. left. reflexivity.
Qed.

Lemma run_length_le ch s : (run_length ch s <= length s)%nat.
Proof.
  induction s as [|x s IH]; cbn; [lia|].
  destruct (x =? ch); lia.
Qed.

Lemma regexp_b_star_wellBehaved : wellBehaved regexp_b_star.
Proof.
  intros text offset Hoff. cbn.
  destruct (Z.ltb_spec offset 0); [lia|]. cbn [orb].
  destruct (Z.ltb_spec (Z.of_nat (length text)) offset); cbn; [left; reflexivity|].
  right. pose proof (run_length_le 98 (drop (Z.to_nat offset) text)) as Hrun.
  rewrite length_drop in Hrun. lia.
Qed.

End RegExpFilterProofs.

(** The pattern [b*] on the text [abb]: the match at offset 0 has length
    zero and leaves the only hotspot, from column 0 to column 0 of line 0. *)
Lemma process_adds_hotspot_for_empty_match_witness :
  RegExpFilter.wellBehaved RegExpFilter.regexp_b_star /\
  (length (Filter._buffer RegExpFilter.sample_filter) + 2 <= 5)%nat /\
  exists f',
    RegExpFilter.process (D := sample_declarations) 5 RegExpFilter.regexp_b_star
                         RegExpFilter.sample_filter = Some f' /\
    Filter._buffer f' = lit "abb" /\
    Filter.hotSpots f'
    = [ {| Filter.startLine := 0; Filter.startColumn := 0;
           Filter.endLine := 0; Filter.endColumn := 0;
           Filter.capturedTexts := [[]] |} ].
Proof.
  split; [exact regexp_b_star_wellBehaved|].
  split; [vm_compute; lia|].
  destruct (process_adds_hotspot_for_empty_match (D := sample_declarations)
              RegExpFilter.regexp_b_star RegExpFilter.sample_filter 5)
    as (f' & Hrun & Hbuffer & _).
  - exact regexp_b_star_wellBehaved.
  - vm_compute. lia.
  - exists f'. split; [exact Hrun|].
    vm_compute in Hrun. injection Hrun as <-.
    split; reflexivity.
Defined.

(** On the text [abb] with the pattern [b*] the match at offset 0 has
    length zero and gets the one hotspot of the filter, and the match of
    length 2 at offset 1, which a scan that skips empty matches reports,
    gets none. *)
Lemma process_empty_match_counterexample :
  RegExpFilter.isEmpty (RegExpFilter.pattern RegExpFilter.regexp_b_star) = false /\
  RegExpFilter.matchedLength
    (RegExpFilter.indexIn RegExpFilter.regexp_b_star (lit "abb") 0) = 0 /\
  option_map Filter.hotSpots
    (RegExpFilter.process (D := sample_declarations) 5 RegExpFilter.regexp_b_star
                          RegExpFilter.sample_filter)
  = Some [ {| Filter.startLine := 0; Filter.startColumn := 0;
              Filter.endLine := 0; Filter.endColumn := 0;
              Filter.capturedTexts := [[]] |} ] /\
  List.map (RegExpFilter.hotSpotOf (D := sample_declarations) RegExpFilter.sample_filter)
    (RegExpFilter.spec_matches 4 RegExpFilter.regexp_b_star (lit "abb") 0)
  = [ {| Filter.startLine := 0; Filter.startColumn := 1;
         Filter.endLine := 0; Filter.endColumn := 3;
         Filter.capturedTexts := [lit "bb"] |} ].
Proof. repeat split. Qed.

(** ** Cursor, margin and mode commands of [Screen.cpp] *)

Section ScreenCommandProofs.
Context {D : Declarations} {SD : Screen.ScreenDeclarations}.
Import Screen.

(** Unfolds the member assignments of the screen and of the whole state. *)
Ltac read_state :=
  cbn [on_base set_currentModes set_savedModes set_tabStops set_blockSelectionMode
       base _currentModes _savedModes _tabStops _blockSelectionMode
       set_topMargin set_bottomMargin
       set_screenLines set_scrolledLines set_lastScrolledRegion set_droppedLines
       set_lineProperties set_history set_cuX set_cuY set_currentForeground
       set_currentBackground set_currentRendition set_selBegin set_selTopLeft
       set_selBottomRight set_effectiveForeground set_effectiveBackground
       set_effectiveRendition set_savedState set_lastPos set_urlLinesRemoved
       _lines _columns _screenLines _scrolledLines _lastScrolledRegion _droppedLines
       _lineProperties _history _cuX _cuY _currentForeground _currentBackground
       _currentRendition _topMargin _bottomMargin _selBegin _selTopLeft
       _selBottomRight _effectiveForeground _effectiveBackground _effectiveRendition
       _savedState _lastPos _urlLinesRemoved
       cursorColumn cursorLine rendition foreground background] in *.

(** Decides the tests of the branch at hand. *)
Ltac branches :=
  repeat match goal with
         | |- context [?a <? ?b] => destruct (Z.ltb_spec a b)
         | |- context [?a <=? ?b] => destruct (Z.leb_spec a b)
         | |- context [?a =? ?b] => destruct (Z.eqb_spec a b)
         end.

Lemma same_cursor_refl s : same_cursor s s.
Proof. repeat split. Qed.

Lemma same_cursor_trans s1 s2 s3 :
  same_cursor s1 s2 -> same_cursor s2 s3 -> same_cursor s1 s3.
Proof.
  unfold same_cursor. intros H1 H2.
  destruct H1 as (?&?&?&?&?&?&?), H2 as (?&?&?&?&?&?&?).
  repeat split; congruence.
Qed.

Lemma clearSelection_same_cursor s : same_cursor s (clearSelection s).
Proof. unfold same_cursor, clearSelection. read_state. repeat split. Qed.

Lemma updateEffectiveRendition_same_cursor s :
  same_cursor s (updateEffectiveRendition s).
Proof.
  unfold updateEffectiveRendition. cbv zeta. read_state.
  destruct (Z.land (_currentRendition s) RE_REVERSE =? 0); cbn [negb]; read_state;
    (destruct (Z.land (_currentRendition s) RE_BOLD =? 0); cbn [negb]; read_state;
     (destruct (Z.land (_currentRendition s) RE_FAINT =? 0); cbn [negb]; read_state;
      unfold same_cursor; read_state; repeat split)).
Qed.

Lemma moveImage_rows_same_cursor dest sourceBegin sourceEnd s :
  same_cursor s (moveImage_rows dest sourceBegin sourceEnd s).
Proof.
  unfold moveImage_rows. cbv zeta. destruct (dest <? sourceBegin).
  - apply (for_up_invariant (same_cursor s)); [|apply same_cursor_refl].
    intros j s' Hs'. eapply same_cursor_trans; [exact Hs'|].
    unfold same_cursor; read_state; repeat split.
  - apply (for_down_invariant (same_cursor s)); [|apply same_cursor_refl].
    intros j s' Hs'. eapply same_cursor_trans; [exact Hs'|].
    unfold same_cursor; read_state; repeat split.
Qed.

Lemma moveImage_lastPos_same_cursor dest sourceBegin lines s :
  same_cursor s (moveImage_lastPos dest sourceBegin lines s).
Proof.
  unfold moveImage_lastPos. cbv zeta.
  destruct (negb (_lastPos s =? -1)); [|apply same_cursor_refl].
  match goal with |- context [if ?b then _ else _] => destruct b end;
    unfold same_cursor; read_state; repeat split.
Qed.

Lemma moveImage_selection_same_cursor dest sourceBegin sourceEnd s :
  same_cursor s (moveImage_selection dest sourceBegin sourceEnd s).
Proof.
  unfold moveImage_selection. cbv zeta.
  destruct (negb (_selBegin s =? -1)); [|apply same_cursor_refl].
  repeat match goal with
         | |- context [if ?b then _ else _] => destruct b; read_state
         end;
    unfold same_cursor, clearSelection; read_state; repeat split.
Qed.

Lemma moveImage_same_cursor dest sourceBegin sourceEnd s :
  same_cursor s (moveImage dest sourceBegin sourceEnd s).
Proof.
  rewrite moveImage_blocks.
  eapply same_cursor_trans; [apply moveImage_rows_same_cursor|].
  eapply same_cursor_trans; [apply moveImage_lastPos_same_cursor|].
  apply moveImage_selection_same_cursor.
Qed.

Lemma clearImage_same_cursor loca loce c s :
  same_cursor s (clearImage loca loce c s).
Proof.
  unfold clearImage. cbv zeta.
  apply (for_up_invariant (same_cursor s)).
  - intros j s' Hs'. eapply same_cursor_trans; [exact Hs'|].
    unfold same_cursor; read_state; repeat split.
  - destruct (_ && _); [apply clearSelection_same_cursor | apply same_cursor_refl].
Qed.

Lemma addHistLine_same_cursor s : same_cursor s (addHistLine s).
Proof.
  unfold addHistLine. cbv zeta.
  destruct (hasScroll s); read_state.
  - match goal with |- context [if ?b then _ else _] => destruct b end;
      read_state;
      repeat match goal with
             | |- context [if ?b then _ else _] => destruct b; read_state
             end;
      unfold same_cursor, clearSelection; read_state; repeat split.
  - repeat match goal with
           | |- context [if ?b then _ else _] => destruct b; read_state
           end;
      unfold same_cursor, clearSelection; read_state; repeat split.
Qed.

Lemma scrollUpFrom_same_cursor from n s : same_cursor s (scrollUpFrom from n s).
Proof.
  unfold scrollUpFrom.
  destruct (n <=? 0); [apply same_cursor_refl|].
  destruct (_bottomMargin s <? from); [apply same_cursor_refl|].
  cbv zeta.
  eapply same_cursor_trans; [|apply clearImage_same_cursor].
  eapply same_cursor_trans; [|apply moveImage_same_cursor].
  unfold same_cursor; read_state; repeat split.
Qed.

Lemma scrollDownFrom_same_cursor from n s : same_cursor s (scrollDownFrom from n s).
Proof.
  unfold scrollDownFrom. cbv zeta.
  assert (same_cursor s (set_scrolledLines (_scrolledLines s + n) s)) as H0
      by (unfold same_cursor; read_state; repeat split).
  destruct (n <=? 0); [exact H0|].
  match goal with |- context [if ?b then _ else _] => destruct b end; [exact H0|].
  eapply same_cursor_trans; [|apply clearImage_same_cursor].
  eapply same_cursor_trans; [|apply moveImage_same_cursor].
  exact H0.
Qed.

Lemma scrollUp_same_cursor n s : same_cursor s (scrollUp n s).
Proof.
  unfold scrollUp. cbv zeta.
  eapply same_cursor_trans; [|apply scrollUpFrom_same_cursor].
  destruct (_topMargin s =? 0); [apply addHistLine_same_cursor|apply same_cursor_refl].
Qed.

(** [index] and [reverseIndex] move the cursor by at most one line and
    write no other member that the cursor commands read. *)
Lemma index_cursor s :
  _lines (index s) = _lines s /\ _columns (index s) = _columns s /\
  _cuX (index s) = _cuX s /\
  _topMargin (index s) = _topMargin s /\ _bottomMargin (index s) = _bottomMargin s /\
  _savedState (index s) = _savedState s /\
  _cuY (index s) = if _cuY s =? _bottomMargin s then _cuY s
                   else if _cuY s <? _lines s - 1 then _cuY s + 1 else _cuY s.
Proof.
  unfold index.
  destruct (_cuY s =? _bottomMargin s).
  - destruct (scrollUp_same_cursor 1 s) as (?&?&?&?&?&?&?). repeat split; assumption.
  - destruct (_cuY s <? _lines s - 1); read_state; repeat split.
Qed.

Lemma reverseIndex_cursor s :
  _lines (reverseIndex s) = _lines s /\ _columns (reverseIndex s) = _columns s /\
  _cuX (reverseIndex s) = _cuX s /\
  _topMargin (reverseIndex s) = _topMargin s /\
  _bottomMargin (reverseIndex s) = _bottomMargin s /\
  _savedState (reverseIndex s) = _savedState s /\
  _cuY (reverseIndex s) = if _cuY s =? _topMargin s then _cuY s
                          else if 0 <? _cuY s then _cuY s - 1 else _cuY s.
Proof.
  unfold reverseIndex.
  destruct (_cuY s =? _topMargin s).
  - destruct (scrollDownFrom_same_cursor (_topMargin s) 1 s) as (?&?&?&?&?&?&?).
    repeat split; assumption.
  - destruct (0 <? _cuY s); read_state; repeat split.
Qed.

Lemma backspace_cursor s :
  _lines (backspace s) = _lines s /\ _columns (backspace s) = _columns s /\
  _cuX (backspace s) = Z.max 0 (_cuX s - 1) /\ _cuY (backspace s) = _cuY s /\
  _topMargin (backspace s) = _topMargin s /\
  _bottomMargin (backspace s) = _bottomMargin s /\
  _savedState (backspace s) = _savedState s.
Proof.
  unfold backspace. cbv zeta. read_state.
  match goal with |- context [if ?b then _ else _] => destruct b end;
    read_state; repeat split.
Qed.

Lemma restoreCursor_cursor s :
  _lines (restoreCursor s) = _lines s /\ _columns (restoreCursor s) = _columns s /\
  _cuX (restoreCursor s) = Z.min (cursorColumn (_savedState s)) (_columns s - 1) /\
  _cuY (restoreCursor s) = Z.min (cursorLine (_savedState s)) (_lines s - 1) /\
  _topMargin (restoreCursor s) = _topMargin s /\
  _bottomMargin (restoreCursor s) = _bottomMargin s /\
  _savedState (restoreCursor s) = _savedState s.
Proof.
  unfold restoreCursor. cbv zeta.
  match goal with |- context [updateEffectiveRendition ?x] =>
    destruct (updateEffectiveRendition_same_cursor x) as (-> & -> & -> & -> & -> & -> & ->)
  end.
  read_state. repeat split.
Qed.

(** One command keeps the cursor, the margins and the saved cursor on the
    screen. *)
Lemma execute_cursorOnScreen c st :
  0 < MAX_SCREEN_ARGUMENT ->
  cursorOnScreen (base st) -> cursorOnScreen (base (execute st c)).
Proof.
  intros Hmax (HX & HY & Ht & Htb & Hb & Hsx & Hsy).
  destruct c; cbn [execute].
  - unfold cursorOnScreen, cursorUp. cbv zeta. read_state. branches; lia.
  - unfold cursorOnScreen, cursorDown. cbv zeta. read_state. branches; lia.
  - unfold cursorOnScreen, cursorLeft. cbv zeta. read_state. branches; lia.
  - unfold cursorOnScreen, cursorRight. cbv zeta. read_state. branches; lia.
  - unfold cursorOnScreen, cursorNextLine. cbv zeta. read_state. branches; lia.
  - unfold cursorOnScreen, cursorPreviousLine. cbv zeta. read_state. branches; lia.
  - unfold cursorOnScreen, setCursorX, qBound. cbv zeta. read_state. branches; lia.
  - unfold cursorOnScreen, setCursorY, qBound. cbv zeta. read_state.
    destruct (getMode MODE_Origin st); branches; lia.
  - unfold cursorOnScreen, setCursorYX, setCursorY, setCursorX, qBound.
    cbv zeta. read_state.
    destruct (getMode MODE_Origin st); branches; lia.
  - unfold cursorOnScreen, toStartOfLine. read_state. lia.
  - read_state. destruct (backspace_cursor (base st)) as (H1&H2&H3&H4&H5&H6&H7).
    unfold cursorOnScreen. rewrite H1, H2, H3, H4, H5, H6, H7. lia.
  - unfold setMargins. cbv zeta.
    match goal with |- context [if negb ?b then _ else _] => destruct b eqn:Hrange end;
      cbn [negb]; [|unfold cursorOnScreen; lia].
    apply andb_prop in Hrange as [Hrange H3]. apply andb_prop in Hrange as [H1 H2].
    apply Z.leb_le in H1. apply Z.ltb_lt in H2, H3.
    unfold cursorOnScreen. read_state.
    match goal with |- context [if ?b then _ else _] => destruct b end; lia.
  - unfold setMode. cbv zeta.
    destruct (m =? MODE_Origin); unfold cursorOnScreen; read_state; lia.
  - unfold resetMode. cbv zeta.
    destruct (m =? MODE_Origin); unfold cursorOnScreen; read_state; lia.
  - unfold saveMode, cursorOnScreen; read_state; lia.
  - unfold restoreMode, cursorOnScreen; read_state; lia.
  - unfold saveCursor, cursorOnScreen; read_state; lia.
  - read_state. destruct (restoreCursor_cursor (base st)) as (H1&H2&H3&H4&H5&H6&H7).
    unfold cursorOnScreen. rewrite H1, H2, H3, H4, H5, H6, H7. lia.
  - read_state. destruct (index_cursor (base st)) as (H1&H2&H3&H4&H5&H6&H7).
    unfold cursorOnScreen. rewrite H1, H2, H3, H4, H5, H6, H7. branches; lia.
  - read_state. destruct (reverseIndex_cursor (base st)) as (H1&H2&H3&H4&H5&H6&H7).
    unfold cursorOnScreen. rewrite H1, H2, H3, H4, H5, H6, H7. branches; lia.
  - read_state. unfold nextLine. cbv zeta.
    destruct (index_cursor (toStartOfLine (base st))) as (H1&H2&H3&H4&H5&H6&H7).
    unfold cursorOnScreen. rewrite H1, H2, H3, H4, H5, H6, H7.
    unfold toStartOfLine. read_state. branches; lia.
  - unfold newLine. cbv zeta.
    destruct (getMode MODE_NewLine st); read_state.
    + destruct (index_cursor (toStartOfLine (base st))) as (H1&H2&H3&H4&H5&H6&H7).
      unfold cursorOnScreen. rewrite H1, H2, H3, H4, H5, H6, H7.
      unfold toStartOfLine. read_state. branches; lia.
    + destruct (index_cursor (base st)) as (H1&H2&H3&H4&H5&H6&H7).
      unfold cursorOnScreen. rewrite H1, H2, H3, H4, H5, H6, H7. branches; lia.
Qed.

(** No command changes the size of the mode arrays. *)
Lemma execute_modes_length c st :
  length (_currentModes (execute st c)) = length (_currentModes st) /\
  length (_savedModes (execute st c)) = length (_savedModes st).
Proof.
  destruct c; cbn [execute];
    unfold setCursorYX, setCursorY, setMargins, setMode, resetMode, saveMode,
      restoreMode, newLine; cbv zeta;
    repeat match goal with
           | |- context [if ?b then _ else _] => destruct b
           end;
    read_state; rewrite ?length_set_at; split; reflexivity.
Qed.

(** The mode indices that lie inside the arrays before a command do so
    after it. *)
Lemma execute_modesInRange c st c' :
  modesInRange (execute st c) c' = modesInRange st c'.
Proof.
  destruct (execute_modes_length c st) as [Hcurrent Hsaved].
  unfold modesInRange, inModes. rewrite Hcurrent, Hsaved. reflexivity.
Qed.

(** X3: Whatever cursor, margin and mode commands a terminal runs, in any
    order and with any arguments to the cursor and margin commands, the
    cursor stays on the screen ([0 <= _cuX < _columns],
    [0 <= _cuY < _lines]), the margins stay in order and on the screen, the
    saved cursor stays non-negative and the mode arrays keep their size,
    provided [MAX_SCREEN_ARGUMENT] is positive and every mode index a
    command reads or writes lies inside the mode arrays (the source indexes
    them unchecked). *)
Theorem cursor_commands_keep_cursor_on_screen (cs : list Command) (st : State) :
  0 < MAX_SCREEN_ARGUMENT ->
  forallb (modesInRange st) cs = true ->
  cursorOnScreen (base st) ->
  cursorOnScreen (base (executeAll cs st)) /\
  length (_currentModes (executeAll cs st)) = length (_currentModes st) /\
  length (_savedModes (executeAll cs st)) = length (_savedModes st).
Proof.
  intros Hmax. unfold executeAll. revert st.
  induction cs as [|c cs IH]; intros st Hin Hst; cbn [fold_left].
  - repeat split; apply Hst.
  - cbn [forallb] in Hin. apply andb_prop in Hin as [_ Hin].
    destruct (execute_modes_length c st) as [Hcurrent Hsaved].
    destruct (IH (execute st c)) as (G & Gcurrent & Gsaved).
    + rewrite <- Hin. clear. induction cs as [|c' cs IH]; [reflexivity|].
      cbn [forallb]. rewrite IH, execute_modesInRange. reflexivity.
    + apply execute_cursorOnScreen; assumption.
    + split; [exact G|]. split; congruence.
Qed.

(** One relative motion keeps the cursor inside the scrolling region. *)
Lemma execute_cursorInRegion c st :
  relative c = true ->
  0 < MAX_SCREEN_ARGUMENT ->
  cursorInRegion (base st) ->
  cursorInRegion (base (execute st c)) /\
  _topMargin (base (execute st c)) = _topMargin (base st) /\
  _bottomMargin (base (execute st c)) = _bottomMargin (base st).
Proof.
  intros Hrel Hmax [Hlo Hhi].
  destruct c; try discriminate Hrel; cbn [execute].
  - unfold cursorInRegion, cursorUp. cbv zeta. read_state.
    repeat split; branches; lia.
  - unfold cursorInRegion, cursorDown. cbv zeta. read_state.
    repeat split; branches; lia.
  - unfold cursorInRegion, cursorLeft. cbv zeta. read_state. repeat split; lia.
  - unfold cursorInRegion, cursorRight. cbv zeta. read_state. repeat split; lia.
  - unfold cursorInRegion, toStartOfLine. read_state. repeat split; lia.
  - read_state. destruct (backspace_cursor (base st)) as (H1&H2&H3&H4&H5&H6&H7).
    unfold cursorInRegion. rewrite H4, H5, H6. repeat split; lia.
  - read_state. destruct (index_cursor (base st)) as (H1&H2&H3&H4&H5&H6&H7).
    unfold cursorInRegion. rewrite H4, H5, H7. repeat split; branches; lia.
  - read_state. destruct (reverseIndex_cursor (base st)) as (H1&H2&H3&H4&H5&H6&H7).
    unfold cursorInRegion. rewrite H4, H5, H7. repeat split; branches; lia.
  - read_state. unfold nextLine. cbv zeta.
    destruct (index_cursor (toStartOfLine (base st))) as (H1&H2&H3&H4&H5&H6&H7).
    unfold cursorInRegion. rewrite H4, H5, H7.
    unfold toStartOfLine. read_state. repeat split; branches; lia.
  - unfold newLine. cbv zeta.
    destruct (getMode MODE_NewLine st); read_state.
    + destruct (index_cursor (toStartOfLine (base st))) as (H1&H2&H3&H4&H5&H6&H7).
      unfold cursorInRegion. rewrite H4, H5, H7.
      unfold toStartOfLine. read_state. repeat split; branches; lia.
    + destruct (index_cursor (base st)) as (H1&H2&H3&H4&H5&H6&H7).
      unfold cursorInRegion. rewrite H4, H5, H7. repeat split; branches; lia.
Qed.

(** X4: A cursor inside the scrolling region stays inside it under any
    sequence of relative motions (cursor up, down, left, right, carriage
    return, backspace, index, reverse index, next line, new line), whatever
    their arguments; the margins themselves do not move. *)
Theorem relative_motions_stay_in_region (cs : list Command) (st : State) :
  forallb relative cs = true ->
  0 < MAX_SCREEN_ARGUMENT ->
  cursorInRegion (base st) ->
  cursorInRegion (base (executeAll cs st)) /\
  _topMargin (base (executeAll cs st)) = _topMargin (base st) /\
  _bottomMargin (base (executeAll cs st)) = _bottomMargin (base st).
Proof.
  intros Hrel Hmax. unfold executeAll. revert st.
  induction cs as [|c cs IH]; intros st Hst; cbn [fold_left].
  - repeat split; apply Hst.
  - cbn [forallb] in Hrel. apply andb_prop in Hrel as [Hc Hcs].
    destruct (execute_cursorInRegion c st Hc Hmax Hst) as (H1 & H2 & H3).
    destruct (IH Hcs (execute st c)) as (G1 & G2 & G3); [exact H1|].
    repeat split; [apply G1|apply G1|congruence|congruence].
Qed.

End ScreenCommandProofs.

(** Evaluates a closed comparison, or a conjunction of such. *)
Ltac evaluate := vm_compute; repeat split; (reflexivity || discriminate).

Lemma cursor_commands_keep_cursor_on_screen_witness :
  0 < Screen.MAX_SCREEN_ARGUMENT (ScreenDeclarations := Screen.sample_screen_declarations) /\
  forallb (Screen.modesInRange (SD := Screen.sample_screen_declarations)
             (Screen.sample_state (D := sample_declarations)))
    [Screen.SetMargins 2 3; Screen.SetMode 0; Screen.CursorDown 50000;
     Screen.SaveMode 6; Screen.CursorRight 7; Screen.Index;
     Screen.SetCursorYX 0 99; Screen.ResetMode 0; Screen.SetMode 5;
     Screen.NewLine; Screen.RestoreMode 6; Screen.RestoreCursor] = true /\
  Screen.cursorOnScreen
    (Screen.base (Screen.sample_state (D := sample_declarations))) /\
  Screen.cursorOnScreen
    (Screen.base
       (Screen.executeAll (D := sample_declarations)
          (SD := Screen.sample_screen_declarations)
          [Screen.SetMargins 2 3; Screen.SetMode 0; Screen.CursorDown 50000;
           Screen.SaveMode 6; Screen.CursorRight 7; Screen.Index;
           Screen.SetCursorYX 0 99; Screen.ResetMode 0; Screen.SetMode 5;
           Screen.NewLine; Screen.RestoreMode 6; Screen.RestoreCursor]
          (Screen.sample_state (D := sample_declarations)))).
Proof.
  assert (Screen.cursorOnScreen
            (Screen.base (Screen.sample_state (D := sample_declarations)))) as Hst.
  { vm_compute. repeat split; discriminate. }
  split; [reflexivity|]. split; [vm_compute; reflexivity|]. split; [exact Hst|].
  destruct (cursor_commands_keep_cursor_on_screen (D := sample_declarations)
              (SD := Screen.sample_screen_declarations)
              [Screen.SetMargins 2 3; Screen.SetMode 0; Screen.CursorDown 50000;
               Screen.SaveMode 6; Screen.CursorRight 7; Screen.Index;
               Screen.SetCursorYX 0 99; Screen.ResetMode 0; Screen.SetMode 5;
               Screen.NewLine; Screen.RestoreMode 6; Screen.RestoreCursor]
              (Screen.sample_state (D := sample_declarations)))
    as (Hscreen & _).
  - reflexivity.
  - vm_compute. reflexivity.
  - exact Hst.
  - exact Hscreen.
Defined.

Lemma relative_motions_stay_in_region_witness :
  Screen.cursorInRegion
    (Screen.base
       (Screen.executeAll (D := sample_declarations)
          (SD := Screen.sample_screen_declarations)
          [Screen.CursorUp 1; Screen.CursorDown 50000; Screen.Index; Screen.NextLine;
           Screen.CursorUp 9; Screen.ReverseIndex]
          (Screen.sample_state (D := sample_declarations)))).
Proof.
  apply (relative_motions_stay_in_region (D := sample_declarations)
           (SD := Screen.sample_screen_declarations)).
  - reflexivity.
  - reflexivity.
  - vm_compute. split; discriminate.
Defined.

(** ** Editing commands of [Screen.cpp] *)

Section ScreenEditingProofs.
Context {D : Declarations} {SD : Screen.ScreenDeclarations}.
Import Screen.

Ltac read_screen :=
  cbn [on_base set_currentModes set_savedModes set_tabStops set_blockSelectionMode
       base _currentModes _savedModes _tabStops _blockSelectionMode
       set_topMargin set_bottomMargin
       set_screenLines set_scrolledLines set_lastScrolledRegion set_droppedLines
       set_lineProperties set_history set_cuX set_cuY set_currentForeground
       set_currentBackground set_currentRendition set_selBegin set_selTopLeft
       set_selBottomRight set_effectiveForeground set_effectiveBackground
       set_effectiveRendition set_savedState set_lastPos set_urlLinesRemoved
       _lines _columns _screenLines _scrolledLines _lastScrolledRegion _droppedLines
       _lineProperties _history _cuX _cuY _currentForeground _currentBackground
       _currentRendition _topMargin _bottomMargin _selBegin _selTopLeft
       _selBottomRight _effectiveForeground _effectiveBackground _effectiveRendition
       _savedState _lastPos _urlLinesRemoved
       cursorColumn cursorLine rendition foreground background] in *.

Ltac decide_tests :=
  repeat match goal with
         | |- context [?a <? ?b] => destruct (Z.ltb_spec a b)
         | |- context [?a <=? ?b] => destruct (Z.leb_spec a b)
         | |- context [?a =? ?b] => destruct (Z.eqb_spec a b)
         end.

(** *** Reading lists by an [int] index *)

Lemma at_nat {A} (d : A) (l : list A) x :
  0 <= x -> at_ d l x = default d (l !! Z.to_nat x).
Proof. intros Hx. unfold at_. destruct (Z.ltb_spec x 0); [lia|reflexivity]. Qed.

Lemma at_beyond {A} (d : A) (l : list A) x :
  Z.of_nat (length l) <= x -> at_ d l x = d.
Proof.
  intros Hx. rewrite at_nat by lia.
  rewrite lookup_ge_None_2 by lia. reflexivity.
Qed.

Lemma at_default_irrelevant {A} (d d' : A) (l : list A) x :
  0 <= x < Z.of_nat (length l) -> at_ d l x = at_ d' l x.
Proof.
  intros Hx. rewrite !at_nat by lia.
  destruct (lookup_lt_is_Some_2 l (Z.to_nat x)) as [v Hv]; [lia|].
  rewrite Hv. reflexivity.
Qed.

Lemma at_app {A} (d : A) (l1 l2 : list A) x :
  0 <= x ->
  at_ d (l1 ++ l2) x
  = if x <? Z.of_nat (length l1) then at_ d l1 x else at_ d l2 (x - Z.of_nat (length l1)).
Proof.
  intros Hx. destruct (Z.ltb_spec x (Z.of_nat (length l1))).
  - rewrite !at_nat by lia. rewrite lookup_app_l by lia. reflexivity.
  - rewrite !at_nat by lia. rewrite lookup_app_r by lia.
    do 2 f_equal. lia.
Qed.

Lemma at_take {A} (d : A) (l : list A) n x :
  0 <= x < n -> at_ d (take (Z.to_nat n) l) x = at_ d l x.
Proof.
  intros Hx. rewrite !at_nat by lia. rewrite lookup_take_lt by lia. reflexivity.
Qed.

Lemma at_drop {A} (d : A) (l : list A) n x :
  0 <= x -> 0 <= n -> at_ d (drop (Z.to_nat n) l) x = at_ d l (n + x).
Proof.
  intros Hx Hn. rewrite !at_nat by lia. rewrite lookup_drop.
  do 2 f_equal. lia.
Qed.

Lemma at_replicate {A} (d v : A) n x :
  0 <= x < n -> at_ d (replicate (Z.to_nat n) v) x = v.
Proof.
  intros Hx. rewrite at_nat by lia.
  rewrite (lookup_replicate_2 (Z.to_nat n) v (Z.to_nat x)) by lia. reflexivity.
Qed.

Lemma at_resize {A} (d v : A) (l : list A) n x :
  0 <= x < n ->
  at_ d (resize (Z.to_nat n) v l) x = if x <? Z.of_nat (length l) then at_ d l x else v.
Proof.
  intros Hx. rewrite !at_nat by lia.
  destruct (Z.ltb_spec x (Z.of_nat (length l))).
  - rewrite lookup_resize by lia. reflexivity.
  - rewrite lookup_resize_new by lia. reflexivity.
Qed.

Lemma set_at_same {A} (l : list A) (d : A) i :
  0 <= i < Z.of_nat (length l) -> set_at l i (at_ d l i) = l.
Proof.
  intros Hi. unfold set_at. destruct (Z.ltb_spec i 0); [lia|].
  rewrite at_nat by lia.
  destruct (lookup_lt_is_Some_2 l (Z.to_nat i)) as [v Hv]; [lia|].
  rewrite Hv. cbn [default]. apply list_insert_id. exact Hv.
Qed.

Lemma set_at_set_at {A} (l : list A) i x y :
  set_at (set_at l i x) i y = set_at l i y.
Proof.
  unfold set_at. destruct (i <? 0); [reflexivity|]. apply list_insert_insert_eq.
Qed.

(** *** [deleteChars] *)

(** The loop of [deleteChars] appends its cell [n] times to the row of the
    cursor. *)
Lemma append_loop (c : Character.t) n : forall i s,
  0 <= _cuY s < Z.of_nat (length (_screenLines s)) ->
  let s' := for_up n i
              (fun _ s =>
                 set_screenLines
                   (set_at (_screenLines s) (_cuY s)
                           (at_ [] (_screenLines s) (_cuY s) ++ [c])) s) s in
  _screenLines s'
  = set_at (_screenLines s) (_cuY s)
           (at_ [] (_screenLines s) (_cuY s) ++ replicate n c) /\
  _cuX s' = _cuX s /\ _cuY s' = _cuY s.
Proof.
  induction n as [|n IH]; intros i s Hy; cbn [for_up replicate].
  - rewrite app_nil_r, set_at_same by lia. repeat split.
  - match goal with |- context [for_up n (i + 1) ?body ?x] =>
      destruct (IH (i + 1) x) as (-> & -> & ->)
    end.
    + read_screen. rewrite length_set_at. exact Hy.
    + read_screen. rewrite at_set_at by lia. rewrite Z.eqb_refl.
      rewrite set_at_set_at, <- app_assoc. repeat split.
Qed.

(** X5: [deleteChars(n)] with the cursor inside the row deletes
    [k = min(max(n,1), count - _cuX)] cells at the cursor: the row keeps its
    length, the cells left of the cursor stay, the cells right of the deleted
    ones move left by [k], and the last [k] cells become spaces with the
    effective colours and rendition; the other rows and the cursor stay.
    With the cursor at or beyond the end of the row nothing changes. *)
Theorem deleteChars_shifts_row (n : Z) (s : Screen) :
  0 <= _cuX s ->
  0 <= _cuY s < Z.of_nat (length (_screenLines s)) ->
  let line := at_ [] (_screenLines s) (_cuY s) in
  let count := Z.of_nat (length line) in
  let k := Z.min (Z.max n 1) (count - _cuX s) in
  let space := {| Character.character := 32;
                  Character.foregroundColor := _effectiveForeground s;
                  Character.backgroundColor := _effectiveBackground s;
                  Character.rendition := _effectiveRendition s;
                  Character.isRealCharacter := false |} in
  let s' := deleteChars n s in
  (count <= _cuX s -> s' = s) /\
  (_cuX s < count ->
   Z.of_nat (length (at_ [] (_screenLines s') (_cuY s))) = count /\
   (forall d x, 0 <= x < count ->
      at_ d (at_ [] (_screenLines s') (_cuY s)) x
      = if x <? _cuX s then at_ d line x
        else if x <? count - k then at_ d line (x + k)
        else space) /\
   (forall y, y <> _cuY s ->
      at_ [] (_screenLines s') y = at_ [] (_screenLines s) y) /\
   _cuX s' = _cuX s /\ _cuY s' = _cuY s).
Proof.
  intros HX HY line count k space s'.
  subst s'. unfold deleteChars. cbv zeta. fold line. fold count.
  destruct (Z.leb_spec count (_cuX s)) as [Hle|Hlt].
  { split; [reflexivity|lia]. }
  split; [lia|]. intros _.
  set (n1 := if n <? 1 then 1 else n).
  assert ((if count <? _cuX s + n1 then count - _cuX s else n1) = k) as ->.
  { subst n1 k. destruct (Z.ltb_spec n 1); decide_tests; lia. }
  assert (1 <= k <= count - _cuX s) as Hk by (subst k; lia).
  match goal with |- context [for_up _ 0 ?body ?x] =>
    destruct (append_loop space (Z.to_nat k) 0 x) as (Hrows & Hx' & Hy')
  end.
  { read_screen. rewrite length_set_at. exact HY. }
  read_screen. cbv zeta in Hrows, Hx', Hy'. fold space.
  rewrite Hrows, Hx', Hy'. clear Hrows Hx' Hy'.
  assert (at_ [] (set_at (_screenLines s) (_cuY s) (QVector_remove (_cuX s) k line))
              (_cuY s) = QVector_remove (_cuX s) k line) as ->.
  { rewrite at_set_at by lia. rewrite Z.eqb_refl. reflexivity. }
  rewrite set_at_set_at.
  assert (length (QVector_remove (_cuX s) k line ++ replicate (Z.to_nat k) space)
          = length line) as Hlen.
  { unfold QVector_remove. rewrite !length_app, length_take, length_drop, length_replicate.
    subst count. lia. }
  split; [|split; [|split; [|split; reflexivity]]].
  - rewrite at_set_at by lia. rewrite Z.eqb_refl. rewrite Hlen. reflexivity.
  - intros d x Hx. rewrite at_set_at by lia. rewrite Z.eqb_refl.
    unfold QVector_remove.
    rewrite at_app by lia. rewrite length_app, length_take, length_drop.
    destruct (Z.ltb_spec x (Z.of_nat (Z.to_nat (_cuX s) `min` length line
                                      + (length line - Z.to_nat (_cuX s + k))))).
    + rewrite at_app by lia. rewrite length_take.
      destruct (Z.ltb_spec x (Z.of_nat (Z.to_nat (_cuX s) `min` length line))).
      * rewrite at_take by lia.
        destruct (Z.ltb_spec x (_cuX s)); [reflexivity|subst count; lia].
      * rewrite at_drop by lia.
        destruct (Z.ltb_spec x (_cuX s)); [subst count; lia|].
        destruct (Z.ltb_spec x (count - k)); [|subst count; lia].
        f_equal. subst count. lia.
    + destruct (Z.ltb_spec x (_cuX s)); [subst count; lia|].
      destruct (Z.ltb_spec x (count - k)); [subst count; lia|].
      apply at_replicate. subst count. lia.
  - intros y Hne. rewrite at_set_at by lia.
    destruct (Z.eqb_spec y (_cuY s)); [contradiction|reflexivity].
Qed.

(** *** [insertChars] *)

(** X6: [insertChars(n)] puts [k = max(n,1)] cells [Character(' ')] at the
    cursor and moves the cells from the cursor on to the right by [k]; a row
    that ended left of the cursor is first grown up to the cursor by
    default cells; what comes to lie beyond the last column is dropped, so
    the row never gets longer than the screen is wide.  The other rows and
    the cursor stay. *)
Theorem insertChars_shifts_row (n : Z) (s : Screen) :
  0 <= _cuX s ->
  0 <= _columns s ->
  0 <= _cuY s < Z.of_nat (length (_screenLines s)) ->
  let line := at_ [] (_screenLines s) (_cuY s) in
  let count := Z.of_nat (length line) in
  let k := Z.max n 1 in
  let s' := insertChars n s in
  let line' := at_ [] (_screenLines s') (_cuY s) in
  Z.of_nat (length line') = Z.min (_columns s) (Z.max count (_cuX s) + k) /\
  (forall d x, 0 <= x < Z.of_nat (length line') ->
     at_ d line' x
     = if x <? _cuX s then (if x <? count then at_ d line x else Character_default)
       else if x <? _cuX s + k then Character_space
       else at_ d line (x - k)) /\
  (forall y, y <> _cuY s ->
     at_ [] (_screenLines s') y = at_ [] (_screenLines s) y) /\
  _cuX s' = _cuX s /\ _cuY s' = _cuY s.
Proof.
  intros HX HC HY line count k s' line'.
  subst line' s'. unfold insertChars. cbv zeta. fold line. fold count.
  assert ((if n <? 1 then 1 else n) = k) as -> by (subst k; decide_tests; lia).
  assert (1 <= k) as Hk by (subst k; lia).
  (* the row grown up to the cursor *)
  set (grown := if count <? _cuX s then resize_line (_cuX s) line else line).
  set (s1 := if count <? _cuX s then _ else s).
  assert (_screenLines s1 = set_at (_screenLines s) (_cuY s) grown /\
          _cuX s1 = _cuX s /\ _cuY s1 = _cuY s /\ _columns s1 = _columns s)
    as (Hrows1 & Hx1 & Hy1 & Hc1).
  { subst s1 grown. destruct (count <? _cuX s); read_screen.
    - repeat split.
    - split; [symmetry; apply set_at_same; lia|repeat split]. }
  assert (Z.of_nat (length grown) = Z.max count (_cuX s)) as Hgrown.
  { subst grown. destruct (Z.ltb_spec count (_cuX s)).
    - unfold resize_line. rewrite length_resize. lia.
    - subst count. lia. }
  assert (forall d x, 0 <= x < Z.of_nat (length grown) ->
            at_ d grown x = if x <? count then at_ d line x else Character_default)
    as Hgrown_at.
  { intros d x Hx. subst grown. destruct (Z.ltb_spec count (_cuX s)).
    - unfold resize_line. rewrite at_resize by lia. reflexivity.
    - destruct (Z.ltb_spec x count); [reflexivity|subst count; lia]. }
  read_screen. rewrite Hrows1, Hx1, Hy1, Hc1.
  rewrite !at_set_at by (rewrite ?length_set_at; lia).
  rewrite !Z.eqb_refl. rewrite !set_at_set_at.
  set (inserted := QVector_insert (_cuX s) k Character_space grown).
  assert (Z.of_nat (length inserted) = Z.max count (_cuX s) + k) as Hins.
  { subst inserted. unfold QVector_insert.
    rewrite !length_app, length_take, length_drop, length_replicate. lia. }
  assert (forall d x, 0 <= x < Z.of_nat (length inserted) ->
            at_ d inserted x
            = if x <? _cuX s then (if x <? count then at_ d line x else Character_default)
              else if x <? _cuX s + k then Character_space
              else at_ d line (x - k)) as Hins_at.
  { intros d x Hx. subst inserted. unfold QVector_insert.
    rewrite at_app by lia. rewrite length_take.
    replace (Z.of_nat (Z.to_nat (_cuX s) `min` length grown)) with (_cuX s) by lia.
    destruct (Z.ltb_spec x (_cuX s)).
    - rewrite at_take by lia. apply Hgrown_at. lia.
    - rewrite at_app by lia. rewrite length_replicate.
      replace (Z.of_nat (Z.to_nat k)) with k by lia.
      destruct (Z.ltb_spec (x - _cuX s) k).
      + destruct (Z.ltb_spec x (_cuX s + k)); [|lia].
        apply at_replicate. lia.
      + destruct (Z.ltb_spec x (_cuX s + k)); [lia|].
        rewrite at_drop by lia.
        replace (_cuX s + (x - _cuX s - k)) with (x - k) by lia.
        rewrite Hgrown_at by lia.
        destruct (Z.ltb_spec (x - k) count); [reflexivity|lia]. }
  destruct (Z.ltb_spec (_columns s) (Z.of_nat (length inserted))) as [Hcut|Hfit];
    read_screen; rewrite ?Hrows1, ?Hx1, ?Hy1, ?Hc1;
    rewrite ?at_set_at by (rewrite ?length_set_at; lia);
    rewrite ?Z.eqb_refl, ?set_at_set_at.
  - unfold resize_line. rewrite length_resize.
    split; [lia|]. split; [|split; [|split; reflexivity]].
    + intros d x Hx. rewrite at_resize by lia.
      destruct (Z.ltb_spec x (Z.of_nat (length inserted))); [|lia].
      apply Hins_at. lia.
    + intros y Hne. rewrite at_set_at by lia.
      destruct (Z.eqb_spec y (_cuY s)); [contradiction|reflexivity].
  - split; [lia|]. split; [|split; [|split; reflexivity]].
    + intros d x Hx. apply Hins_at. exact Hx.
    + intros y Hne. rewrite at_set_at by lia.
      destruct (Z.eqb_spec y (_cuY s)); [contradiction|reflexivity].
Qed.

End ScreenEditingProofs.

Lemma deleteChars_shifts_row_witness :
  at_ (Screen.DefaultChar (D := sample_declarations))
      (at_ [] (Screen._screenLines
                 (Screen.deleteChars 2 (Screen.sample_screen (D := sample_declarations)))) 3)
      0
  = Screen.plain (D := sample_declarations) 122 /\
  Z.of_nat (length (at_ [] (Screen._screenLines
                              (Screen.deleteChars 2
                                 (Screen.sample_screen (D := sample_declarations)))) 3))
  = 3.
Proof.
  destruct (deleteChars_shifts_row 2 (Screen.sample_screen (D := sample_declarations)))
    as [_ Hrow].
  - evaluate.
  - evaluate.
  - destruct Hrow as (Hlen & Hcells & _); [vm_compute; reflexivity|].
    split; [|exact Hlen].
    exact (Hcells (Screen.DefaultChar (D := sample_declarations)) 0 ltac:(evaluate)).
Defined.

Lemma insertChars_shifts_row_witness :
  at_ [] (Screen._screenLines
            (Screen.insertChars (D := sample_declarations)
               (SD := Screen.sample_screen_declarations) 2
               (Screen.sample_screen (D := sample_declarations)))) 3
  = [Screen.Character_space (ScreenDeclarations := Screen.sample_screen_declarations);
     Screen.Character_space (ScreenDeclarations := Screen.sample_screen_declarations);
     Screen.plain (D := sample_declarations) 120] /\
  Z.of_nat (length (at_ [] (Screen._screenLines
                              (Screen.insertChars (D := sample_declarations)
               (SD := Screen.sample_screen_declarations) 2
                                 (Screen.sample_screen (D := sample_declarations)))) 3))
  = Z.min 3 (Z.max 3 0 + Z.max 2 1).
Proof.
  split; [reflexivity|].
  apply (insertChars_shifts_row (D := sample_declarations)
           (SD := Screen.sample_screen_declarations) 2
           (Screen.sample_screen (D := sample_declarations))); evaluate.
Defined.

Section ScreenClearProofs.
Context {D : Declarations} {SD : Screen.ScreenDeclarations}.
Import Screen.

Ltac read_screen :=
  cbn [on_base set_currentModes set_savedModes set_tabStops set_blockSelectionMode
       base _currentModes _savedModes _tabStops _blockSelectionMode
       set_topMargin set_bottomMargin
       set_screenLines set_scrolledLines set_lastScrolledRegion set_droppedLines
       set_lineProperties set_history set_cuX set_cuY set_currentForeground
       set_currentBackground set_currentRendition set_selBegin set_selTopLeft
       set_selBottomRight set_effectiveForeground set_effectiveBackground
       set_effectiveRendition set_savedState set_lastPos set_urlLinesRemoved
       _lines _columns _screenLines _scrolledLines _lastScrolledRegion _droppedLines
       _lineProperties _history _cuX _cuY _currentForeground _currentBackground
       _currentRendition _topMargin _bottomMargin _selBegin _selTopLeft
       _selBottomRight _effectiveForeground _effectiveBackground _effectiveRendition
       _savedState _lastPos _urlLinesRemoved
       cursorColumn cursorLine rendition foreground background] in *.

Ltac decide_tests :=
  repeat match goal with
         | |- context [?a <? ?b] => destruct (Z.ltb_spec a b)
         | |- context [?a <=? ?b] => destruct (Z.leb_spec a b)
         | |- context [?a =? ?b] => destruct (Z.eqb_spec a b)
         end.

(** *** Linear positions *)

Lemma loc_quot_rem s x y :
  0 < _columns s -> 0 <= x < _columns s -> 0 <= y ->
  Z.quot (loc s x y) (_columns s) = y /\ Z.rem (loc s x y) (_columns s) = x.
Proof.
  intros Hc Hx Hy. unfold loc.
  assert (0 <= y * _columns s) by nia.
  rewrite Z.quot_div_nonneg, Z.rem_mod_nonneg by lia.
  split; symmetry.
  - apply (Z.div_unique _ _ y x); lia.
  - apply (Z.mod_unique _ _ y x); lia.
Qed.

(** Linear positions order the cells line by line. *)
Lemma loc_le s x1 y1 x2 y2 :
  0 <= x1 < _columns s -> 0 <= x2 < _columns s ->
  (loc s x1 y1 <= loc s x2 y2 <-> y1 < y2 \/ (y1 = y2 /\ x1 <= x2)).
Proof.
  intros H1 H2. unfold loc.
  destruct (Z.lt_trichotomy y1 y2) as [Hlt|[Heq|Hgt]].
  - assert ((y1 + 1) * _columns s <= y2 * _columns s) as Hrow by nia.
    split; [intros _; left; exact Hlt|intros _; lia].
  - subst y2. split; [intros G; right; split; [reflexivity|lia]|intros [G|[_ G]]; lia].
  - assert ((y2 + 1) * _columns s <= y1 * _columns s) as Hrow by nia.
    split; [intros G; lia|intros [G|[G _]]; lia].
Qed.

(** A loop that rewrites one row per index, each by its own function. *)
Lemma for_up_rows_indexed (g : Z -> list Character.t -> list Character.t) n :
  forall i (rows : list (list Character.t)) y,
    0 <= i ->
    i + Z.of_nat n <= Z.of_nat (length rows) ->
    at_ [] (for_up n i (fun y rows => set_at rows y (g y (at_ [] rows y))) rows) y
    = if (i <=? y) && (y <? i + Z.of_nat n) then g y (at_ [] rows y) else at_ [] rows y.
Proof.
  induction n as [|n IH]; intros i rows y Hi Hlen; cbn [for_up].
  - destruct (Z.leb_spec i y); destruct (Z.ltb_spec y (i + Z.of_nat 0));
      try reflexivity; lia.
  - rewrite IH by (rewrite ?length_set_at; lia).
    rewrite !at_set_at by lia.
    repeat match goal with
           | |- context [?a <=? ?b] => destruct (Z.leb_spec a b)
           | |- context [?a <? ?b] => destruct (Z.ltb_spec a b)
           | |- context [?a =? ?b] => destruct (Z.eqb_spec a b)
           end;
      cbn [andb]; try lia; try reflexivity; subst; reflexivity.
Qed.

(** What the loop body of [clearImage] makes of a row that it clears from
    column [startCol] to column [endCol], read cell by cell. *)
Lemma cleared_segment_at (clearCh : Character.t) columns startCol endCol
      (line : list Character.t) x :
  0 <= startCol -> startCol <= endCol -> endCol < columns -> 0 <= x < columns ->
  at_ DefaultChar
      (if bool_decide (clearCh = DefaultChar) && (endCol =? columns - 1)
       then resize_line startCol line
       else
         let line := if Z.of_nat (length line) <? endCol + 1
                     then resize_line (endCol + 1) line else line in
         if startCol <=? endCol then fill startCol (endCol + 1) clearCh line
         else line) x
  = if (startCol <=? x) && (x <=? endCol) then clearCh
    else if (x <? startCol) && (Z.of_nat (length line) <=? x) then Character_default
    else at_ DefaultChar line x.
Proof.
  intros Hs Hse He Hx. cbv zeta.
  destruct (bool_decide (clearCh = DefaultChar) && (endCol =? columns - 1)) eqn:Hdef.
  - apply andb_prop in Hdef as [Hdef Hend].
    apply bool_decide_eq_true in Hdef. apply Z.eqb_eq in Hend.
    unfold resize_line.
    destruct (Z.leb_spec startCol x).
    + destruct (Z.leb_spec x endCol); [|lia]. cbn [andb].
      rewrite at_beyond by (rewrite length_resize; lia). symmetry. exact Hdef.
    + cbn [andb]. destruct (Z.ltb_spec x startCol); [|lia]. cbn [andb].
      rewrite at_resize by lia.
      destruct (Z.ltb_spec x (Z.of_nat (length line)));
        destruct (Z.leb_spec (Z.of_nat (length line)) x); try lia; reflexivity.
  - clear Hdef.
    destruct (Z.leb_spec startCol endCol); [|lia].
    rewrite fill_at.
    2: lia.
    2:{ destruct (Z.ltb_spec (Z.of_nat (length line)) (endCol + 1)); [|lia].
        unfold resize_line. rewrite length_resize. lia. }
    destruct (Z.leb_spec startCol x); destruct (Z.ltb_spec x (endCol + 1));
      destruct (Z.leb_spec x endCol); cbn [andb]; try lia; try reflexivity.
    + (* right of the segment *)
      destruct (Z.ltb_spec x startCol); [lia|]. cbn [andb].
      destruct (Z.ltb_spec (Z.of_nat (length line)) (endCol + 1)); [|reflexivity].
      rewrite !at_beyond; [reflexivity|lia|].
      unfold resize_line. rewrite length_resize. lia.
    + (* left of the segment *)
      destruct (Z.ltb_spec x startCol); [|lia]. cbn [andb].
      destruct (Z.ltb_spec (Z.of_nat (length line)) (endCol + 1)).
      * unfold resize_line. rewrite at_resize by lia.
        destruct (Z.ltb_spec x (Z.of_nat (length line)));
          destruct (Z.leb_spec (Z.of_nat (length line)) x); try lia; reflexivity.
      * destruct (Z.leb_spec (Z.of_nat (length line)) x); [lia|reflexivity].
Qed.

(** The rows of the image after [clearImage] between two cells of the
    screen. *)
Lemma clearImage_screenLines c xa ya xb yb s :
  0 < _columns s ->
  0 <= xa < _columns s -> 0 <= xb < _columns s ->
  0 <= ya -> ya <= yb -> yb < Z.of_nat (length (_screenLines s)) ->
  let clearCh :=
    {| Character.character := c;
       Character.foregroundColor := _currentForeground s;
       Character.backgroundColor := _currentBackground s;
       Character.rendition := DEFAULT_RENDITION;
       Character.isRealCharacter := false |} in
  forall y,
    at_ [] (_screenLines (clearImage (loc s xa ya) (loc s xb yb) c s)) y
    = if (ya <=? y) && (y <=? yb) then
        let endCol := if y =? yb then xb else _columns s - 1 in
        let startCol := if y =? ya then xa else 0 in
        let line := at_ [] (_screenLines s) y in
        if bool_decide (clearCh = DefaultChar) && (endCol =? _columns s - 1)
        then resize_line startCol line
        else
          let line := if Z.of_nat (length line) <? endCol + 1
                      then resize_line (endCol + 1) line else line in
          if startCol <=? endCol then fill startCol (endCol + 1) clearCh line
          else line
      else at_ [] (_screenLines s) y.
Proof.
  intros Hc Hxa Hxb Hya Hyab Hyb clearCh y. unfold clearImage. cbv zeta.
  match goal with
  | |- context [for_up _ _ _ ?start] => set (s0 := start)
  end.
  assert (_columns s0 = _columns s /\ _screenLines s0 = _screenLines s /\
          _currentForeground s0 = _currentForeground s /\
          _currentBackground s0 = _currentBackground s) as (Hc0 & Hrows0 & Hf0 & Hb0).
  { subst s0. destruct (_ && _); unfold clearSelection; read_screen; repeat split. }
  rewrite Hc0, Hf0, Hb0. fold clearCh.
  destruct (loc_quot_rem s xa ya Hc Hxa Hya) as [-> Hrema].
  destruct (loc_quot_rem s xb yb Hc Hxb ltac:(lia)) as [-> Hremb].
  set (g := fun (y : Z) (line : list Character.t) =>
              let endCol := if y =? yb then xb else _columns s - 1 in
              let startCol := if y =? ya then xa else 0 in
              if bool_decide (clearCh = DefaultChar) && (endCol =? _columns s - 1)
              then resize_line startCol line
              else
                let line := if Z.of_nat (length line) <? endCol + 1
                            then resize_line (endCol + 1) line else line in
                if startCol <=? endCol then fill startCol (endCol + 1) clearCh line
                else line).
  rewrite (for_up_project_inv
             (fun s' => _columns s' = _columns s) _screenLines _
             (fun y rows => set_at rows y (g y (at_ [] rows y)))).
  - rewrite (for_up_rows_indexed g) by (rewrite ?Hrows0; lia).
    rewrite Hrows0.
    replace (ya + Z.of_nat (Z.to_nat (yb - ya + 1))) with (yb + 1) by lia.
    destruct (Z.leb_spec ya y); destruct (Z.ltb_spec y (yb + 1));
      destruct (Z.leb_spec y yb); try reflexivity; lia.
  - intros j s' Hs'. read_screen. exact Hs'.
  - intros j s' Hs'. read_screen. rewrite Hs', Hrema, Hremb. reflexivity.
  - exact Hc0.
Qed.

(** The line properties after [clearImage]: those of the rows it touches
    are reset. *)
Lemma clearImage_lineProperties c xa ya xb yb s :
  0 < _columns s ->
  0 <= xa < _columns s -> 0 <= xb < _columns s ->
  0 <= ya -> ya <= yb -> yb < Z.of_nat (length (_lineProperties s)) ->
  forall y,
    at_ 0 (_lineProperties (clearImage (loc s xa ya) (loc s xb yb) c s)) y
    = if (ya <=? y) && (y <=? yb) then 0 else at_ 0 (_lineProperties s) y.
Proof.
  intros Hc Hxa Hxb Hya Hyab Hyb y. unfold clearImage. cbv zeta.
  match goal with
  | |- context [for_up _ _ _ ?start] => set (s0 := start)
  end.
  assert (_columns s0 = _columns s /\ _lineProperties s0 = _lineProperties s)
    as (Hc0 & Hprops0).
  { subst s0. destruct (_ && _); unfold clearSelection; read_screen; repeat split. }
  rewrite Hc0.
  destruct (loc_quot_rem s xa ya Hc Hxa Hya) as [-> _].
  destruct (loc_quot_rem s xb yb Hc Hxb ltac:(lia)) as [-> _].
  rewrite (for_up_project _lineProperties _ (fun y props => set_at props y 0))
    by (intros j s'; read_screen; reflexivity).
  rewrite Hprops0.
  assert (forall n i (props : list Z),
             0 <= i -> i + Z.of_nat n <= Z.of_nat (length props) ->
             at_ 0 (for_up n i (fun y props => set_at props y 0) props) y
             = if (i <=? y) && (y <? i + Z.of_nat n) then 0 else at_ 0 props y) as Hloop.
  { induction n as [|n IH]; intros i props Hi Hlen; cbn [for_up].
    - destruct (Z.leb_spec i y); destruct (Z.ltb_spec y (i + Z.of_nat 0));
        try reflexivity; lia.
    - rewrite IH by (rewrite ?length_set_at; lia).
      rewrite at_set_at by lia.
      repeat match goal with
             | |- context [?a <=? ?b] => destruct (Z.leb_spec a b)
             | |- context [?a <? ?b] => destruct (Z.ltb_spec a b)
             | |- context [?a =? ?b] => destruct (Z.eqb_spec a b)
             end;
        cbn [andb]; try lia; reflexivity. }
  rewrite Hloop by lia.
  replace (ya + Z.of_nat (Z.to_nat (yb - ya + 1))) with (yb + 1) by lia.
  destruct (Z.leb_spec ya y); destruct (Z.ltb_spec y (yb + 1));
    destruct (Z.leb_spec y yb); try reflexivity; lia.
Qed.

(** [clearImage] between the cells [(xa, ya)] and [(xb, yb)] of the
    screen, the first not after the second, clears exactly the cells whose
    linear position lies between theirs: each of them reads as the clearing
    character in the current colours afterwards, and every other cell of
    the screen reads as before, except for the cells left of [xa] on line
    [ya] that the row did not hold yet: the row is grown over them with
    default-constructed cells. *)
Lemma clearImage_cells (c : Z) (s : Screen) (xa ya xb yb : Z) :
  0 < _columns s ->
  0 <= xa < _columns s -> 0 <= xb < _columns s ->
  0 <= ya -> yb < Z.of_nat (length (_screenLines s)) ->
  loc s xa ya <= loc s xb yb ->
  let s' := clearImage (loc s xa ya) (loc s xb yb) c s in
  let clearCh :=
    {| Character.character := c;
       Character.foregroundColor := _currentForeground s;
       Character.backgroundColor := _currentBackground s;
       Character.rendition := DEFAULT_RENDITION;
       Character.isRealCharacter := false |} in
  forall x y,
    0 <= x < _columns s -> 0 <= y ->
    cellAt s' x y
    = if (loc s xa ya <=? loc s x y) && (loc s x y <=? loc s xb yb) then clearCh
      else if (y =? ya) && (x <? xa)
              && (Z.of_nat (length (at_ [] (_screenLines s) ya)) <=? x)
      then Character_default
      else cellAt s x y.
Proof.
  intros Hc Hxa Hxb Hya Hyb Hle s' clearCh x y Hx Hy.
  apply (loc_le s xa ya xb yb Hxa Hxb) in Hle.
  assert (ya <= yb) as Hyab by lia.
  subst s'. unfold cellAt.
  rewrite (clearImage_screenLines c xa ya xb yb s Hc Hxa Hxb Hya Hyab Hyb).
  cbv zeta. fold clearCh.
  pose proof (loc_le s xa ya x y Hxa Hx) as Hlo.
  pose proof (loc_le s x y xb yb Hx Hxb) as Hhi.
  destruct (Z.leb_spec ya y) as [Hy1|Hy1]; [destruct (Z.leb_spec y yb) as [Hy2|Hy2]|];
    cbn [andb].
  - rewrite (cleared_segment_at clearCh (_columns s)) by (decide_tests; lia).
    assert (((if y =? ya then xa else 0) <=? x)
            && (x <=? (if y =? yb then xb else _columns s - 1))
            = (loc s xa ya <=? loc s x y) && (loc s x y <=? loc s xb yb)) as ->.
    { apply Bool.eq_iff_eq_true. rewrite !andb_true_iff, !Z.leb_le. rewrite Hlo, Hhi.
      destruct (Z.eqb_spec y ya), (Z.eqb_spec y yb); lia. }
    destruct (Z.eqb_spec y ya) as [->|Hne]; cbn [andb]; [reflexivity|].
    destruct (Z.ltb_spec x 0); [lia|]. reflexivity.
  - destruct (Z.leb_spec (loc s x y) (loc s xb yb)); [intuition lia|].
    rewrite andb_false_r.
    destruct (Z.eqb_spec y ya); [lia|]. reflexivity.
  - destruct (Z.leb_spec (loc s xa ya) (loc s x y)); [intuition lia|].
    cbn [andb].
    destruct (Z.eqb_spec y ya); [lia|]. reflexivity.
Qed.

(** X7: [clearImage] between the cells [(xa, ya)] and [(xb, yb)] of the
    screen, the first not after the second, clears exactly the cells whose
    linear position lies between theirs: each of them reads as the clearing
    character in the current colours afterwards, and every other cell of
    the screen reads as before, except for the cells left of [xa] on line
    [ya] that the row did not hold yet: the row is grown over them with
    default-constructed cells.  It resets the line properties of the lines
    [ya .. yb] and of no other line, and leaves the history, the size, the
    margins, the cursor, the current colours and the scroll counters
    alone. *)
Theorem clearImage_clears_exactly (c : Z) (s : Screen) (xa ya xb yb : Z) :
  0 < _columns s ->
  0 <= xa < _columns s -> 0 <= xb < _columns s ->
  0 <= ya -> yb < Z.of_nat (length (_screenLines s)) ->
  loc s xa ya <= loc s xb yb ->
  let s' := clearImage (loc s xa ya) (loc s xb yb) c s in
  let clearCh :=
    {| Character.character := c;
       Character.foregroundColor := _currentForeground s;
       Character.backgroundColor := _currentBackground s;
       Character.rendition := DEFAULT_RENDITION;
       Character.isRealCharacter := false |} in
  (forall x y,
     0 <= x < _columns s -> 0 <= y ->
     cellAt s' x y
     = if (loc s xa ya <=? loc s x y) && (loc s x y <=? loc s xb yb) then clearCh
       else if (y =? ya) && (x <? xa)
               && (Z.of_nat (length (at_ [] (_screenLines s) ya)) <=? x)
       then Character_default
       else cellAt s x y) /\
  (yb < Z.of_nat (length (_lineProperties s)) ->
   forall y,
     at_ 0 (_lineProperties s') y
     = if (ya <=? y) && (y <=? yb) then 0 else at_ 0 (_lineProperties s) y) /\
  frame s s'.
Proof.
  intros Hc Hxa Hxb Hya Hyb Hle s' clearCh.
  split; [|split].
  - exact (clearImage_cells c s xa ya xb yb Hc Hxa Hxb Hya Hyb Hle).
  - intros Hprops y. subst s'.
    apply clearImage_lineProperties; try assumption.
    apply (loc_le s xa ya xb yb Hxa Hxb) in Hle. lia.
  - apply clearImage_frame.
Qed.

End ScreenClearProofs.

Section ScreenEraseProofs.
Context {D : Declarations} {SD : Screen.ScreenDeclarations}.
Import Screen.

(** Settles the tests that linear arithmetic decides, without branching. *)
Ltac settle_tests :=
  repeat match goal with
         | |- context [?a <? ?b] =>
             first [rewrite (proj2 (Z.ltb_lt a b)) by lia
                   |rewrite (proj2 (Z.ltb_ge a b)) by lia]
         | |- context [?a <=? ?b] =>
             first [rewrite (proj2 (Z.leb_le a b)) by lia
                   |rewrite (proj2 (Z.leb_gt a b)) by lia]
         | |- context [?a =? ?b] =>
             first [rewrite (proj2 (Z.eqb_eq a b)) by lia
                   |rewrite (proj2 (Z.eqb_neq a b)) by lia]
         end.

(** X8: [eraseChars(n)] with the cursor on the screen blanks the cells of
    the cursor line from the cursor up to column
    [p = min(_columns - 1, _cuX + k - 1)], [k] being [n] brought into
    [1 .. MAX_SCREEN_ARGUMENT]: it never reaches into the next line.  The
    cells right of [p] and all other rows read as before, the cells left of
    the cursor too unless the row ended before them, in which case they
    become default-constructed cells; the line property of the cursor line
    is reset and the cursor stays. *)
Theorem eraseChars_erases_from_cursor (n : Z) (s : Screen) :
  0 < MAX_SCREEN_ARGUMENT ->
  0 <= _cuX s < _columns s ->
  0 <= _cuY s < Z.of_nat (length (_screenLines s)) ->
  _cuY s < Z.of_nat (length (_lineProperties s)) ->
  let k := Z.min (Z.max n 1) MAX_SCREEN_ARGUMENT in
  let p := Z.min (_columns s - 1) (_cuX s + k - 1) in
  let s' := eraseChars n s in
  (forall x, _cuX s <= x <= p -> cellAt s' x (_cuY s) = blank s) /\
  (forall x, p < x < _columns s -> cellAt s' x (_cuY s) = cellAt s x (_cuY s)) /\
  (forall x, 0 <= x < _cuX s ->
     cellAt s' x (_cuY s)
     = if Z.of_nat (length (at_ [] (_screenLines s) (_cuY s))) <=? x
       then Character_default else cellAt s x (_cuY s)) /\
  (forall x y, 0 <= x < _columns s -> 0 <= y -> y <> _cuY s ->
     cellAt s' x y = cellAt s x y) /\
  at_ 0 (_lineProperties s') (_cuY s) = 0 /\
  _cuX s' = _cuX s /\ _cuY s' = _cuY s.
Proof.
  intros Hmax HX HY HP k p s'.
  assert (eraseChars n s
          = clearImage (loc s (_cuX s) (_cuY s)) (loc s p (_cuY s)) 32 s) as Herase.
  { unfold eraseChars, qBound. cbv zeta. do 2 f_equal. subst p k.
    destruct (Z.ltb_spec n 1);
      match goal with |- context [MAX_SCREEN_ARGUMENT <? ?a] =>
        destruct (Z.ltb_spec MAX_SCREEN_ARGUMENT a)
      end; lia. }
  assert (_cuX s <= p < _columns s) as Hp by (subst p k; lia).
  assert (0 < _columns s) as Hc by lia.
  assert (loc s (_cuX s) (_cuY s) <= loc s p (_cuY s)) as Hle by (unfold loc; lia).
  pose proof (clearImage_cells 32 s (_cuX s) (_cuY s) p (_cuY s)
                Hc HX ltac:(lia) ltac:(lia) ltac:(lia) Hle) as Hcells.
  cbv zeta in Hcells. fold (blank s) in Hcells.
  subst s'. rewrite Herase.
  assert (forall x y, 0 <= x < _columns s ->
            (loc s (_cuX s) (_cuY s) <=? loc s x y) && (loc s x y <=? loc s p (_cuY s))
            = (y =? _cuY s) && (_cuX s <=? x) && (x <=? p)) as Hrange.
  { intros x y Hx. apply Bool.eq_iff_eq_true.
    rewrite !andb_true_iff, !Z.leb_le, Z.eqb_eq.
    rewrite (loc_le s (_cuX s) (_cuY s) x y) by lia.
    rewrite (loc_le s x y p (_cuY s)) by lia. lia. }
  split; [|split; [|split; [|split; [|split]]]].
  - intros x Hx. rewrite Hcells by lia. rewrite Hrange by lia.
    rewrite Z.eqb_refl.
    destruct (Z.leb_spec (_cuX s) x); [|lia]. destruct (Z.leb_spec x p); [|lia].
    reflexivity.
  - intros x Hx. rewrite Hcells by lia. rewrite Hrange by lia.
    rewrite Z.eqb_refl.
    destruct (Z.leb_spec x p); [lia|]. rewrite andb_false_r.
    destruct (Z.ltb_spec x (_cuX s)); [lia|]. reflexivity.
  - intros x Hx. rewrite Hcells by lia. rewrite Hrange by lia.
    rewrite Z.eqb_refl.
    destruct (Z.leb_spec (_cuX s) x); [lia|]. cbn [andb].
    destruct (Z.ltb_spec x (_cuX s)); [|lia]. reflexivity.
  - intros x y Hx Hy Hne. rewrite Hcells by lia. rewrite Hrange by lia.
    destruct (Z.eqb_spec y (_cuY s)); [contradiction|]. reflexivity.
  - rewrite (clearImage_lineProperties 32 (_cuX s) (_cuY s) p (_cuY s) s) by lia.
    destruct (Z.leb_spec (_cuY s) (_cuY s)); [reflexivity|lia].
  - destruct (clearImage_same_cursor (loc s (_cuX s) (_cuY s)) (loc s p (_cuY s)) 32 s)
      as (_ & _ & Hx & Hy & _).
    split; assumption.
Qed.

(** X9: The six clearing commands, with the cursor on the screen: each
    blanks, in the current colours, exactly the cells of its range (the
    whole screen, the screen up to or from the cursor, the whole cursor
    line, the cursor line up to or from the cursor) and leaves the other
    cells of the screen as they read before, except that the two commands
    clearing from the cursor on grow a cursor line that ended left of the
    cursor with default-constructed cells.  [helpAlign] fills every cell of
    the screen with the letter E in the current colours. *)
Theorem clear_commands_clear_their_ranges (s : Screen) (x y : Z) :
  0 <= _cuX s < _columns s ->
  0 <= _cuY s < _lines s ->
  _lines s <= Z.of_nat (length (_screenLines s)) ->
  0 <= x < _columns s ->
  0 <= y < _lines s ->
  let grown := (y =? _cuY s) && (x <? _cuX s)
               && (Z.of_nat (length (at_ [] (_screenLines s) (_cuY s))) <=? x) in
  cellAt (clearEntireScreen s) x y = blank s /\
  cellAt (clearToBeginOfScreen s) x y
  = (if loc s x y <=? loc s (_cuX s) (_cuY s) then blank s else cellAt s x y) /\
  cellAt (clearToEndOfScreen s) x y
  = (if loc s (_cuX s) (_cuY s) <=? loc s x y then blank s
     else if grown then Character_default else cellAt s x y) /\
  cellAt (clearEntireLine s) x y
  = (if y =? _cuY s then blank s else cellAt s x y) /\
  cellAt (clearToBeginOfLine s) x y
  = (if (y =? _cuY s) && (x <=? _cuX s) then blank s else cellAt s x y) /\
  cellAt (clearToEndOfLine s) x y
  = (if (y =? _cuY s) && (_cuX s <=? x) then blank s
     else if grown then Character_default else cellAt s x y) /\
  cellAt (helpAlign s) x y
  = {| Character.character := 69;
       Character.foregroundColor := _currentForeground s;
       Character.backgroundColor := _currentBackground s;
       Character.rendition := DEFAULT_RENDITION;
       Character.isRealCharacter := false |}.
Proof.
  intros HX HY Hrows Hx Hy grown.
  assert (0 < _columns s) as Hc by lia.
  assert (loc s 0 0 <= loc s (_columns s - 1) (_lines s - 1)) as Hwhole
      by (apply loc_le; lia).
  pose proof (clearImage_cells 69 s 0 0 (_columns s - 1) (_lines s - 1)
                Hc ltac:(lia) ltac:(lia) ltac:(lia) ltac:(lia) Hwhole x y Hx
                ltac:(lia)) as HE.
  cbv zeta in HE.
  assert (forall xa ya xb yb,
            0 <= xa < _columns s -> 0 <= xb < _columns s ->
            0 <= ya -> yb < _lines s -> loc s xa ya <= loc s xb yb ->
            cellAt (clearImage (loc s xa ya) (loc s xb yb) 32 s) x y
            = if (loc s xa ya <=? loc s x y) && (loc s x y <=? loc s xb yb) then blank s
              else if (y =? ya) && (x <? xa)
                      && (Z.of_nat (length (at_ [] (_screenLines s) ya)) <=? x)
              then Character_default
              else cellAt s x y) as Hcells.
  { intros xa ya xb yb Hxa Hxb Hya Hyb Hle.
    apply (clearImage_cells 32 s xa ya xb yb); lia. }
  assert (forall xa ya xb yb,
            0 <= xa < _columns s -> 0 <= xb < _columns s ->
            ya < yb \/ (ya = yb /\ xa <= xb) -> loc s xa ya <= loc s xb yb) as Hord.
  { intros xa ya xb yb Hxa Hxb Hab. apply loc_le; assumption. }
  unfold clearEntireScreen, clearToBeginOfScreen, clearToEndOfScreen,
    clearEntireLine, clearToBeginOfLine, clearToEndOfLine, helpAlign.
  rewrite HE. clear HE.
  rewrite (Hcells 0 0 (_columns s - 1) (_lines s - 1)) by (try apply Hord; lia).
  rewrite (Hcells 0 0 (_cuX s) (_cuY s)) by (try apply Hord; lia).
  rewrite (Hcells (_cuX s) (_cuY s) (_columns s - 1) (_lines s - 1))
    by (try apply Hord; lia).
  rewrite (Hcells 0 (_cuY s) (_columns s - 1) (_cuY s)) by (try apply Hord; lia).
  rewrite (Hcells 0 (_cuY s) (_cuX s) (_cuY s)) by (try apply Hord; lia).
  rewrite (Hcells (_cuX s) (_cuY s) (_columns s - 1) (_cuY s)) by (try apply Hord; lia).
  subst grown.
  pose proof (loc_le s 0 0 x y ltac:(lia) Hx).
  pose proof (loc_le s x y (_columns s - 1) (_lines s - 1) Hx ltac:(lia)).
  pose proof (loc_le s x y (_cuX s) (_cuY s) Hx HX).
  pose proof (loc_le s (_cuX s) (_cuY s) x y HX Hx).
  pose proof (loc_le s 0 (_cuY s) x y ltac:(lia) Hx).
  pose proof (loc_le s x y (_columns s - 1) (_cuY s) Hx ltac:(lia)).
  destruct (Z.lt_trichotomy y (_cuY s)) as [Hy1|[Hy1|Hy1]];
    destruct (Z.lt_trichotomy x (_cuX s)) as [Hx1|[Hx1|Hx1]];
    settle_tests; rewrite ?andb_false_r; cbn [andb orb]; repeat split; reflexivity.
Qed.

End ScreenEraseProofs.

Lemma clearImage_clears_exactly_witness :
  Screen.cellAt (D := sample_declarations)
    (Screen.clearImage (D := sample_declarations) 4 7 69
       (Screen.sample_screen (D := sample_declarations))) 2 1
  = {| Character.character := 69;
       Character.foregroundColor :=
         CharacterColor.make CharacterColor.COLOR_SPACE_DEFAULT
                             CharacterColor.DEFAULT_FORE_COLOR;
       Character.backgroundColor :=
         CharacterColor.make CharacterColor.COLOR_SPACE_DEFAULT
                             CharacterColor.DEFAULT_BACK_COLOR;
       Character.rendition := 0;
       Character.isRealCharacter := false |} /\
  Screen.cellAt (D := sample_declarations)
    (Screen.clearImage (D := sample_declarations) 4 7 69
       (Screen.sample_screen (D := sample_declarations))) 0 1
  = Screen.plain (D := sample_declarations) 100.
Proof.
  destruct (clearImage_clears_exactly (D := sample_declarations) 69
              (Screen.sample_screen (D := sample_declarations)) 1 1 1 2
              ltac:(evaluate) ltac:(evaluate) ltac:(evaluate) ltac:(lia)
              ltac:(evaluate) ltac:(evaluate)) as (Hcells & _).
  split.
  - exact (Hcells 2 1 ltac:(evaluate) ltac:(lia)).
  - exact (Hcells 0 1 ltac:(evaluate) ltac:(lia)).
Defined.

Lemma eraseChars_erases_from_cursor_witness :
  Screen.cellAt (D := sample_declarations)
    (Screen.eraseChars (D := sample_declarations)
       (SD := Screen.sample_screen_declarations) 50000
       (Screen.set_cuX 1 (Screen.sample_screen (D := sample_declarations)))) 2 3
  = Screen.blank (D := sample_declarations)
      (Screen.sample_screen (D := sample_declarations)) /\
  Screen.cellAt (D := sample_declarations)
    (Screen.eraseChars (D := sample_declarations)
       (SD := Screen.sample_screen_declarations) 50000
       (Screen.set_cuX 1 (Screen.sample_screen (D := sample_declarations)))) 0 3
  = Screen.plain (D := sample_declarations) 120.
Proof.
  destruct (eraseChars_erases_from_cursor (D := sample_declarations)
              (SD := Screen.sample_screen_declarations) 50000
              (Screen.set_cuX 1 (Screen.sample_screen (D := sample_declarations))))
    as (Hblank & _ & Hleft & _).
  - reflexivity.
  - evaluate.
  - evaluate.
  - evaluate.
  - split.
    + exact (Hblank 2 ltac:(evaluate)).
    + exact (Hleft 0 ltac:(evaluate)).
Defined.

Lemma clear_commands_clear_their_ranges_witness :
  Screen.cellAt (D := sample_declarations)
    (Screen.clearEntireScreen (D := sample_declarations)
       (Screen.sample_screen (D := sample_declarations))) 1 0
  = Screen.blank (D := sample_declarations)
      (Screen.sample_screen (D := sample_declarations)) /\
  Screen.cellAt (D := sample_declarations)
    (Screen.clearEntireLine (D := sample_declarations)
       (Screen.sample_screen (D := sample_declarations))) 1 0
  = Screen.plain (D := sample_declarations) 98.
Proof.
  destruct (clear_commands_clear_their_ranges (D := sample_declarations)
              (Screen.sample_screen (D := sample_declarations)) 1 0
              ltac:(evaluate) ltac:(evaluate) ltac:(evaluate) ltac:(evaluate)
              ltac:(evaluate)) as (Hscreen & _ & _ & Hline & _).
  split; [exact Hscreen|].
  etransitivity; [exact Hline|]. vm_compute. reflexivity.
Defined.

(** ** Tabulators of [Screen.cpp] *)

Section ScreenTabProofs.
Context {D : Declarations} {SD : Screen.ScreenDeclarations}.
Import Screen.

Ltac read_screen :=
  cbn [on_base set_currentModes set_savedModes set_tabStops set_blockSelectionMode
       base _currentModes _savedModes _tabStops _blockSelectionMode
       set_cuX set_cuY _lines _columns _screenLines _scrolledLines
       _lastScrolledRegion _droppedLines _lineProperties _history _cuX _cuY
       _currentForeground _currentBackground _currentRendition _topMargin
       _bottomMargin _selBegin _selTopLeft _selBottomRight _effectiveForeground
       _effectiveBackground _effectiveRendition _savedState _lastPos
       _urlLinesRemoved] in *.

(** A loop that assigns one element per index. *)
Lemma for_up_set_at {A} (d : A) (f : Z -> A) n : forall i (l : list A) x,
  0 <= i -> i + Z.of_nat n <= Z.of_nat (length l) ->
  at_ d (for_up n i (fun j l => set_at l j (f j)) l) x
  = if (i <=? x) && (x <? i + Z.of_nat n) then f x else at_ d l x.
Proof.
  induction n as [|n IH]; intros i l x Hi Hlen; cbn [for_up].
  - destruct (Z.leb_spec i x); destruct (Z.ltb_spec x (i + Z.of_nat 0));
      try reflexivity; lia.
  - rewrite IH by (rewrite ?length_set_at; lia).
    rewrite at_set_at by lia.
    repeat match goal with
           | |- context [?a <=? ?b] => destruct (Z.leb_spec a b)
           | |- context [?a <? ?b] => destruct (Z.ltb_spec a b)
           | |- context [?a =? ?b] => destruct (Z.eqb_spec a b)
           end;
      cbn [andb]; try lia; try reflexivity; subst; reflexivity.
Qed.

(** [initTabStops] sets a stop at every eighth column but the first and
    touches nothing else. *)
Lemma initTabStops_stops st :
  base (initTabStops st) = base st /\
  forall x, 0 <= x < _columns (base st) ->
    at_ false (_tabStops (initTabStops st)) x = (Z.rem x 8 =? 0) && negb (x =? 0).
Proof.
  unfold initTabStops. cbv zeta. read_screen.
  set (st0 := set_tabStops _ st).
  split.
  - apply (for_up_invariant (fun st' => base st' = base st)); [|reflexivity].
    intros j st' Hst'. exact Hst'.
  - intros x Hx.
    rewrite (for_up_project _tabStops _
               (fun i ts => set_at ts i ((Z.rem i 8 =? 0) && negb (i =? 0))))
      by (intros j st'; reflexivity).
    rewrite (for_up_set_at false (fun i => (Z.rem i 8 =? 0) && negb (i =? 0))).
    + destruct (Z.leb_spec 0 x); [|lia].
      destruct (Z.ltb_spec x (0 + Z.of_nat (Z.to_nat (_columns (base st))))); [|lia].
      reflexivity.
    + lia.
    + subst st0. read_screen. rewrite length_resize. lia.
Qed.

(** Moving the cursor column twice amounts to the last move. *)
Lemma on_base_set_cuX v w st :
  on_base (set_cuX v) (on_base (set_cuX w) st) = on_base (set_cuX v) st.
Proof. reflexivity. Qed.

Lemma on_base_set_cuX_same st :
  on_base (set_cuX (_cuX (base st))) st = st.
Proof. destruct st as [b ? ? ? ?]. destruct b. reflexivity. Qed.

Lemma cursorRight_1 st :
  0 < MAX_SCREEN_ARGUMENT ->
  _cuX (base st) < _columns (base st) - 1 ->
  on_base (cursorRight 1) st = on_base (set_cuX (_cuX (base st) + 1)) st.
Proof.
  intros Hmax Hx. unfold on_base, cursorRight. cbv beta zeta.
  destruct (Z.ltb_spec 1 1); [lia|].
  destruct (Z.ltb_spec MAX_SCREEN_ARGUMENT 1); [lia|].
  rewrite Z.min_r by lia. reflexivity.
Qed.

(** The inner loop of [tab] on stops at the multiples of 8: from column
    [x >= 1] it runs to the next multiple of 8 at or after [x], or to the
    last column. *)
Lemma tab_skip_multiples fuel : forall st,
  0 < MAX_SCREEN_ARGUMENT ->
  (forall x, 0 <= x < _columns (base st) ->
     at_ false (_tabStops st) x = (Z.rem x 8 =? 0) && negb (x =? 0)) ->
  1 <= _cuX (base st) <= _columns (base st) - 1 ->
  _columns (base st) - _cuX (base st) <= Z.of_nat fuel ->
  tab_skip fuel st
  = Some (on_base (set_cuX (Z.min (_columns (base st) - 1)
                                  (8 * ((_cuX (base st) + 7) / 8)))) st).
Proof.
  induction fuel as [|fuel IH]; intros st Hmax Hstops Hx Hfuel; [lia|].
  cbn [tab_skip].
  destruct (Z.ltb_spec (_cuX (base st)) (_columns (base st) - 1)) as [Hlt|Hge].
  - rewrite Hstops by lia.
    rewrite Z.rem_mod_nonneg by lia.
    destruct (Z.eqb_spec (_cuX (base st)) 0); [lia|].
    destruct (Z.eqb_spec (_cuX (base st) mod 8) 0) as [Hstop|Hgo]; cbn [andb negb].
    + assert (Z.min (_columns (base st) - 1) (8 * ((_cuX (base st) + 7) / 8))
              = _cuX (base st)) as ->.
      { pose proof (Z.div_mod (_cuX (base st)) 8 ltac:(lia)).
        pose proof (Z.div_mod (_cuX (base st) + 7) 8 ltac:(lia)).
        pose proof (Z.mod_pos_bound (_cuX (base st) + 7) 8 ltac:(lia)).
        lia. }
      rewrite on_base_set_cuX_same. reflexivity.
    + rewrite cursorRight_1 by assumption.
      rewrite IH; read_screen; try assumption; try lia.
      rewrite on_base_set_cuX. do 3 f_equal.
      pose proof (Z.div_mod (_cuX (base st)) 8 ltac:(lia)).
      pose proof (Z.mod_pos_bound (_cuX (base st)) 8 ltac:(lia)).
      pose proof (Z.div_mod (_cuX (base st) + 7) 8 ltac:(lia)).
      pose proof (Z.mod_pos_bound (_cuX (base st) + 7) 8 ltac:(lia)).
      pose proof (Z.div_mod (_cuX (base st) + 1 + 7) 8 ltac:(lia)).
      pose proof (Z.mod_pos_bound (_cuX (base st) + 1 + 7) 8 ltac:(lia)).
      lia.
  - cbn [andb].
    assert (Z.min (_columns (base st) - 1) (8 * ((_cuX (base st) + 7) / 8))
            = _cuX (base st)) as ->.
    { pose proof (Z.div_mod (_cuX (base st) + 7) 8 ltac:(lia)).
      pose proof (Z.mod_pos_bound (_cuX (base st) + 7) 8 ltac:(lia)).
      lia. }
    rewrite on_base_set_cuX_same. reflexivity.
Qed.

(** The outer loop of [tab] on stops at the multiples of 8. *)
Lemma tab_loop_multiples fuel : forall n st,
  0 < MAX_SCREEN_ARGUMENT ->
  (forall x, 0 <= x < _columns (base st) ->
     at_ false (_tabStops st) x = (Z.rem x 8 =? 0) && negb (x =? 0)) ->
  1 <= n ->
  0 <= _cuX (base st) <= _columns (base st) - 1 ->
  _columns (base st) - _cuX (base st) <= Z.of_nat fuel ->
  tab_loop fuel n st
  = Some (on_base (set_cuX (Z.min (_columns (base st) - 1)
                                  (8 * (_cuX (base st) / 8 + n)))) st).
Proof.
  induction fuel as [|fuel IH]; intros n st Hmax Hstops Hn Hx Hfuel; [lia|].
  cbn [tab_loop].
  destruct (Z.ltb_spec 0 n); [|lia]. cbn [andb].
  pose proof (Z.div_mod (_cuX (base st)) 8 ltac:(lia)) as Hdm.
  pose proof (Z.mod_pos_bound (_cuX (base st)) 8 ltac:(lia)) as Hmb.
  destruct (Z.ltb_spec (_cuX (base st)) (_columns (base st) - 1)) as [Hlt|Hge].
  - rewrite cursorRight_1 by assumption.
    rewrite tab_skip_multiples; read_screen; try assumption; try lia.
    assert ((_cuX (base st) + 1 + 7) / 8 = _cuX (base st) / 8 + 1) as ->.
    { symmetry. apply (Z.div_unique _ _ _ (_cuX (base st) mod 8)); lia. }
    rewrite on_base_set_cuX.
    set (y := Z.min (_columns (base st) - 1) (8 * (_cuX (base st) / 8 + 1))).
    assert (_cuX (base st) < y <= _columns (base st) - 1) as Hy by (subst y; lia).
    destruct (Z.eq_dec n 1) as [->|Hn1].
    + (* the last round: the loop test fails on [n - 1 = 0] *)
      destruct fuel as [|fuel]; [lia|]. cbn [tab_loop].
      destruct (Z.ltb_spec 0 (1 - 1)); [lia|]. reflexivity.
    + rewrite IH; read_screen; try assumption; try lia.
      rewrite on_base_set_cuX. do 3 f_equal.
      pose proof (Z.div_mod y 8 ltac:(lia)) as Hdy.
      pose proof (Z.mod_pos_bound y 8 ltac:(lia)) as Hmy.
      destruct (Z.le_gt_cases (8 * (_cuX (base st) / 8 + 1)) (_columns (base st) - 1)).
      * assert (y = 8 * (_cuX (base st) / 8 + 1)) as Hyeq by (subst y; lia).
        assert (y / 8 = _cuX (base st) / 8 + 1) as ->.
        { rewrite Hyeq. rewrite Z.mul_comm. apply Z.div_mul. lia. }
        lia.
      * assert (y = _columns (base st) - 1) as Hyeq by (subst y; lia).
        lia.
  - assert (Z.min (_columns (base st) - 1) (8 * (_cuX (base st) / 8 + n))
            = _cuX (base st)) as -> by lia.
    rewrite on_base_set_cuX_same. reflexivity.
Qed.

(** X10: With the initial tab stops, [tab(n)] from a column of the screen
    terminates and moves the cursor to the [max(n,1)]-th next multiple of 8,
    or to the last column if that comes first; nothing but the cursor
    column changes.  As many rounds of fuel as the screen has columns are
    enough. *)
Theorem tab_moves_to_next_multiple_of_8 (n : Z) (fuel : nat) (st : State) :
  0 < MAX_SCREEN_ARGUMENT ->
  0 <= _cuX (base st) < _columns (base st) ->
  _columns (base st) <= Z.of_nat fuel ->
  tab fuel n (initTabStops st)
  = Some (on_base (set_cuX (Z.min (_columns (base st) - 1)
                                  (8 * (_cuX (base st) / 8 + Z.max n 1))))
                  (initTabStops st)).
Proof.
  intros Hmax Hx Hfuel.
  destruct (initTabStops_stops st) as [Hbase Hstops].
  unfold tab. cbv zeta.
  assert ((if n <? 1 then 1 else n) = Z.max n 1) as ->
      by (destruct (Z.ltb_spec n 1); lia).
  rewrite tab_loop_multiples; rewrite ?Hbase; try assumption; try lia.
  reflexivity.
Qed.

Lemma cursorLeft_1 st :
  0 < _cuX (base st) ->
  on_base (cursorLeft 1) st = on_base (set_cuX (_cuX (base st) - 1)) st.
Proof.
  intros Hx. unfold on_base, cursorLeft. cbv beta zeta.
  destruct (Z.ltb_spec 1 1); [lia|].
  rewrite Z.max_r by lia. reflexivity.
Qed.

(** The inner loop of [backtab] on stops at the multiples of 8: from
    column [x] it runs back to the last multiple of 8 at or before [x]. *)
Lemma backtab_skip_multiples fuel : forall st,
  (forall x, 0 <= x < _columns (base st) ->
     at_ false (_tabStops st) x = (Z.rem x 8 =? 0) && negb (x =? 0)) ->
  0 <= _cuX (base st) < _columns (base st) ->
  _cuX (base st) < Z.of_nat fuel ->
  backtab_skip fuel st = Some (on_base (set_cuX (8 * (_cuX (base st) / 8))) st).
Proof.
  induction fuel as [|fuel IH]; intros st Hstops Hx Hfuel; [lia|].
  cbn [backtab_skip].
  destruct (Z.ltb_spec 0 (_cuX (base st))) as [Hpos|Hzero].
  - rewrite Hstops by lia.
    rewrite Z.rem_mod_nonneg by lia.
    destruct (Z.eqb_spec (_cuX (base st)) 0); [lia|].
    destruct (Z.eqb_spec (_cuX (base st) mod 8) 0) as [Hstop|Hgo]; cbn [andb negb].
    + assert (8 * (_cuX (base st) / 8) = _cuX (base st)) as ->
          by (Z.div_mod_to_equations; lia).
      rewrite on_base_set_cuX_same. reflexivity.
    + rewrite cursorLeft_1 by assumption.
      rewrite IH; read_screen; try assumption; try lia.
      rewrite on_base_set_cuX. do 3 f_equal.
      Z.div_mod_to_equations; lia.
  - cbn [andb].
    assert (8 * (_cuX (base st) / 8) = _cuX (base st)) as ->
        by (Z.div_mod_to_equations; lia).
    rewrite on_base_set_cuX_same. reflexivity.
Qed.

(** The outer loop of [backtab] on stops at the multiples of 8. *)
Lemma backtab_loop_multiples fuel : forall n st,
  (forall x, 0 <= x < _columns (base st) ->
     at_ false (_tabStops st) x = (Z.rem x 8 =? 0) && negb (x =? 0)) ->
  1 <= n ->
  0 <= _cuX (base st) < _columns (base st) ->
  _cuX (base st) < Z.of_nat fuel ->
  backtab_loop fuel n st
  = Some (on_base (set_cuX (Z.max 0 (8 * ((_cuX (base st) - 1) / 8 - (n - 1))))) st).
Proof.
  induction fuel as [|fuel IH]; intros n st Hstops Hn Hx Hfuel; [lia|].
  cbn [backtab_loop].
  destruct (Z.ltb_spec 0 n); [|lia]. cbn [andb].
  destruct (Z.ltb_spec 0 (_cuX (base st))) as [Hpos|Hzero].
  - rewrite cursorLeft_1 by assumption.
    rewrite backtab_skip_multiples; read_screen; try assumption; try lia.
    rewrite on_base_set_cuX.
    set (y := 8 * ((_cuX (base st) - 1) / 8)).
    assert (0 <= y < _cuX (base st)) as Hy by (subst y; Z.div_mod_to_equations; lia).
    destruct (Z.eq_dec n 1) as [->|Hn1].
    + destruct fuel as [|fuel]; [lia|]. cbn [backtab_loop].
      destruct (Z.ltb_spec 0 (1 - 1)); [lia|]. cbn [andb].
      do 3 f_equal. subst y. lia.
    + rewrite IH; read_screen; try assumption; try lia.
      rewrite on_base_set_cuX. do 3 f_equal.
      subst y. Z.div_mod_to_equations; lia.
  - assert (Z.max 0 (8 * ((_cuX (base st) - 1) / 8 - (n - 1))) = _cuX (base st)) as ->
        by (Z.div_mod_to_equations; lia).
    rewrite on_base_set_cuX_same. reflexivity.
Qed.

(** X11: With the initial tab stops, [backtab(n)] from a column of the
    screen terminates and moves the cursor back to the [max(n,1)]-th
    multiple of 8 before it, or to the first column if that comes first;
    nothing but the cursor column changes. *)
Theorem backtab_moves_to_previous_multiple_of_8 (n : Z) (fuel : nat) (st : State) :
  0 <= _cuX (base st) < _columns (base st) ->
  _columns (base st) <= Z.of_nat fuel ->
  backtab fuel n (initTabStops st)
  = Some (on_base (set_cuX (Z.max 0 (8 * ((_cuX (base st) - 1) / 8 - (Z.max n 1 - 1)))))
                  (initTabStops st)).
Proof.
  intros Hx Hfuel.
  destruct (initTabStops_stops st) as [Hbase Hstops].
  unfold backtab. cbv zeta.
  assert ((if n <? 1 then 1 else n) = Z.max n 1) as ->
      by (destruct (Z.ltb_spec n 1); lia).
  rewrite backtab_loop_multiples; rewrite ?Hbase; try assumption; try lia.
  reflexivity.
Qed.

End ScreenTabProofs.

Lemma backtab_moves_to_previous_multiple_of_8_witness :
  Screen.backtab 3 1
    (Screen.initTabStops
       (Screen.on_base (Screen.set_cuX 2) (Screen.sample_state (D := sample_declarations))))
  = Some (Screen.on_base (Screen.set_cuX 0)
            (Screen.initTabStops
               (Screen.on_base (Screen.set_cuX 2)
                  (Screen.sample_state (D := sample_declarations))))).
Proof.
  apply (backtab_moves_to_previous_multiple_of_8 1 3
           (Screen.on_base (Screen.set_cuX 2)
              (Screen.sample_state (D := sample_declarations)))).
  - vm_compute. split; [discriminate|reflexivity].
  - vm_compute. discriminate.
Defined.

Lemma tab_moves_to_next_multiple_of_8_witness :
  Screen.tab (SD := Screen.sample_screen_declarations) 3 1
    (Screen.initTabStops (Screen.sample_state (D := sample_declarations)))
  = Some (Screen.on_base (Screen.set_cuX 2)
            (Screen.initTabStops (Screen.sample_state (D := sample_declarations)))).
Proof.
  apply (tab_moves_to_next_multiple_of_8
           (SD := Screen.sample_screen_declarations) 1 3
           (Screen.sample_state (D := sample_declarations))).
  - reflexivity.
  - vm_compute. split; [discriminate|reflexivity].
  - vm_compute. discriminate.
Defined.

(** ** Selection of [Screen.cpp] *)

Section ScreenSelectionProofs.
Context {D : Declarations} {SD : Screen.ScreenDeclarations}.
Import Screen.

Ltac read_screen :=
  cbn [on_base set_currentModes set_savedModes set_tabStops set_blockSelectionMode
       base _currentModes _savedModes _tabStops _blockSelectionMode
       set_selBegin set_selTopLeft set_selBottomRight
       _lines _columns _screenLines _scrolledLines
       _lastScrolledRegion _droppedLines _lineProperties _history _cuX _cuY
       _currentForeground _currentBackground _currentRendition _topMargin
       _bottomMargin _selBegin _selTopLeft _selBottomRight _effectiveForeground
       _effectiveBackground _effectiveRendition _savedState _lastPos
       _urlLinesRemoved] in *.

(** The selection after a press at [(x1, y1)] and a drag to [(x2, y2)],
    before the block mode normalises it: the two linear positions in
    order. *)
Lemma selection_corners x1 y1 x2 y2 mode st :
  0 <= x1 < _columns (base st) -> 0 <= y1 ->
  0 <= x2 < _columns (base st) -> 0 <= y2 ->
  let s := base st in
  let st' := setSelectionEnd x2 y2 (setSelectionStart x1 y1 mode st) in
  let lo := Z.min (loc s x1 y1) (loc s x2 y2) in
  let hi := Z.max (loc s x1 y1) (loc s x2 y2) in
  _columns (base st') = _columns s /\
  _blockSelectionMode st' = mode /\
  _selTopLeft (base st')
  = (if mode
     then loc s (Z.min (Z.rem lo (_columns s)) (Z.rem hi (_columns s)))
              (Z.quot lo (_columns s))
     else lo) /\
  _selBottomRight (base st')
  = (if mode
     then loc s (Z.max (Z.rem lo (_columns s)) (Z.rem hi (_columns s)))
              (Z.quot hi (_columns s))
     else hi).
Proof.
  intros Hx1 Hy1 Hx2 Hy2 s st' lo hi. subst s.
  assert (0 <= loc (base st) x1 y1) as Hpos by (unfold loc; nia).
  subst st'. unfold setSelectionEnd, setSelectionStart. cbv zeta.
  unfold loc in *. read_screen.
  destruct (Z.eqb_spec x1 (_columns (base st))) as [Hcol|_]; [lia|]. read_screen.
  destruct (Z.eqb_spec (y1 * _columns (base st) + x1) (-1)) as [Hneg|_]; [lia|].
  destruct (Z.eqb_spec x2 (_columns (base st))) as [Hcol|_]; [lia|].
  destruct (Z.ltb_spec (y2 * _columns (base st) + x2) (y1 * _columns (base st) + x1))
    as [Hlt|Hge]; read_screen.
  - assert (lo = y2 * _columns (base st) + x2) as Hlo by (subst lo; lia).
    assert (hi = y1 * _columns (base st) + x1) as Hhi by (subst hi; lia).
    destruct mode; read_screen; rewrite ?Hlo, ?Hhi; repeat split.
  - assert (lo = y1 * _columns (base st) + x1) as Hlo by (subst lo; lia).
    assert (hi = y2 * _columns (base st) + x2) as Hhi by (subst hi; lia).
    destruct mode; read_screen; rewrite ?Hlo, ?Hhi; repeat split.
Qed.

(** X12: A selection made by pressing at one cell of the screen and
    dragging to another selects the same cells whichever of the two is the
    start: in line mode the cells whose linear position lies between the
    two, in block mode the cells of the rectangle the two span. *)
Theorem selection_is_symmetric (x1 y1 x2 y2 : Z) (mode : bool) (st : State) :
  0 <= x1 < _columns (base st) -> 0 <= y1 ->
  0 <= x2 < _columns (base st) -> 0 <= y2 ->
  let s := base st in
  let forth := setSelectionEnd x2 y2 (setSelectionStart x1 y1 mode st) in
  let back := setSelectionEnd x1 y1 (setSelectionStart x2 y2 mode st) in
  forall x y,
    0 <= x < _columns s -> 0 <= y ->
    isSelected x y forth = isSelected x y back /\
    isSelected x y forth
    = if mode
      then (Z.min y1 y2 <=? y) && (y <=? Z.max y1 y2)
           && (Z.min x1 x2 <=? x) && (x <=? Z.max x1 x2)
      else (Z.min (loc s x1 y1) (loc s x2 y2) <=? loc s x y)
           && (loc s x y <=? Z.max (loc s x1 y1) (loc s x2 y2)).
Proof.
  intros Hx1 Hy1 Hx2 Hy2 s forth back x y Hx Hy.
  assert (0 < _columns s) as Hc by (subst s; lia).
  assert (0 <= x1 < _columns s) as Hx1' by exact Hx1.
  assert (0 <= x2 < _columns s) as Hx2' by exact Hx2.
  clear Hx1 Hx2. rename Hx1' into Hx1. rename Hx2' into Hx2.
  destruct (selection_corners x1 y1 x2 y2 mode st Hx1 Hy1 Hx2 Hy2)
    as (Hc1 & Hm1 & Htl1 & Hbr1).
  destruct (selection_corners x2 y2 x1 y1 mode st Hx2 Hy2 Hx1 Hy1)
    as (Hc2 & Hm2 & Htl2 & Hbr2).
  cbv zeta in Hc1, Hm1, Htl1, Hbr1, Hc2, Hm2, Htl2, Hbr2.
  fold s in Hc1, Htl1, Hbr1, Hc2, Htl2, Hbr2.
  fold forth in Hc1, Hm1, Htl1, Hbr1. fold back in Hc2, Hm2, Htl2, Hbr2.
  rewrite (Z.min_comm (loc s x2 y2)), (Z.max_comm (loc s x2 y2)) in Htl2, Hbr2.
  assert (isSelected x y forth = isSelected x y back) as Hsym.
  { unfold isSelected. cbv zeta. unfold loc.
    rewrite Hc1, Hm1, Htl1, Hbr1, Hc2, Hm2, Htl2, Hbr2. reflexivity. }
  split; [exact Hsym|].
  unfold isSelected. cbv zeta.
  assert (loc (base forth) x y = loc s x y) as ->
      by (unfold loc; rewrite Hc1; reflexivity).
  rewrite Hm1, Htl1, Hbr1, Hc1.
  destruct mode; [|rewrite andb_true_r; reflexivity].
  (* block mode: the corners are the corners of the rectangle *)
  destruct (loc_quot_rem s x1 y1 Hc Hx1 Hy1) as [Hq1 Hr1].
  destruct (loc_quot_rem s x2 y2 Hc Hx2 Hy2) as [Hq2 Hr2].
  pose proof (loc_le s x1 y1 x2 y2 Hx1 Hx2) as Hord.
  pose proof (loc_le s x2 y2 x1 y1 Hx2 Hx1) as Hord'.
  assert (Z.quot (Z.min (loc s x1 y1) (loc s x2 y2)) (_columns s) = Z.min y1 y2 /\
          Z.quot (Z.max (loc s x1 y1) (loc s x2 y2)) (_columns s) = Z.max y1 y2 /\
          Z.min (Z.rem (Z.min (loc s x1 y1) (loc s x2 y2)) (_columns s))
                (Z.rem (Z.max (loc s x1 y1) (loc s x2 y2)) (_columns s))
          = Z.min x1 x2 /\
          Z.max (Z.rem (Z.min (loc s x1 y1) (loc s x2 y2)) (_columns s))
                (Z.rem (Z.max (loc s x1 y1) (loc s x2 y2)) (_columns s))
          = Z.max x1 x2) as (-> & -> & -> & ->).
  { destruct (Z.le_gt_cases (loc s x1 y1) (loc s x2 y2)) as [Hle|Hgt].
    - rewrite Z.min_l, Z.max_r by lia. rewrite Hq1, Hq2, Hr1, Hr2.
      repeat split; lia.
    - rewrite Z.min_r, Z.max_l by lia. rewrite Hq1, Hq2, Hr1, Hr2.
      repeat split; lia. }
  assert (0 <= Z.min x1 x2 < _columns s) as Hmin by lia.
  assert (0 <= Z.max x1 x2 < _columns s) as Hmax by lia.
  destruct (loc_quot_rem s (Z.min x1 x2) (Z.min y1 y2) Hc Hmin ltac:(lia)) as [_ ->].
  destruct (loc_quot_rem s (Z.max x1 x2) (Z.max y1 y2) Hc Hmax ltac:(lia)) as [_ ->].
  pose proof (loc_le s (Z.min x1 x2) (Z.min y1 y2) x y Hmin Hx) as Hlo.
  pose proof (loc_le s x y (Z.max x1 x2) (Z.max y1 y2) Hx Hmax) as Hhi.
  apply Bool.eq_iff_eq_true.
  rewrite !andb_true_iff, !Z.leb_le. rewrite Hlo, Hhi. lia.
Qed.

End ScreenSelectionProofs.

Lemma selection_is_symmetric_witness :
  Screen.isSelected 1 1
    (Screen.setSelectionEnd 1 0
       (Screen.setSelectionStart 2 2 true (Screen.sample_state (D := sample_declarations))))
  = true /\
  Screen.isSelected 0 1
    (Screen.setSelectionEnd 1 0
       (Screen.setSelectionStart 2 2 true (Screen.sample_state (D := sample_declarations))))
  = false.
Proof.
  assert (forall x,
            0 <= x < 3 ->
            Screen.isSelected x 1
              (Screen.setSelectionEnd 1 0
                 (Screen.setSelectionStart 2 2 true
                    (Screen.sample_state (D := sample_declarations))))
            = (Z.min 2 0 <=? 1) && (1 <=? Z.max 2 0)
              && (Z.min 2 1 <=? x) && (x <=? Z.max 2 1)) as H.
  { intros x Hx.
    apply (selection_is_symmetric 2 2 1 0 true
             (Screen.sample_state (D := sample_declarations))); cbn; lia. }
  split; [rewrite (H 1) by lia|rewrite (H 0) by lia]; reflexivity.
Defined.

(** ** More of [CharacterColor.h] *)

Section CharacterColorMore.
Import CharacterColor.

Lemma land_7 co : Z.land co 7 = co mod 8.
Proof. change 7 with (Z.ones 3). rewrite Z.land_ones by lia. reflexivity. Qed.

Lemma land_1 co : Z.land co 1 = co mod 2.
Proof. change 1 with (Z.ones 1) at 1. rewrite Z.land_ones by lia. reflexivity. Qed.

Lemma land_255 co : Z.land co 255 = co mod 256.
Proof. change 255 with (Z.ones 8). rewrite Z.land_ones by lia. reflexivity. Qed.

(** X13: The first sixteen colours of the 256-colour space are the
    sixteen system colours: for [0 <= u < 16] the colour built in
    [COLOR_SPACE_256] and the one built in [COLOR_SPACE_SYSTEM] from the
    same number resolve to the same entry of every palette. *)
Theorem first_16_indexed_colors_are_system_colors (u : Z) (base : list ColorEntry) :
  0 <= u < 16 ->
  CharacterColor.color (make COLOR_SPACE_256 u) base
  = CharacterColor.color (make COLOR_SPACE_SYSTEM u) base.
Proof.
  intros Hu.
  assert (u = 0 \/ u = 1 \/ u = 2 \/ u = 3 \/ u = 4 \/ u = 5 \/ u = 6 \/ u = 7 \/
          u = 8 \/ u = 9 \/ u = 10 \/ u = 11 \/ u = 12 \/ u = 13 \/ u = 14 \/ u = 15)
    as Hcases by lia.
  repeat (destruct Hcases as [->|Hcases]; [reflexivity|]).
  subst u. reflexivity.
Qed.

(** X14: A colour built in [COLOR_SPACE_RGB] from the packed value
    [r * 65536 + g * 256 + b] of three bytes is valid and resolves to
    exactly these three channels, whatever the palette. *)
Theorem rgb_color_round_trip (r g b : Z) (base : list ColorEntry) :
  0 <= r < 256 -> 0 <= g < 256 -> 0 <= b < 256 ->
  isValid (make COLOR_SPACE_RGB (r * 65536 + g * 256 + b)) = true /\
  CharacterColor.color (make COLOR_SPACE_RGB (r * 65536 + g * 256 + b)) base
  = QColorRgb r g b.
Proof.
  intros Hr Hg Hb. split; [reflexivity|].
  unfold CharacterColor.color, make. cbn [Z.eqb Pos.eqb COLOR_SPACE_RGB COLOR_SPACE_DEFAULT
    COLOR_SPACE_SYSTEM COLOR_SPACE_256 _colorSpace _u _v _w].
  unfold quint8. rewrite !Z.shiftr_div_pow2 by lia.
  change (2 ^ 16) with 65536. change (2 ^ 8) with 256.
  f_equal; Z.div_mod_to_equations; lia.
Qed.

(** X15: [setIntensive] moves a default or system colour to the intensive
    half of the palette, [BASE_COLORS] entries further on; on a system
    colour it amounts to building the colour with bit 3 of the colour
    number set; colours of the other spaces are left alone; doing it twice
    is doing it once. *)
Theorem setIntensive_selects_intensive_half (co : Z) (base : list ColorEntry) :
  CharacterColor.color (setIntensive (make COLOR_SPACE_DEFAULT co)) base
  = entry base (co mod 2 + BASE_COLORS) /\
  CharacterColor.color (setIntensive (make COLOR_SPACE_SYSTEM co)) base
  = entry base (co mod 8 + 2 + BASE_COLORS) /\
  setIntensive (make COLOR_SPACE_SYSTEM co) = make COLOR_SPACE_SYSTEM (Z.lor co 8) /\
  (forall c, _colorSpace c <> COLOR_SPACE_DEFAULT -> _colorSpace c <> COLOR_SPACE_SYSTEM ->
             setIntensive c = c) /\
  (forall c, setIntensive (setIntensive c) = setIntensive c).
Proof.
  assert (0 <= co mod 2 < 2) as H2 by (apply Z.mod_pos_bound; lia).
  assert (0 <= co mod 8 < 8) as H8 by (apply Z.mod_pos_bound; lia).
  split; [|split; [|split; [|split]]].
  - unfold setIntensive, make, CharacterColor.color.
    cbn [Z.eqb Pos.eqb COLOR_SPACE_DEFAULT COLOR_SPACE_SYSTEM _colorSpace _u _v _w orb].
    rewrite land_1. rewrite quint8_small by lia. f_equal; unfold BASE_COLORS; lia.
  - unfold setIntensive, make, CharacterColor.color.
    cbn [Z.eqb Pos.eqb COLOR_SPACE_DEFAULT COLOR_SPACE_SYSTEM _colorSpace _u _v _w orb].
    rewrite land_7. rewrite quint8_small by lia. f_equal; unfold BASE_COLORS; lia.
  - unfold setIntensive, make.
    cbn [Z.eqb Pos.eqb COLOR_SPACE_DEFAULT COLOR_SPACE_SYSTEM _colorSpace _u _v _w orb].
    f_equal.
    + rewrite Z.land_lor_distr_l. change (Z.land 8 7) with 0.
      rewrite Z.lor_0_r. reflexivity.
    + rewrite Z.shiftr_lor. change (Z.shiftr 8 3) with 1.
      rewrite Z.land_lor_distr_l. change (Z.land 1 1) with 1.
      rewrite land_1.
      assert (0 <= Z.shiftr co 3 mod 2 < 2) as Hbit by (apply Z.mod_pos_bound; lia).
      assert (Z.shiftr co 3 mod 2 = 0 \/ Z.shiftr co 3 mod 2 = 1) as [-> | ->] by lia;
        reflexivity.
  - intros c Hd Hs. unfold setIntensive.
    destruct (Z.eqb_spec (_colorSpace c) COLOR_SPACE_SYSTEM); [contradiction|].
    destruct (Z.eqb_spec (_colorSpace c) COLOR_SPACE_DEFAULT); [contradiction|].
    reflexivity.
  - intros c. unfold setIntensive.
    destruct ((_colorSpace c =? COLOR_SPACE_SYSTEM) || (_colorSpace c =? COLOR_SPACE_DEFAULT))
      eqn:Hspace; cbn [_colorSpace]; rewrite Hspace; reflexivity.
Qed.

End CharacterColorMore.

Lemma first_16_indexed_colors_are_system_colors_witness :
  CharacterColor.color (CharacterColor.make CharacterColor.COLOR_SPACE_256 12) []
  = CharacterColor.color (CharacterColor.make CharacterColor.COLOR_SPACE_SYSTEM 12) [].
Proof. apply (first_16_indexed_colors_are_system_colors 12 []). lia. Defined.

Lemma rgb_color_round_trip_witness :
  CharacterColor.isValid
    (CharacterColor.make CharacterColor.COLOR_SPACE_RGB (255 * 65536 + 128 * 256 + 0)) = true /\
  CharacterColor.color
    (CharacterColor.make CharacterColor.COLOR_SPACE_RGB (255 * 65536 + 128 * 256 + 0)) []
  = QColorRgb 255 128 0.
Proof. apply (rgb_color_round_trip 255 128 0 []); lia. Defined.

(** ** Round trip of [HistoryFile.cpp] *)

Section HistoryFileRoundTrip.
Context {D : Declarations}.
Import HistoryFile.

Lemma stored_at_end (file data : list Z) :
  stored file (Z.of_nat (length file)) data = file ++ data.
Proof.
  unfold stored. rewrite Nat2Z.id. rewrite resize_all.
  rewrite drop_ge by lia. rewrite app_nil_r. reflexivity.
Qed.

(** A complete [add] on a file that holds exactly [_length] bytes appends
    the data and leaves the history unmapped. *)
Lemma add_appends env data h :
  Z.of_nat (length (bytes (_tmpFile h))) = _length h ->
  unmap_ok env = true -> seek_ok env = true ->
  write_rc env = Z.of_nat (length data) ->
  let h' := fst (add env data (Z.of_nat (length data)) h) in
  _length h' = _length h + Z.of_nat (length data) /\
  _fileMap h' = None /\
  bytes (_tmpFile h') = bytes (_tmpFile h) ++ data /\
  snd (add env data (Z.of_nat (length data)) h) = [].
Proof.
  intros Hfile Hunmap Hseek Hwrite h'. subst h'. unfold add, unmap. cbv zeta.
  rewrite Hunmap, Hseek, Hwrite. cbn [negb].
  destruct (Z.ltb_spec (Z.of_nat (length data)) 0); [lia|].
  assert (forall h0 : t,
            _length h0 = _length h -> _tmpFile h0 = _tmpFile h -> _fileMap h0 = None ->
            forall b : bool,
              let h1 := if b
                        then {| _length := _length h0; _fileMap := _fileMap h0;
                                _readWriteBalance := _readWriteBalance h0 + 1;
                                _tmpFile := _tmpFile h0 |}
                        else h0 in
              _length h1 = _length h /\ _tmpFile h1 = _tmpFile h /\ _fileMap h1 = None)
    as Hbalance.
  { intros h0 H1 H2 H3 b. destruct b; cbn; repeat split; assumption. }
  match goal with
  | |- context [if ?b then ?x else ?h0] =>
      destruct (Hbalance h0 ltac:(destruct (_fileMap h); reflexivity)
                  ltac:(destruct (_fileMap h); reflexivity)
                  ltac:(destruct (_fileMap h) eqn:E; [reflexivity|exact E]) b)
        as (Hl & Hf & Hm)
  end.
  cbv zeta in Hl, Hf, Hm. cbn [fst snd _length _fileMap _tmpFile bytes].
  rewrite Hl, Hf, Hm. rewrite <- Hfile, Nat2Z.id, firstn_all, stored_at_end.
  repeat split.
Qed.

(** X16: What a complete [add] wrote is what [get] reads back: after
    [add] has written all of [data] to a history file holding exactly
    [_length] bytes, a [get] of [size] bytes at offset [loc] inside the new
    length fills the first [size] bytes of the caller's buffer with the
    bytes [loc .. loc + size - 1] of the old content followed by [data],
    whether it reads through the file (complete read) or through a fresh
    mapping; the rest of the buffer and the length of the history stay.  In
    particular the bytes added are read back at the old length, and all
    bytes stored before are still there. *)
Theorem add_then_get_reads_back
        (env1 env2 : Outcome) (data out : list Z) (h : t) (size loc : Z) :
  Z.of_nat (length (bytes (_tmpFile h))) = _length h ->
  unmap_ok env1 = true -> seek_ok env1 = true ->
  write_rc env1 = Z.of_nat (length data) ->
  seek_ok env2 = true -> read_rc env2 = size ->
  0 <= loc -> 0 <= size -> loc + size <= _length h + Z.of_nat (length data) ->
  let h1 := fst (add env1 data (Z.of_nat (length data)) h) in
  let result := get env2 out size loc h1 in
  len h1 = len h + Z.of_nat (length data) /\
  snd (fst result)
  = take (Z.to_nat size) (drop (Z.to_nat loc) (bytes (_tmpFile h) ++ data))
    ++ drop (Z.to_nat size) out /\
  len (fst (fst result)) = len h1 /\
  (loc = _length h -> size = Z.of_nat (length data) ->
   snd (fst result) = data ++ drop (length data) out).
Proof.
  intros Hfile Hunmap Hseek Hwrite Hseek2 Hread Hloc Hsize Hrange h1 result.
  destruct (add_appends env1 data h Hfile Hunmap Hseek Hwrite) as (Hlen & Hmap & Hbytes & _).
  cbv zeta in Hlen, Hmap, Hbytes. fold h1 in Hlen, Hmap, Hbytes.
  assert (snd (fst result)
          = take (Z.to_nat size) (drop (Z.to_nat loc) (bytes (_tmpFile h) ++ data))
            ++ drop (Z.to_nat size) out /\
          len (fst (fst result)) = len h1) as [Hbuf Hlen2].
  { subst result. unfold get, len. cbv zeta.
    destruct (Z.ltb_spec loc 0); [lia|]. destruct (Z.ltb_spec size 0); [lia|].
    destruct (Z.ltb_spec (_length h1) (loc + size)); [lia|]. cbn [orb].
    set (h2 := if INT_MIN <? _readWriteBalance h1 then _ else h1).
    assert (_length h2 = _length h1 /\ _fileMap h2 = None /\ _tmpFile h2 = _tmpFile h1)
      as (Hl2 & Hm2 & Hf2).
    { subst h2. destruct (INT_MIN <? _readWriteBalance h1); cbn; repeat split; assumption. }
    rewrite Hm2.
    destruct (_readWriteBalance h2 <? MAP_THRESHOLD).
    - (* the history is mapped first *)
      unfold map. cbv zeta.
      destruct (flush_ok env2); [destruct (map_ok env2)|]; cbn [_fileMap].
      + cbn [fst snd _length]. rewrite Hl2, Hf2, Hbytes.
        rewrite (take_ge (bytes (_tmpFile h) ++ data)) by (rewrite length_app; lia).
        split; reflexivity.
      + cbn [fst snd _length _fileMap]. rewrite Hseek2, Hread. cbn [negb].
        destruct (Z.ltb_spec size 0); [lia|].
        cbn [fst snd _length _tmpFile bytes]. rewrite Hl2, Hf2, Hbytes.
        split; reflexivity.
      + rewrite Hm2. cbn [fst snd _length _fileMap]. rewrite Hseek2, Hread. cbn [negb].
        destruct (Z.ltb_spec size 0); [lia|].
        cbn [fst snd _length _tmpFile bytes]. rewrite Hl2, Hf2, Hbytes.
        split; reflexivity.
    - rewrite Hm2. rewrite Hseek2, Hread. cbn [negb].
      destruct (Z.ltb_spec size 0); [lia|].
      cbn [fst snd _length _tmpFile bytes]. rewrite Hl2, Hf2, Hbytes.
      split; reflexivity. }
  split; [exact Hlen|]. split; [exact Hbuf|]. split; [exact Hlen2|].
  intros Hat Hall. rewrite Hbuf, Hat, Hall.
  rewrite <- Hfile, !Nat2Z.id. rewrite drop_app_length.
  rewrite firstn_all. reflexivity.
Qed.

End HistoryFileRoundTrip.

Lemma add_then_get_reads_back_witness :
  snd (fst (HistoryFile.get (D := sample_declarations)
    {| HistoryFile.unmap_ok := true; HistoryFile.seek_ok := true;
       HistoryFile.write_rc := 0; HistoryFile.flush_ok := true;
       HistoryFile.map_ok := true; HistoryFile.read_rc := 2 |}
    [0; 0; 0] 2 1
    (fst (HistoryFile.add
            {| HistoryFile.unmap_ok := true; HistoryFile.seek_ok := true;
               HistoryFile.write_rc := 2; HistoryFile.flush_ok := true;
               HistoryFile.map_ok := true; HistoryFile.read_rc := 0 |}
            [8; 9] 2
            {| HistoryFile._length := 1; HistoryFile._fileMap := None;
               HistoryFile._readWriteBalance := 0;
               HistoryFile._tmpFile :=
                 {| HistoryFile.bytes := [7]; HistoryFile.pos := 0 |} |}))))
  = [8; 9; 0].
Proof.
  destruct (add_then_get_reads_back (D := sample_declarations)
    {| HistoryFile.unmap_ok := true; HistoryFile.seek_ok := true;
       HistoryFile.write_rc := 2; HistoryFile.flush_ok := true;
       HistoryFile.map_ok := true; HistoryFile.read_rc := 0 |}
    {| HistoryFile.unmap_ok := true; HistoryFile.seek_ok := true;
       HistoryFile.write_rc := 0; HistoryFile.flush_ok := true;
       HistoryFile.map_ok := true; HistoryFile.read_rc := 2 |}
    [8; 9] [0; 0; 0]
    {| HistoryFile._length := 1; HistoryFile._fileMap := None;
       HistoryFile._readWriteBalance := 0;
       HistoryFile._tmpFile := {| HistoryFile.bytes := [7]; HistoryFile.pos := 0 |} |}
    2 1 eq_refl eq_refl eq_refl eq_refl eq_refl eq_refl
    ltac:(lia) ltac:(lia) ltac:(vm_compute; discriminate)) as (_ & _ & _ & Hback).
  exact (Hback eq_refl eq_refl).
Defined.

(** ** More of [ScreenWindow.cpp] *)

Section ScreenWindowMore.
Context {D : Declarations}.
Import ScreenWindow.

(** X17: The lines a window asks its screen for in [getImage] and
    [getLineProperties] are lines of the screen: for a window of at least
    one line on a screen of at least one line, [currentLine()] and
    [endWindowLine()] satisfy what [Screen::getImage] asserts of its
    arguments ([startLine >= 0], [endLine >= startLine],
    [endLine < history lines + screen lines]) and span at most
    [windowLines()] lines, so that the window buffer is large enough. *)
Theorem window_asks_for_lines_of_the_screen (screen : Screen.Screen) (w : t) :
  0 < windowLines w ->
  0 < lineCount screen ->
  0 <= currentLine screen w /\
  currentLine screen w <= endWindowLine screen w /\
  endWindowLine screen w < Screen.getHistLines screen + Screen.getLines screen /\
  endWindowLine screen w - currentLine screen w + 1 <= windowLines w.
Proof.
  intros Hw Hl. unfold endWindowLine.
  pose proof (std_clamp_bounds (_currentLine w) 0
                (Z.max 0 (lineCount screen - windowLines w)) ltac:(lia)) as Hcur.
  fold (currentLine screen w) in Hcur.
  fold (lineCount screen). lia.
Qed.

(** X18: [notifyOutputChanged] on a window that tracks the output moves
    it to the end of the output: its current line becomes
    [max(0, lineCount - windowLines)], it is at the end of the output
    exactly when the window is not taller than the output, and the lines
    the screen scrolled are taken off its scroll count.  On a window that
    does not track the output the window moves up by the lines the history
    dropped, not above line 0 and not below the end of the history; if
    nothing was dropped and the window was inside the history it stays
    where it was, and the scroll count stays.  In both cases the buffer is
    marked for update. *)
Theorem notifyOutputChanged_tracks_or_stays (screen : Screen.Screen) (w : t) :
  let w' := notifyOutputChanged screen w in
  (_trackOutput w = true ->
   currentLine screen w' = Z.max 0 (lineCount screen - windowLines w) /\
   atEndOfOutput screen w' = (windowLines w <=? lineCount screen) /\
   scrollCount w' = scrollCount w - Screen.scrolledLines screen) /\
  (_trackOutput w = false ->
   _currentLine w'
   = Z.min (Z.max 0 (_currentLine w - Screen.droppedLines screen))
           (Screen.getHistLines screen) /\
   (Screen.droppedLines screen = 0 ->
    0 <= _currentLine w <= Screen.getHistLines screen ->
    _currentLine w' = _currentLine w) /\
   scrollCount w' = scrollCount w) /\
  _bufferNeedsUpdate w' = true /\
  windowLines w' = windowLines w.
Proof.
  intros w'. subst w'. unfold notifyOutputChanged. cbv zeta.
  split; [|split; [|split]].
  - intros ->. unfold atEndOfOutput, currentLine, windowLines, scrollCount, lineCount,
      std_clamp.
    cbn [_currentLine _windowLines _scrollCount].
    repeat match goal with
           | |- context [?a <? ?b] => destruct (Z.ltb_spec a b)
           | |- context [?a <=? ?b] => destruct (Z.leb_spec a b)
           | |- context [?a =? ?b] => destruct (Z.eqb_spec a b)
           end; repeat split; lia.
  - intros ->. unfold scrollCount. cbn [_currentLine _scrollCount].
    repeat split. intros Hdrop Hin. lia.
  - destruct (_trackOutput w); reflexivity.
  - destruct (_trackOutput w); reflexivity.
Qed.

Lemma step_scroll_balance op screen w :
  notifies op = false ->
  scrollCount (snd (step (screen, w) op)) - _currentLine (snd (step (screen, w) op))
  = scrollCount w - _currentLine w.
Proof.
  intros Hop. destruct op; try discriminate Hop; cbn [step snd];
    unfold scrollBy, scrollTo, setWindowLines, scrollCount; cbv zeta.
  - cbn [_scrollCount _currentLine]. lia.
  - destruct mode; [|destruct fullPage]; cbn [_scrollCount _currentLine]; lia.
  - reflexivity.
  - reflexivity.
  - reflexivity.
Qed.

(** X19: The scroll count follows the window: as long as no new output
    is reported to the window, every sequence of scrolling, resizing and
    tracking calls, and of changes of the screen behind the window, changes
    [_scrollCount] by exactly as much as it changes [_currentLine]; after
    [resetScrollCount] the count is the net number of lines the window has
    been moved since. *)
Theorem scroll_count_follows_window
        (ops : list Operation) (screen : Screen.Screen) (w : t) :
  forallb (fun op => negb (notifies op)) ops = true ->
  let w' := snd (run ops (screen, w)) in
  scrollCount w' - _currentLine w' = scrollCount w - _currentLine w /\
  scrollCount (snd (run ops (screen, resetScrollCount w)))
  = _currentLine (snd (run ops (screen, resetScrollCount w))) - _currentLine w.
Proof.
  intros Hops.
  assert (forall screen w,
            scrollCount (snd (run ops (screen, w))) - _currentLine (snd (run ops (screen, w)))
            = scrollCount w - _currentLine w) as Hrun.
  { clear screen w. unfold run.
    induction ops as [|op ops IH]; intros screen w; cbn [fold_left]; [reflexivity|].
    cbn [forallb] in Hops. apply andb_prop in Hops as [Hop Hrest].
    apply negb_true_iff in Hop.
    pose proof (step_scroll_balance op screen w Hop) as Hstep.
    destruct (step (screen, w) op) as [screen1 w1]. cbn [snd] in Hstep.
    rewrite (IH Hrest screen1 w1). exact Hstep. }
  split; [apply Hrun|].
  pose proof (Hrun screen (resetScrollCount w)) as Hreset.
  unfold resetScrollCount at 3 4 in Hreset. unfold scrollCount at 2 in Hreset.
  cbn [_scrollCount _currentLine] in Hreset. lia.
Qed.

End ScreenWindowMore.

Lemma window_asks_for_lines_of_the_screen_witness :
  0 <= ScreenWindow.currentLine (Screen.sample_screen (D := sample_declarations))
         {| ScreenWindow._bufferNeedsUpdate := true; ScreenWindow._windowLines := 6;
            ScreenWindow._currentLine := 9; ScreenWindow._currentResultLine := -1;
            ScreenWindow._trackOutput := true; ScreenWindow._scrollCount := 0 |} /\
  ScreenWindow.endWindowLine (Screen.sample_screen (D := sample_declarations))
    {| ScreenWindow._bufferNeedsUpdate := true; ScreenWindow._windowLines := 6;
       ScreenWindow._currentLine := 9; ScreenWindow._currentResultLine := -1;
       ScreenWindow._trackOutput := true; ScreenWindow._scrollCount := 0 |} < 0 + 4.
Proof.
  destruct (window_asks_for_lines_of_the_screen
              (Screen.sample_screen (D := sample_declarations))
              {| ScreenWindow._bufferNeedsUpdate := true; ScreenWindow._windowLines := 6;
                 ScreenWindow._currentLine := 9; ScreenWindow._currentResultLine := -1;
                 ScreenWindow._trackOutput := true; ScreenWindow._scrollCount := 0 |}
              eq_refl eq_refl) as (H1 & _ & H3 & _).
  split; [exact H1|exact H3].
Defined.

Lemma scroll_count_follows_window_witness :
  ScreenWindow.scrollCount
    (snd (ScreenWindow.run
            [ScreenWindow.OpScrollTo 1; ScreenWindow.OpSetWindowLines 2;
             ScreenWindow.OpScrollBy ScreenWindow.ScrollPages 1 true]
            (Screen.sample_screen (D := sample_declarations),
             ScreenWindow.resetScrollCount
               {| ScreenWindow._bufferNeedsUpdate := true; ScreenWindow._windowLines := 1;
                  ScreenWindow._currentLine := 0; ScreenWindow._currentResultLine := -1;
                  ScreenWindow._trackOutput := false; ScreenWindow._scrollCount := 7 |})))
  = ScreenWindow._currentLine
      (snd (ScreenWindow.run
              [ScreenWindow.OpScrollTo 1; ScreenWindow.OpSetWindowLines 2;
               ScreenWindow.OpScrollBy ScreenWindow.ScrollPages 1 true]
              (Screen.sample_screen (D := sample_declarations),
               ScreenWindow.resetScrollCount
                 {| ScreenWindow._bufferNeedsUpdate := true; ScreenWindow._windowLines := 1;
                    ScreenWindow._currentLine := 0; ScreenWindow._currentResultLine := -1;
                    ScreenWindow._trackOutput := false; ScreenWindow._scrollCount := 7 |})))
    - 0.
Proof.
  apply (scroll_count_follows_window
           [ScreenWindow.OpScrollTo 1; ScreenWindow.OpSetWindowLines 2;
            ScreenWindow.OpScrollBy ScreenWindow.ScrollPages 1 true]
           (Screen.sample_screen (D := sample_declarations))
           {| ScreenWindow._bufferNeedsUpdate := true; ScreenWindow._windowLines := 1;
              ScreenWindow._currentLine := 0; ScreenWindow._currentResultLine := -1;
              ScreenWindow._trackOutput := false; ScreenWindow._scrollCount := 7 |}).
  reflexivity.
Defined.

(** ** Styles across lines in [HTMLDecoder.cpp] *)

Section HTMLDecoderStyles.
Context {D : Declarations}.
Import HTMLDecoder.

Lemma sameAppearance_appearance c d text :
  sameAppearance c d = true -> appearance c d text = (d, text).
Proof.
  unfold sameAppearance, appearance. intros H.
  apply andb_prop in H as [H H3]. apply andb_prop in H as [H1 H2].
  rewrite H1, H2, H3. reflexivity.
Qed.

(** Cells in the decoder's last appearance get no markup and leave the
    decoder as it is. *)
Lemma same_appearance_cells cells : forall d,
  Forall (fun c => sameAppearance c d = true) cells ->
  after_cells d cells = d /\ markups d cells = replicate (length cells) [].
Proof.
  induction cells as [|c cells IH]; intros d Hall; [split; reflexivity|].
  inversion Hall as [|? ? Hc Hrest]; subst.
  unfold after_cells. cbn [fold_left markups length replicate].
  rewrite (sameAppearance_appearance c d [] Hc). cbn [fst snd].
  fold (after_cells d cells).
  destruct (IH d Hrest) as [-> ->]. split; reflexivity.
Qed.

Lemma concat_unmarked (texts : list QString) :
  concat (zip_with app (replicate (length texts) []) texts) = concat texts.
Proof.
  induction texts as [|x texts IH]; [reflexivity|].
  cbn [length replicate zip_with concat]. rewrite IH. reflexivity.
Qed.

Lemma cell_texts_length cells : forall afterSpace,
  length (cell_texts afterSpace cells) = length cells.
Proof.
  induction cells as [|c cells IH]; intros afterSpace; [reflexivity|].
  cbn [cell_texts length]. rewrite IH. reflexivity.
Qed.

(** A row in the decoder's last appearance, met with no span open, is
    written as the bare texts of its cells. *)
Lemma decodeLine_same_appearance characters count d :
  _innerSpanOpen d = false ->
  Forall (fun c => sameAppearance c d = true) (take (Z.to_nat count) characters) ->
  decodeLine characters count d
  = {| _output := _output d
                  ++ concat (cell_texts false (take (Z.to_nat count) characters))
                  ++ lit "<br>";
       _colorTable := _colorTable d; _innerSpanOpen := false;
       _lastRendition := _lastRendition d; _lastForeColor := _lastForeColor d;
       _lastBackColor := _lastBackColor d |}.
Proof.
  intros Hopen Hall. unfold decodeLine. cbv zeta.
  destruct (decodeLoop_text (take (Z.to_nat count) characters) d [] 0 ltac:(lia))
    as [sc' ->].
  destruct (same_appearance_cells _ d Hall) as [-> ->].
  rewrite Hopen. cbn [Z.ltb Z.compare app].
  rewrite <- (cell_texts_length (take (Z.to_nat count) characters) false).
  rewrite concat_unmarked. cbv beta iota. rewrite Hopen. reflexivity.
Qed.

(** After a row of cells that look alike the decoder remembers their
    appearance. *)
Lemma after_alike_cells c0 cells : forall d,
  cells <> [] ->
  Forall (fun c => alike c0 c = true) cells ->
  _lastRendition (after_cells d cells) = Character.rendition c0 /\
  _lastForeColor (after_cells d cells) = Character.foregroundColor c0 /\
  _lastBackColor (after_cells d cells) = Character.backgroundColor c0.
Proof.
  assert (forall c d, alike c0 c = true ->
            _lastRendition (fst (appearance c d [])) = Character.rendition c0 /\
            _lastForeColor (fst (appearance c d [])) = Character.foregroundColor c0 /\
            _lastBackColor (fst (appearance c d [])) = Character.backgroundColor c0)
    as Hstep.
  { intros c d Hc. unfold alike in Hc.
    apply andb_prop in Hc as [Hc H3]. apply andb_prop in Hc as [H1 H2].
    apply Z.eqb_eq in H1. apply bool_decide_eq_true in H2, H3.
    unfold appearance.
    destruct (Z.eqb_spec (Character.rendition c) (_lastRendition d)) as [E1|N1];
      [destruct (decide (Character.foregroundColor c = _lastForeColor d)) as [E2|N2];
       [destruct (decide (Character.backgroundColor c = _lastBackColor d)) as [E3|N3]|]|].
    - rewrite (bool_decide_eq_true_2 _ E2), (bool_decide_eq_true_2 _ E3).
      cbn [negb orb fst]. repeat split; congruence.
    - rewrite (bool_decide_eq_true_2 _ E2), (bool_decide_eq_false_2 _ N3).
      cbn [negb orb fst _lastRendition _lastForeColor _lastBackColor].
      repeat split; assumption.
    - rewrite (bool_decide_eq_false_2 _ N2).
      cbn [negb orb fst _lastRendition _lastForeColor _lastBackColor].
      repeat split; assumption.
    - cbn [negb orb fst _lastRendition _lastForeColor _lastBackColor].
      repeat split; assumption. }
  induction cells as [|c cells IH]; intros d Hne Hall; [contradiction|].
  inversion Hall as [|? ? Hc Hrest]; subst.
  unfold after_cells. cbn [fold_left]. fold (after_cells (fst (appearance c d [])) cells).
  destruct cells as [|c' cells'].
  - cbn [after_cells fold_left]. apply Hstep. exact Hc.
  - apply IH; [discriminate|exact Hrest].
Qed.

(** X20: The decoder remembers the last appearance across lines but
    closes its span at the end of every line and reopens one only when the
    appearance changes.  So when a row of cells that all look alike is
    decoded twice in a row, the second copy is written as the bare texts of
    its cells followed by [<br>]: it carries no [<span>] at all, whatever
    the style of the cells and of the first copy. *)
Theorem repeated_line_is_written_without_style
        (c0 : Character.t) (row : list Character.t) (d : t) :
  Forall (fun c => alike c0 c = true) row ->
  let count := Z.of_nat (length row) in
  let d1 := decodeLine row count d in
  _innerSpanOpen d1 = false /\
  _output (decodeLine row count d1)
  = _output d1 ++ concat (cell_texts false row) ++ lit "<br>".
Proof.
  intros Hall count d1.
  assert (take (Z.to_nat count) row = row) as Htake.
  { subst count. rewrite Nat2Z.id. apply firstn_all. }
  assert (_innerSpanOpen d1 = false /\
          (row <> [] ->
           _lastRendition d1 = Character.rendition c0 /\
           _lastForeColor d1 = Character.foregroundColor c0 /\
           _lastBackColor d1 = Character.backgroundColor c0)) as [Hclosed Hlast].
  { subst d1. unfold decodeLine. cbv zeta. rewrite Htake.
    destruct (decodeLoop_text row d [] 0 ltac:(lia)) as [sc' ->].
    destruct (_innerSpanOpen (after_cells d row)) eqn:Hopen;
      cbn [_innerSpanOpen _lastRendition _lastForeColor _lastBackColor];
      (split; [try reflexivity; exact Hopen|]);
      intros Hne; apply after_alike_cells; assumption. }
  split; [exact Hclosed|].
  rewrite decodeLine_same_appearance; rewrite ?Htake.
  - reflexivity.
  - exact Hclosed.
  - destruct row as [|c row']; [constructor|].
    destruct (Hlast ltac:(discriminate)) as (H1 & H2 & H3).
    revert Hall. apply List.Forall_impl.
    intros c1 Hc1. unfold alike in Hc1. unfold sameAppearance.
    rewrite H1, H2, H3. exact Hc1.
Qed.

End HTMLDecoderStyles.

Lemma repeated_line_is_written_without_style_witness :
  HTMLDecoder._output
    (HTMLDecoder.decodeLine (D := sample_declarations)
       [Screen.plain (D := sample_declarations) 97;
        Screen.plain (D := sample_declarations) 60] 2
       (HTMLDecoder.decodeLine (D := sample_declarations)
          [Screen.plain (D := sample_declarations) 97;
           Screen.plain (D := sample_declarations) 60] 2
          {| HTMLDecoder._output := []; HTMLDecoder._colorTable := None;
             HTMLDecoder._innerSpanOpen := false; HTMLDecoder._lastRendition := 0;
             HTMLDecoder._lastForeColor := CharacterColor.undefined;
             HTMLDecoder._lastBackColor := CharacterColor.undefined |}))
  = lit "<span style=" ++ dquote ++ dquote ++ lit ">a&lt;</span><br>"
    ++ lit "a&lt;<br>".
Proof.
  destruct (repeated_line_is_written_without_style (D := sample_declarations)
              (Screen.plain (D := sample_declarations) 97)
              [Screen.plain (D := sample_declarations) 97;
               Screen.plain (D := sample_declarations) 60]
              {| HTMLDecoder._output := []; HTMLDecoder._colorTable := None;
                 HTMLDecoder._innerSpanOpen := false; HTMLDecoder._lastRendition := 0;
                 HTMLDecoder._lastForeColor := CharacterColor.undefined;
                 HTMLDecoder._lastBackColor := CharacterColor.undefined |})
    as [_ Hsecond].
  - repeat constructor.
  - cbv zeta in Hsecond. exact (eq_trans Hsecond eq_refl).
Defined.

(** ** Lines and columns in [filterHotSpots/Filter.cpp] *)

Section FilterLineColumn.
Context {D : Declarations}.
Import Filter.

(** The loop of [getLineColumn] returns at the first line from [i] on whose
    test holds. *)
Lemma getLineColumn_from_first f position todo : forall i,
  0 <= i ->
  i + Z.of_nat todo = Z.of_nat (length (_linePositions f)) ->
  (getLineColumn_from todo i f position = (-1, -1) /\
   forall j, i <= j < Z.of_nat (length (_linePositions f)) ->
             lineHolds f position j = false) \/
  (exists k,
      i <= k < Z.of_nat (length (_linePositions f)) /\
      lineHolds f position k = true /\
      (forall j, i <= j < k -> lineHolds f position j = false) /\
      getLineColumn_from todo i f position
      = (k, stringWidth (mid (_buffer f) (at_ 0 (_linePositions f) k)
                             (position - at_ 0 (_linePositions f) k)))).
Proof.
  induction todo as [|todo IH]; intros i Hi Hcount.
  - left. split; [reflexivity|]. intros j Hj. lia.
  - cbn [getLineColumn_from]. cbv zeta.
    fold (nextLine f i). fold (lineHolds f position i).
    destruct (lineHolds f position i) eqn:Hholds.
    + right. exists i. split; [lia|]. split; [exact Hholds|].
      split; [intros j Hj; lia|reflexivity].
    + destruct (IH (i + 1) ltac:(lia) ltac:(lia)) as [[Hnone Hall]|(k & Hk & Hholdsk & Hfirst & Hres)].
      * left. split; [exact Hnone|]. intros j Hj.
        destruct (Z.eq_dec j i) as [->|Hne]; [exact Hholds|apply Hall; lia].
      * right. exists k. split; [lia|]. split; [exact Hholdsk|].
        split; [|exact Hres]. intros j Hj.
        destruct (Z.eq_dec j i) as [->|Hne]; [exact Hholds|apply Hfirst; lia].
Qed.

(** From a line that starts at or before the position on, some line holds
    the position, as long as the position is inside the buffer or just
    behind it. *)
Lemma some_line_holds f position n : forall k,
  0 <= k ->
  k + Z.of_nat n = Z.of_nat (length (_linePositions f)) - 1 ->
  at_ 0 (_linePositions f) k <= position ->
  position <= Z.of_nat (length (_buffer f)) ->
  exists i, k <= i < Z.of_nat (length (_linePositions f)) /\ lineHolds f position i = true.
Proof.
  induction n as [|n IH]; intros k Hk Hcount Hstart Hend.
  - exists k. split; [lia|]. unfold lineHolds, nextLine.
    destruct (Z.eqb_spec k (Z.of_nat (length (_linePositions f)) - 1)); [|lia].
    apply andb_true_intro. split; [apply Z.leb_le; lia|apply Z.ltb_lt; lia].
  - destruct (Z.le_gt_cases (at_ 0 (_linePositions f) (k + 1)) position) as [Hnext|Hnext].
    + destruct (IH (k + 1) ltac:(lia) ltac:(lia) Hnext Hend) as (i & Hi & Hholds).
      exists i. split; [lia|exact Hholds].
    + exists k. split; [lia|]. unfold lineHolds, nextLine.
      destruct (Z.eqb_spec k (Z.of_nat (length (_linePositions f)) - 1)); [lia|].
      apply andb_true_intro. split; [apply Z.leb_le; lia|apply Z.ltb_lt; lia].
Qed.

(** Every position between the start of the first line and the end of the
    buffer is found on a line. *)
Lemma position_in_buffer_has_line f position :
  0 < Z.of_nat (length (_linePositions f)) ->
  at_ 0 (_linePositions f) 0 <= position <= Z.of_nat (length (_buffer f)) ->
  0 <= fst (getLineColumn f position) < Z.of_nat (length (_linePositions f)).
Proof.
  intros Hcount [Hstart Hend].
  pose proof (getLineColumn_from_first f position (length (_linePositions f)) 0
                ltac:(lia) ltac:(lia)) as Hfirst.
  fold (getLineColumn f position) in Hfirst.
  destruct Hfirst as [[_ Hall]|(k & Hk & _ & _ & ->)]; [|exact Hk].
  destruct (some_line_holds f position (Z.to_nat (Z.of_nat (length (_linePositions f)) - 1))
              0 ltac:(lia) ltac:(lia) Hstart Hend) as (i & Hi & Hholds).
  rewrite (Hall i Hi) in Hholds. discriminate.
Qed.

(** X21: [getLineColumn] answers with the first line whose span
    [[_linePositions[i], nextLine)] holds the position, and with the
    width of the text between the start of that line and the position; it
    answers [(-1, -1)] exactly when no line holds the position.  Whenever
    the position lies between the start of the first line and the end of
    the buffer (one past its last character included), some line holds it,
    whatever the order of the line positions. *)
Theorem getLineColumn_finds_first_line (f : Filter.t) (position : Z) :
  let count := Z.of_nat (length (_linePositions f)) in
  ((getLineColumn f position = (-1, -1) /\
    forall j, 0 <= j < count -> lineHolds f position j = false) \/
   (exists k,
       0 <= k < count /\
       lineHolds f position k = true /\
       (forall j, 0 <= j < k -> lineHolds f position j = false) /\
       getLineColumn f position
       = (k, stringWidth (mid (_buffer f) (at_ 0 (_linePositions f) k)
                              (position - at_ 0 (_linePositions f) k))))) /\
  (0 < count ->
   at_ 0 (_linePositions f) 0 <= position <= Z.of_nat (length (_buffer f)) ->
   0 <= fst (getLineColumn f position) < count).
Proof.
  intros count. subst count.
  pose proof (getLineColumn_from_first f position (length (_linePositions f)) 0
                ltac:(lia) ltac:(lia)) as Hfirst.
  fold (getLineColumn f position) in Hfirst.
  split; [exact Hfirst|].
  intros Hcount Hposition.
  apply position_in_buffer_has_line; assumption.
Qed.

End FilterLineColumn.

(** ** Hotspots of [filterHotSpots/RegExpFilter.cpp] on the lines of the buffer *)

Section RegExpFilterLines.
Context {D : Declarations}.
Import RegExpFilter.

(** With line positions in increasing order, a later position is found
    on the same or a later line. *)
Lemma getLineColumn_monotone f p1 p2 :
  Filter.increasing f ->
  0 <= fst (Filter.getLineColumn f p1) ->
  0 <= fst (Filter.getLineColumn f p2) ->
  p1 <= p2 ->
  fst (Filter.getLineColumn f p1) <= fst (Filter.getLineColumn f p2).
Proof.
  intros Hinc H1 H2 Hle.
  pose proof (getLineColumn_from_first f p1 (length (Filter._linePositions f)) 0
                ltac:(lia) ltac:(lia)) as Hf1.
  pose proof (getLineColumn_from_first f p2 (length (Filter._linePositions f)) 0
                ltac:(lia) ltac:(lia)) as Hf2.
  fold (Filter.getLineColumn f p1) in Hf1. fold (Filter.getLineColumn f p2) in Hf2.
  destruct Hf1 as [[E1 _]|(k1 & Hk1 & Hholds1 & Hfirst1 & E1)];
    [rewrite E1 in H1; cbn in H1; lia|].
  destruct Hf2 as [[E2 _]|(k2 & Hk2 & Hholds2 & Hfirst2 & E2)];
    [rewrite E2 in H2; cbn in H2; lia|].
  rewrite E1, E2. cbn [fst].
  destruct (Z.le_gt_cases k1 k2) as [|Hgt]; [assumption|exfalso].
  (* line [k2] comes first and holds [p2], but not [p1] *)
  pose proof (Hfirst1 k2 ltac:(lia)) as Hnot.
  unfold Filter.lineHolds in Hholds1, Hholds2, Hnot.
  apply andb_prop in Hholds1 as [Hs1 _]. apply Z.leb_le in Hs1.
  apply andb_prop in Hholds2 as [Hs2 He2]. apply Z.leb_le in Hs2. apply Z.ltb_lt in He2.
  pose proof (Hinc k2 k1 ltac:(lia) ltac:(lia) ltac:(lia)) as Hord.
  apply andb_false_iff in Hnot as [Hnot|Hnot].
  - apply Z.leb_gt in Hnot. lia.
  - apply Z.ltb_ge in Hnot. lia.
Qed.

(** The matches of a scan of a well-behaved pattern lie inside the text. *)
Lemma scan_within re text pos ms last :
  wellBehaved re ->
  scan re text pos ms last ->
  0 <= pos ->
  Forall (fun m => 0 <= position m /\ 0 <= matchedLength m /\
                   position m + matchedLength m <= Z.of_nat (length text))
         (ms ++ option_list last).
Proof.
  intros Hre Hscan. induction Hscan as [pos Hnone|pos Hat Hzero|pos ms last Hat Hlen Hscan IH];
    intros Hpos.
  - constructor.
  - cbn. constructor; [|constructor].
    destruct (Hre text pos Hpos) as [Hno|(H1 & H2 & H3)]; lia.
  - cbn [app]. destruct (Hre text pos Hpos) as [Hno|(H1 & H2 & H3)]; [lia|].
    constructor; [lia|]. apply IH. lia.
Qed.

(** X22: On a buffer whose line positions start at 0 and increase,
    [process] with a well-behaved pattern files every hotspot it creates on
    lines of the buffer: its start line and end line are line numbers of
    the buffer, the start line is not after the end line, and [addHotSpot]
    therefore enters the hotspot under each of its lines. *)
Theorem process_hotspots_lie_on_lines (re : QRegExp) (f : Filter.t) (fuel : nat) :
  wellBehaved re ->
  (length (Filter._buffer f) + 2 <= fuel)%nat ->
  Filter.increasing f ->
  0 < Z.of_nat (length (Filter._linePositions f)) ->
  at_ 0 (Filter._linePositions f) 0 = 0 ->
  exists f',
    process fuel re f = Some f' /\
    forall spot,
      In spot (Filter.hotSpots f') ->
      In spot (Filter.hotSpots f) \/
      (0 <= Filter.startLine spot /\
       Filter.startLine spot <= Filter.endLine spot /\
       Filter.endLine spot < Z.of_nat (length (Filter._linePositions f))).
Proof.
  intros Hre Hfuel Hinc Hcount Hzero. unfold process. cbv zeta.
  destruct (isEmpty (pattern re) || isEmpty (pattern re)).
  { exists f. split; [reflexivity|]. intros spot Hin. left. exact Hin. }
  destruct (process_loop_scans re Hre fuel 0 f)
    as (ms & last & f' & Hrun & Hscan & _ & Hspots & _); [lia|lia|lia|].
  exists f'. split; [exact Hrun|].
  intros spot Hin. rewrite Hspots in Hin.
  apply in_app_or in Hin as [Hold|Hnew]; [left; exact Hold|right].
  rewrite <- List.map_app in Hnew. apply in_map_iff in Hnew as (m & <- & Hm).
  pose proof (scan_within re _ 0 ms last Hre Hscan ltac:(lia)) as Hwithin.
  rewrite List.Forall_forall in Hwithin.
  destruct (Hwithin m Hm) as (Hp & Hl & He).
  destruct (position_in_buffer_has_line f (position m) Hcount) as [Hs1 Hs2];
    [rewrite Hzero; lia|].
  destruct (position_in_buffer_has_line f (position m + matchedLength m) Hcount)
    as [He1 He2]; [rewrite Hzero; lia|].
  pose proof (getLineColumn_monotone f (position m) (position m + matchedLength m)
                Hinc Hs1 He1 ltac:(lia)) as Hmono.
  unfold hotSpotOf.
  destruct (Filter.getLineColumn f (position m)) as [startLine startColumn].
  destruct (Filter.getLineColumn f (position m + matchedLength m)) as [endLine endColumn].
  cbn [newHotSpot Filter.startLine Filter.endLine fst] in *. lia.
Qed.

End RegExpFilterLines.

Lemma process_hotspots_lie_on_lines_witness :
  exists f',
    RegExpFilter.process (D := sample_declarations) 5 RegExpFilter.regexp_b_star
      RegExpFilter.sample_filter = Some f' /\
    forall spot,
      In spot (Filter.hotSpots f') ->
      In spot (Filter.hotSpots RegExpFilter.sample_filter) \/
      (0 <= Filter.startLine spot /\
       Filter.startLine spot <= Filter.endLine spot /\
       Filter.endLine spot < 1).
Proof.
  apply (process_hotspots_lie_on_lines (D := sample_declarations)
           RegExpFilter.regexp_b_star RegExpFilter.sample_filter 5).
  - apply regexp_b_star_wellBehaved.
  - cbn. lia.
  - intros i j Hi Hij Hj. cbn in Hj.
    assert (i = 0) as -> by lia. assert (j = 0) as -> by lia. reflexivity.
  - reflexivity.
  - reflexivity.
Defined.

(** ** Selecting lines through the window *)

Section LineRangeSelection.
Context {D : Declarations}.
Import Screen.

(** X23: [ScreenWindow::setSelectionByLineRange(start, end)] on a screen
    with at least one column selects whole lines: for
    [0 <= start <= end] exactly the cells of the lines [start .. end] (the
    end given as column [_columns] is corrected to the last column).  A
    reversed range is not swapped: with [end + 1 = start] nothing is
    selected, and with [end + 1 < start] the lines [end + 1 .. start - 1]
    and the first cell of line [start] are.  The window buffer is marked
    for update. *)
Theorem setSelectionByLineRange_selects_whole_lines
        (start end_ : Z) (st : State) (w : ScreenWindow.t) (x y : Z) :
  0 <= start -> 0 <= end_ ->
  0 <= x < _columns (base st) -> 0 <= y ->
  let st' := fst (ScreenWindow.setSelectionByLineRange start end_ st w) in
  let w' := snd (ScreenWindow.setSelectionByLineRange start end_ st w) in
  (start <= end_ -> isSelected x y st' = (start <=? y) && (y <=? end_)) /\
  (end_ + 1 = start -> isSelected x y st' = false) /\
  (end_ + 1 < start ->
   isSelected x y st' = ((end_ + 1 <=? y) && (y <? start)) || ((y =? start) && (x =? 0))) /\
  ScreenWindow._bufferNeedsUpdate w' = true.
Proof.
  intros Hstart Hend Hx Hy st' w'.
  assert (0 < _columns (base st)) as Hc by lia.
  subst st' w'.
  unfold ScreenWindow.setSelectionByLineRange, ScreenWindow.windowColumns, getColumns,
    setSelectionEnd, setSelectionStart, clearSelection, isSelected.
  cbv zeta. unfold loc.
  cbn [fst snd on_base set_blockSelectionMode base _blockSelectionMode
       set_selBegin set_selTopLeft set_selBottomRight
       _columns _selBegin _selTopLeft _selBottomRight
       ScreenWindow._bufferNeedsUpdate].
  destruct (Z.eqb_spec 0 (_columns (base st))) as [Hzero|_]; [lia|].
  cbn [fst snd on_base set_blockSelectionMode base _blockSelectionMode
       set_selBegin set_selTopLeft set_selBottomRight
       _columns _selBegin _selTopLeft _selBottomRight].
  assert (0 <= start * _columns (base st)) as Hpos by nia.
  replace (start * _columns (base st) + 0) with (start * _columns (base st)) by lia.
  destruct (Z.eqb_spec (start * _columns (base st)) (-1)) as [Hneg|_]; [lia|].
  rewrite Z.eqb_refl.
  assert (forall a b : Z, a <= b -> a * _columns (base st) <= b * _columns (base st))
    as Hmono by (intros a b Hab; nia).
  split; [|split; [|split; [|reflexivity]]].
  - intros Hle. pose proof (Hmono start end_ Hle) as Hrows.
    destruct (Z.ltb_spec (end_ * _columns (base st) + _columns (base st))
                         (start * _columns (base st))) as [Hlt|_]; [lia|].
    cbn [fst snd on_base set_blockSelectionMode base _blockSelectionMode
         set_selBegin set_selTopLeft set_selBottomRight
         _columns _selBegin _selTopLeft _selBottomRight].
    rewrite andb_true_r, ?Z.add_0_r.
    apply Bool.eq_iff_eq_true. rewrite !andb_true_iff, !Z.leb_le.
    split.
    + intros [H1 H2]. split.
      * destruct (Z.le_gt_cases start y) as [|Hgt]; [assumption|].
        pose proof (Hmono (y + 1) start ltac:(lia)). lia.
      * destruct (Z.le_gt_cases y end_) as [|Hgt]; [assumption|].
        pose proof (Hmono (end_ + 1) y ltac:(lia)). lia.
    + intros [H1 H2].
      pose proof (Hmono start y H1). pose proof (Hmono y end_ H2). lia.
  - intros Heq. subst start.
    destruct (Z.ltb_spec (end_ * _columns (base st) + _columns (base st))
                         ((end_ + 1) * _columns (base st))) as [Hlt|_]; [lia|].
    cbn [fst snd on_base set_blockSelectionMode base _blockSelectionMode
         set_selBegin set_selTopLeft set_selBottomRight
         _columns _selBegin _selTopLeft _selBottomRight].
    rewrite andb_true_r, ?Z.add_0_r.
    apply andb_false_iff.
    destruct (Z.leb_spec ((end_ + 1) * _columns (base st))
                         (y * _columns (base st) + x)); [right|left; reflexivity].
    apply Z.leb_gt. lia.
  - intros Hlt. pose proof (Hmono (end_ + 2) start ltac:(lia)) as Hrows.
    destruct (Z.ltb_spec (end_ * _columns (base st) + _columns (base st))
                         (start * _columns (base st))) as [_|Hge]; [|lia].
    cbn [fst snd on_base set_blockSelectionMode base _blockSelectionMode
         set_selBegin set_selTopLeft set_selBottomRight
         _columns _selBegin _selTopLeft _selBottomRight].
    rewrite andb_true_r, ?Z.add_0_r.
    apply Bool.eq_iff_eq_true.
    rewrite orb_true_iff, !andb_true_iff, !Z.leb_le, Z.ltb_lt, !Z.eqb_eq.
    split.
    + intros [H1 H2].
      destruct (Z.lt_trichotomy y start) as [Hy1|[Hy1|Hy1]].
      * left. split; [|exact Hy1].
        destruct (Z.le_gt_cases (end_ + 1) y) as [|Hgt]; [assumption|].
        pose proof (Hmono (y + 1) (end_ + 1) ltac:(lia)). lia.
      * right. subst y. split; [reflexivity|lia].
      * pose proof (Hmono (start + 1) y ltac:(lia)). lia.
    + intros [[H1 H2]|[H1 H2]].
      * pose proof (Hmono (end_ + 1) y H1). pose proof (Hmono (y + 1) start ltac:(lia)).
        lia.
      * subst y x. lia.
Qed.

End LineRangeSelection.

Lemma setSelectionByLineRange_selects_whole_lines_witness :
  Screen.isSelected 2 1
    (fst (ScreenWindow.setSelectionByLineRange 1 2
            (Screen.sample_state (D := sample_declarations))
            {| ScreenWindow._bufferNeedsUpdate := false; ScreenWindow._windowLines := 4;
               ScreenWindow._currentLine := 0; ScreenWindow._currentResultLine := -1;
               ScreenWindow._trackOutput := true; ScreenWindow._scrollCount := 0 |}))
  = true.
Proof.
  destruct (setSelectionByLineRange_selects_whole_lines 1 2
              (Screen.sample_state (D := sample_declarations))
              {| ScreenWindow._bufferNeedsUpdate := false; ScreenWindow._windowLines := 4;
                 ScreenWindow._currentLine := 0; ScreenWindow._currentResultLine := -1;
                 ScreenWindow._trackOutput := true; ScreenWindow._scrollCount := 0 |}
              2 1 ltac:(lia) ltac:(lia) ltac:(evaluate) ltac:(lia)) as (Hlines & _).
  exact (Hlines ltac:(lia)).
Defined.
